(** * analytics_backend: a shallow embedding of the request handlers

    The repository is an Express application over a MySQL store and an
    optional Redis cache.  This development embeds

    - [utils/keygen.js]                       ([genId], [genApiKey]),
    - [middlewares/apiKeyAuth.js]             ([apiKeyAuth]),
    - [controllers/auth.controller.js]        ([registerApp], [getApiKey],
                                               [revokeKey], [regenerateKey]),
    - [controllers/analytics.controller.js]   ([collectEvent], [eventSummary],
                                               [userStats]),
    - [controllers/shorturl.controller.js]    ([createShortUrl],
                                               [redirectShortUrl]),
    - the route tables of [routes/*.js] and the mounting order of [index.js],
    - [config/db.js] and [config/redis.js]    ([getPool], [closePool],
                                               [getRedis], [closeRedis],
                                               [reconnectStrategy]),

    and states the properties of the specification over them.

    Tables are lists of rows, SQL statements are list functions, every
    [await] is a bind of a small state-and-exception monad over a [World]
    that holds the tables, the cache, the clock, the random source and the
    fault oracles of the two external systems.

    A run of a handler is the run of one request, from its first statement
    to its response.  What the requests served meanwhile write is explicit
    where a handler reads the tables twice: [eventSummary_between] and
    [userStats_between] take the writes that land between the two queries,
    and [eventSummary] and [userStats] are the runs in which there are
    none. *)

From stdpp Require Import gmap strings list.
From Stdlib Require Import ZArith Ascii String Bool Lia Permutation Sorted.

Open Scope string_scope.
Open Scope Z_scope.

(** ** JavaScript values that reach the handlers *)

(** A value found in a JSON request body.  A number is an integer (no
    handler computes with a body number).  An object or array is kept as its
    [JSON.stringify] text, which is all the handlers ever do with one. *)
Inductive JsVal : Type :=
| JNull
| JBool (b : bool)
| JNum (n : Z)
| JStr (s : string)
| JObj (text : string).

(** [!!v] of JavaScript. *)
Definition truthy (v : JsVal) : bool :=
  match v with
  | JNull => false
  | JBool b => b
  | JNum n => negb (n =? 0)
  | JStr s => negb (String.eqb s "")
  | JObj _ => true
  end.

(** A field that may be absent ([undefined]). *)
Definition truthy_field (f : option JsVal) : bool :=
  match f with
  | Some v => truthy v
  | None => false
  end.

(** A query-string parameter: absent, or a string (possibly empty). *)
Definition truthy_param (p : option string) : bool :=
  match p with
  | Some s => negb (String.eqb s "")
  | None => false
  end.

(** [typeof v === 'string'] *)
Definition is_string (f : option JsVal) : bool :=
  match f with
  | Some (JStr _) => true
  | _ => false
  end.

(** ** Strings *)

Module Str.

(** [s.substring(0, n)] *)
Definition substring0 (n : nat) (s : string) : string := String.substring 0 n s.

(** [s.slice(-n)]: the last [n] characters, the whole string when it is
    shorter. *)
Definition slice_last (n : nat) (s : string) : string :=
  String.substring (String.length s - n) n s.


Definition is_space (c : ascii) : bool :=
  let n := nat_of_ascii c in
  ((9 <=? n) && (n <=? 13) || (n =? 32))%nat.

Fixpoint trim_left (s : string) : string :=
  match s with
  | String c rest => if is_space c then trim_left rest else s
  | EmptyString => EmptyString
  end.

Definition rev (s : string) : string :=
  string_of_list_ascii (List.rev (list_ascii_of_string s)).

(** [s.trim()] (ASCII white space). *)
Definition trim (s : string) : string := rev (trim_left (rev (trim_left s))).

Definition digit (n : Z) : ascii := ascii_of_nat (48 + Z.to_nat n).

Fixpoint digits (fuel : nat) (n : Z) (acc : string) : string :=
  match fuel with
  | O => acc
  | S fuel' =>
      let acc' := String (digit (n mod 10)) acc in
      if n / 10 =? 0 then acc' else digits fuel' (n / 10) acc'
  end.

(** [String(n)] for an integer: a number has no more decimal digits than
    binary ones. *)
Definition of_Z (n : Z) : string :=
  if n <? 0 then String "-" (digits (S (Z.to_nat (Z.log2 (- n)))) (- n) "")
  else digits (S (Z.to_nat (Z.log2 n))) n "".

End Str.

(** ** Encodings of [Buffer.toString] *)

Module Encoding.

Definition hex_digit (n : Z) : ascii :=
  if n <? 10 then ascii_of_nat (48 + Z.to_nat n)
  else ascii_of_nat (87 + Z.to_nat n).

(** [buf.toString('hex')]: two lower-case digits per byte. *)
Fixpoint hex (bs : list Z) : string :=
  match bs with
  | [] => ""
  | b :: rest =>
      String (hex_digit (Z.shiftr b 4)) (String (hex_digit (Z.land b 15)) (hex rest))
  end.

(** The URL-safe alphabet of RFC 4648, section 5. *)
Definition b64url_digit (n : Z) : ascii :=
  if n <? 26 then ascii_of_nat (65 + Z.to_nat n)
  else if n <? 52 then ascii_of_nat (97 + Z.to_nat (n - 26))
  else if n <? 62 then ascii_of_nat (48 + Z.to_nat (n - 52))
  else if n =? 62 then "-"%char
  else "_"%char.

(** [buf.toString('base64url')]: four digits per three bytes, a last group
    of one or two bytes gives two or three digits, and no padding. *)
Fixpoint base64url (bs : list Z) : string :=
  match bs with
  | [] => ""
  | [a] =>
      String (b64url_digit (Z.shiftr a 2))
        (String (b64url_digit (Z.shiftl (Z.land a 3) 4)) "")
  | [a; b] =>
      String (b64url_digit (Z.shiftr a 2))
        (String (b64url_digit (Z.lor (Z.shiftl (Z.land a 3) 4) (Z.shiftr b 4)))
           (String (b64url_digit (Z.shiftl (Z.land b 15) 2)) ""))
  | a :: b :: c :: rest =>
      String (b64url_digit (Z.shiftr a 2))
        (String (b64url_digit (Z.lor (Z.shiftl (Z.land a 3) 4) (Z.shiftr b 4)))
           (String (b64url_digit (Z.lor (Z.shiftl (Z.land b 15) 2) (Z.shiftr c 6)))
              (String (b64url_digit (Z.land c 63)) (base64url rest))))
  end.

End Encoding.

(** ** Data model: the four tables of [schema.sql] *)

(** Timestamps are instants in milliseconds; [NULL] is [None]. *)
Record App : Type := mkApp {
  app_id : string;
  app_name : string;
  app_description : option string;
  app_created_at : Z;
  app_updated_at : Z
}.

Record ApiKey : Type := mkApiKey {
  key_id : string;
  key_app_id : string;
  key_api_key : string;
  key_is_revoked : bool;
  key_expires_at : option Z;
  key_created_at : Z;
  key_revoked_at : option Z
}.

Record Event : Type := mkEvent {
  ev_id : string;
  ev_app_id : string;
  ev_api_key_id : string;
  ev_event_name : string;
  ev_user_id : string;
  ev_session_id : option string;
  ev_device_type : option string;
  ev_device_model : option string;
  ev_os_name : option string;
  ev_os_version : option string;
  ev_browser_name : option string;
  ev_browser_version : option string;
  ev_ip_address : option string;
  ev_user_agent : option string;
  ev_properties : option string;
  ev_timestamp : Z;
  ev_created_at : Z
}.

Record ShortUrl : Type := mkShortUrl {
  su_id : string;
  su_app_id : string;
  su_slug : string;
  su_original_url : string;
  su_click_count : Z;
  su_created_at : Z;
  su_updated_at : Z
}.

Record Store : Type := mkStore {
  apps : list App;
  api_keys : list ApiKey;
  events : list Event;
  short_urls : list ShortUrl
}.

Definition empty_store : Store := mkStore [] [] [] [].

(** ** The SQL statements of the handlers, as functions on the tables

    String comparison is exact equality (the collation of the schema is not
    modelled).  The order of rows that SQL leaves open (rows of a [GROUP BY],
    ties of an [ORDER BY]) is fixed by the functions below.  The general
    statements about these queries speak of membership, counts and
    sortedness only, and the rows of the examples have no ties. *)

Module Sql.

Definition str_eqb (a b : string) : bool := bool_decide (a = b).

(** The widths of the columns of [schema.sql].  The server is MySQL 8 in its
    default strict mode: a value longer than its column is refused with an
    error, not cut.  Lengths are counted in the characters of the strings of
    this development. *)
Definition fits (n : Z) (v : string) : bool := Z.of_nat (String.length v) <=? n.

Definition fits_null (n : Z) (v : option string) : bool :=
  match v with
  | Some text => fits n text
  | None => true
  end.

(** A [TEXT] column holds 65535 bytes. *)
Definition TEXT : Z := 65535.

Definition has_app (id : string) (s : Store) : bool :=
  existsb (fun a => str_eqb (app_id a) id) (apps s).

(** [ORDER BY key DESC] *)
Fixpoint insert_desc {A : Type} (key : A -> Z) (x : A) (l : list A) : list A :=
  match l with
  | [] => [x]
  | y :: rest => if key y <? key x then x :: l else y :: insert_desc key x rest
  end.

Definition order_by_desc {A : Type} (key : A -> Z) (l : list A) : list A :=
  foldr (insert_desc key) [] l.

(** [LIMIT n] *)
Definition limit {A : Type} (n : nat) (l : list A) : list A := firstn n l.

(** [MIN(col)] and [MAX(col)] over the rows of a non-empty group *)
Definition min_of (x : Z) (l : list Z) : Z := foldr Z.min x l.
Definition max_of (x : Z) (l : list Z) : Z := foldr Z.max x l.

(** *** api_keys and apps *)

(** The row of the authentication query. *)
Record AuthRow : Type := mkAuthRow {
  ar_id : string;
  ar_app_id : string;
  ar_api_key : string;
  ar_is_revoked : bool;
  ar_expires_at : option Z;
  ar_app_name : string
}.

Definition not_expired (now : Z) (k : ApiKey) : bool :=
  match key_expires_at k with
  | None => true
  | Some t => now <? t
  end.

(** [SELECT ak.id, ak.app_id, ak.api_key, ak.is_revoked, ak.expires_at,
    a.name as app_name FROM api_keys ak INNER JOIN apps a ON ak.app_id = a.id
    WHERE ak.api_key = ? AND ak.is_revoked = FALSE
      AND (ak.expires_at IS NULL OR ak.expires_at > NOW())] *)
Definition select_valid_key (apiKey : string) (now : Z) (s : Store) : list AuthRow :=
  flat_map
    (fun k =>
       List.map
         (fun a => mkAuthRow (key_id k) (key_app_id k) (key_api_key k)
                     (key_is_revoked k) (key_expires_at k) (app_name a))
         (List.filter (fun a => str_eqb (key_app_id k) (app_id a)) (apps s)))
    (List.filter
       (fun k => str_eqb (key_api_key k) apiKey && negb (key_is_revoked k)
                 && not_expired now k)
       (api_keys s)).

(** [apps]: [id VARCHAR(36)], [name VARCHAR(255)], [description TEXT]. *)
Definition app_fits (id name : string) (description : option string) : bool :=
  fits 36 id && fits 255 name && fits_null TEXT description.

(** [INSERT INTO apps (id, name, description) VALUES (?, ?, ?)]; the
    primary key rejects a duplicate id, the columns a value that is too
    long. *)
Definition insert_app (id name : string) (description : option string) (now : Z)
    (s : Store) : option Store :=
  if negb (app_fits id name description) then None
  else if has_app id s then None
  else Some (mkStore (apps s ++ [mkApp id name description now now])
               (api_keys s) (events s) (short_urls s)).

(** [api_keys]: [id VARCHAR(36)], [app_id VARCHAR(36)], [api_key VARCHAR(64)]. *)
Definition api_key_fits (id appId apiKey : string) : bool :=
  fits 36 id && fits 36 appId && fits 64 apiKey.

(** [INSERT INTO api_keys (id, app_id, api_key) VALUES (?, ?, ?)]; the
    other columns take their defaults.  Rejected by the width of a column,
    by the primary key ([id]), by the unique index ([api_key]) and by the
    foreign key ([app_id]). *)
Definition insert_api_key (id appId apiKey : string) (now : Z) (s : Store)
    : option Store :=
  if negb (api_key_fits id appId apiKey) then None
  else if existsb (fun k => str_eqb (key_id k) id) (api_keys s) then None
  else if existsb (fun k => str_eqb (key_api_key k) apiKey) (api_keys s) then None
  else if negb (has_app appId s) then None
  else Some (mkStore (apps s)
               (api_keys s ++ [mkApiKey id appId apiKey false None now None])
               (events s) (short_urls s)).

(** The row of the credential list. *)
Record KeyRow : Type := mkKeyRow {
  kr_id : string;
  kr_api_key : string;
  kr_is_revoked : bool;
  kr_expires_at : option Z;
  kr_created_at : Z;
  kr_revoked_at : option Z;
  kr_app_name : string
}.

(** [SELECT ak.id, ak.api_key, ak.is_revoked, ak.expires_at, ak.created_at,
    ak.revoked_at, a.name as app_name FROM api_keys ak
    INNER JOIN apps a ON ak.app_id = a.id
    WHERE ak.app_id = ? ORDER BY ak.created_at DESC] *)
Definition select_keys_of_app (appId : string) (s : Store) : list KeyRow :=
  order_by_desc kr_created_at
    (flat_map
       (fun k =>
          List.map
            (fun a => mkKeyRow (key_id k) (key_api_key k) (key_is_revoked k)
                        (key_expires_at k) (key_created_at k) (key_revoked_at k)
                        (app_name a))
            (List.filter (fun a => str_eqb (key_app_id k) (app_id a)) (apps s)))
       (List.filter (fun k => str_eqb (key_app_id k) appId) (api_keys s))).

(** [SET is_revoked = TRUE, revoked_at = NOW()] on one row. *)
Definition revoke_row (now : Z) (k : ApiKey) : ApiKey :=
  mkApiKey (key_id k) (key_app_id k) (key_api_key k) true (key_expires_at k)
    (key_created_at k) (Some now).

(** The [UPDATE] of the rows that a [WHERE] clause matches, with the number
    of those rows. *)
Definition update_keys (matches : ApiKey -> bool) (now : Z) (s : Store) : nat * Store :=
  (List.length (List.filter matches (api_keys s)),
   mkStore (apps s)
     (List.map (fun k => if matches k then revoke_row now k else k) (api_keys s))
     (events s) (short_urls s)).

(** [UPDATE api_keys SET is_revoked = TRUE, revoked_at = NOW() WHERE id = ?]
    The first component is [affectedRows]: the pool of [config/db.js] keeps
    the driver's default client flags, under which it counts the rows the
    [WHERE] clause matched. *)
Definition revoke_by_id (id : string) (now : Z) (s : Store) : nat * Store :=
  update_keys (fun k => str_eqb (key_id k) id) now s.

(** [UPDATE api_keys SET is_revoked = TRUE, revoked_at = NOW()
    WHERE app_id = ? AND is_revoked = FALSE] *)
Definition revoke_active_of_app (appId : string) (now : Z) (s : Store) : nat * Store :=
  update_keys (fun k => str_eqb (key_app_id k) appId && negb (key_is_revoked k)) now s.

(** [SELECT id FROM api_keys WHERE app_id = ? AND is_revoked = FALSE LIMIT 1] *)
Definition select_active_key_id (appId : string) (s : Store) : list string :=
  limit 1
    (List.map key_id
       (List.filter (fun k => str_eqb (key_app_id k) appId && negb (key_is_revoked k))
          (api_keys s))).

(** *** events *)

Definition has_key_id (id : string) (s : Store) : bool :=
  existsb (fun k => str_eqb (key_id k) id) (api_keys s).

(** [events]: the widths of its [VARCHAR] and [TEXT] columns, in the order
    of [schema.sql]; [properties JSON] has no width of its own. *)
Definition event_fits (e : Event) : bool :=
  fits 36 (ev_id e) && fits 36 (ev_app_id e) && fits 36 (ev_api_key_id e)
  && fits 255 (ev_event_name e) && fits 255 (ev_user_id e)
  && fits_null 255 (ev_session_id e) && fits_null 50 (ev_device_type e)
  && fits_null 255 (ev_device_model e) && fits_null 100 (ev_os_name e)
  && fits_null 50 (ev_os_version e) && fits_null 100 (ev_browser_name e)
  && fits_null 50 (ev_browser_version e) && fits_null 45 (ev_ip_address e)
  && fits_null TEXT (ev_user_agent e).

(** [INSERT INTO events (...) VALUES (...)]: rejected by the width of a
    column, by the primary key and by the two foreign keys.  [created_at]
    takes its default. *)
Definition insert_event (e : Event) (s : Store) : option Store :=
  if negb (event_fits e) then None
  else if existsb (fun x => str_eqb (ev_id x) (ev_id e)) (events s) then None
  else if negb (has_app (ev_app_id e) s) then None
  else if negb (has_key_id (ev_api_key_id e) s) then None
  else Some (mkStore (apps s) (api_keys s) (events s ++ [e]) (short_urls s)).

(** [WHERE event_name = ? [AND app_id = ?] AND timestamp >= ? AND timestamp <= ?];
    [appId = None] is the statement without the [app_id] condition. *)
Definition summary_where (event : string) (appId : option string) (start end_ : Z)
    (e : Event) : bool :=
  str_eqb (ev_event_name e) event
  && match appId with
     | Some a => str_eqb (ev_app_id e) a
     | None => true
     end
  && (start <=? ev_timestamp e) && (ev_timestamp e <=? end_).

(** [COUNT(DISTINCT user_id)] *)
Definition count_distinct_users (l : list Event) : Z :=
  Z.of_nat (List.length (remove_dups (List.map ev_user_id l))).

Record SummaryRow : Type := mkSummaryRow {
  sr_total_count : Z;
  sr_unique_users : Z;
  sr_device_type : option string;
  sr_device_count : Z
}.

(** One row per distinct [device_type] ([NULL] is a group of its own). *)
Definition group_by_device (l : list Event) : list SummaryRow :=
  List.map
    (fun d =>
       let g := List.filter (fun e => bool_decide (ev_device_type e = d)) l in
       mkSummaryRow (Z.of_nat (List.length g)) (count_distinct_users g) d
         (Z.of_nat (List.length g)))
    (remove_dups (List.map ev_device_type l)).

(** [SELECT COUNT( * ) as total_count, COUNT(DISTINCT user_id) as unique_users,
    device_type, COUNT( * ) as device_count FROM events WHERE ...
    GROUP BY device_type] *)
Definition select_summary (event : string) (appId : option string) (start end_ : Z)
    (s : Store) : list SummaryRow :=
  group_by_device (List.filter (summary_where event appId start end_) (events s)).

(** [SELECT COUNT(DISTINCT user_id) as unique_users_count FROM events WHERE ...]:
    always one row. *)
Definition select_unique_users (event : string) (appId : option string)
    (start end_ : Z) (s : Store) : list Z :=
  [count_distinct_users (List.filter (summary_where event appId start end_) (events s))].

(** [WHERE user_id = ? [AND app_id = ?]] *)
Definition user_where (userId : string) (appId : option string) (e : Event) : bool :=
  str_eqb (ev_user_id e) userId
  && match appId with
     | Some a => str_eqb (ev_app_id e) a
     | None => true
     end.

Record UserGroupRow : Type := mkUserGroupRow {
  ug_total_events : Z;
  ug_first_seen : Z;
  ug_last_seen : Z;
  ug_ip_address : option string
}.

Definition group_by_ip (l : list Event) : list UserGroupRow :=
  flat_map
    (fun ip =>
       match List.map ev_timestamp
               (List.filter (fun e => bool_decide (ev_ip_address e = ip)) l) with
       | [] => []
       | t :: ts =>
           [mkUserGroupRow (Z.of_nat (S (List.length ts))) (min_of t ts) (max_of t ts) ip]
       end)
    (remove_dups (List.map ev_ip_address l)).

(** [SELECT COUNT( * ) as total_events, MIN(timestamp) as first_seen,
    MAX(timestamp) as last_seen, ip_address FROM events WHERE ...
    GROUP BY ip_address ORDER BY last_seen DESC LIMIT 1] *)
Definition select_user_stats (userId : string) (appId : option string) (s : Store)
    : list UserGroupRow :=
  limit 1
    (order_by_desc ug_last_seen
       (group_by_ip (List.filter (user_where userId appId) (events s)))).

Record RecentRow : Type := mkRecentRow {
  rr_event_name : string;
  rr_timestamp : Z;
  rr_properties : option string
}.

(** [SELECT event_name, timestamp, properties FROM events WHERE ...
    ORDER BY timestamp DESC LIMIT 10] *)
Definition select_recent_events (userId : string) (appId : option string) (s : Store)
    : list RecentRow :=
  limit 10
    (order_by_desc rr_timestamp
       (List.map (fun e => mkRecentRow (ev_event_name e) (ev_timestamp e) (ev_properties e))
          (List.filter (user_where userId appId) (events s)))).

(** *** short_urls *)

(** [SELECT id FROM short_urls WHERE slug = ?] and
    [SELECT id, app_id, original_url FROM short_urls WHERE slug = ?] *)
Definition select_short_url (slug : string) (s : Store) : list ShortUrl :=
  List.filter (fun u => str_eqb (su_slug u) slug) (short_urls s).

(** [short_urls]: [id VARCHAR(36)], [app_id VARCHAR(36)], [slug VARCHAR(100)],
    [original_url TEXT]. *)
Definition short_url_fits (id appId slug url : string) : bool :=
  fits 36 id && fits 36 appId && fits 100 slug && fits TEXT url.

(** [INSERT INTO short_urls (id, app_id, slug, original_url) VALUES (?, ?, ?, ?)]:
    rejected by the width of a column, by the primary key, by the unique
    index ([slug]) and by the foreign key. *)
Definition insert_short_url (id appId slug url : string) (now : Z) (s : Store)
    : option Store :=
  if negb (short_url_fits id appId slug url) then None
  else if existsb (fun u => str_eqb (su_id u) id) (short_urls s) then None
  else if existsb (fun u => str_eqb (su_slug u) slug) (short_urls s) then None
  else if negb (has_app appId s) then None
  else Some (mkStore (apps s) (api_keys s) (events s)
               (short_urls s ++ [mkShortUrl id appId slug url 0 now now])).

(** [UPDATE short_urls SET click_count = click_count + 1 WHERE id = ?] *)
Definition bump_click_count (id : string) (now : Z) (s : Store) : Store :=
  mkStore (apps s) (api_keys s) (events s)
    (List.map
       (fun u =>
          if str_eqb (su_id u) id
          then mkShortUrl (su_id u) (su_app_id u) (su_slug u) (su_original_url u)
                 (su_click_count u + 1) (su_created_at u) now
          else u)
       (short_urls s)).

End Sql.

(** ** The world outside the handlers

    The two external systems and the sources of non-determinism are explicit:

    - [store] is the content of the MySQL tables, [txn] the snapshot a
      connection took at [beginTransaction];
    - [db_fault n] says whether the [n]-th call to the database of this world
      throws (connection lost, pool exhausted, ...);
    - [redis] is [None] when [getRedis()] resolves to [null]; otherwise it
      holds the live entries and says whether a read or a write throws;
    - [clock n] is the [n]-th reading of the clock ([Date.now()], [new Date()],
      and [NOW()] of a statement);
    - [entropy d i] is byte [i] of the [d]-th draw of [crypto.randomBytes];
    - [io_log] records every call that left the process, most recent first. *)

Inductive IoOp : Type :=
| IoPool
| IoSql (statement : string)
| IoRedisClient
| IoRedisGet (key : string)
| IoRedisSetEx (key : string) (ttl : option Z) (value : string).

Record Redis : Type := mkRedis {
  contents : gmap string string;
  get_fault : bool;
  set_fault : bool
}.

Record World : Type := mkWorld {
  store : Store;
  txn : option Store;
  db_fault : nat -> bool;
  db_calls : nat;
  redis : option Redis;
  clock : nat -> Z;
  clock_reads : nat;
  entropy : nat -> nat -> Z;
  draws : nat;
  env_CACHE_TTL_SEC : option string;
  io_log : list IoOp
}.

Definition set_store (s : Store) (w : World) : World :=
  mkWorld s (txn w) (db_fault w) (db_calls w) (redis w) (clock w) (clock_reads w)
    (entropy w) (draws w) (env_CACHE_TTL_SEC w) (io_log w).

Definition set_txn (t : option Store) (w : World) : World :=
  mkWorld (store w) t (db_fault w) (db_calls w) (redis w) (clock w) (clock_reads w)
    (entropy w) (draws w) (env_CACHE_TTL_SEC w) (io_log w).

Definition set_redis (r : option Redis) (w : World) : World :=
  mkWorld (store w) (txn w) (db_fault w) (db_calls w) r (clock w) (clock_reads w)
    (entropy w) (draws w) (env_CACHE_TTL_SEC w) (io_log w).

Definition log_io (op : IoOp) (w : World) : World :=
  mkWorld (store w) (txn w) (db_fault w) (db_calls w) (redis w) (clock w) (clock_reads w)
    (entropy w) (draws w) (env_CACHE_TTL_SEC w) (op :: io_log w).

Definition count_db_call (w : World) : World :=
  mkWorld (store w) (txn w) (db_fault w) (S (db_calls w)) (redis w) (clock w)
    (clock_reads w) (entropy w) (draws w) (env_CACHE_TTL_SEC w) (io_log w).

Definition count_clock_read (w : World) : World :=
  mkWorld (store w) (txn w) (db_fault w) (db_calls w) (redis w) (clock w)
    (S (clock_reads w)) (entropy w) (draws w) (env_CACHE_TTL_SEC w) (io_log w).

Definition count_draw (w : World) : World :=
  mkWorld (store w) (txn w) (db_fault w) (db_calls w) (redis w) (clock w)
    (clock_reads w) (entropy w) (S (draws w)) (env_CACHE_TTL_SEC w) (io_log w).

(** ** The monad of the handlers: state and exceptions *)

Inductive Exn : Type :=
| DbError
| SqlError
| CacheError
| SyntaxError
| TypeError.

Inductive Outcome (A : Type) : Type :=
| Ok (a : A)
| Throw (e : Exn).

Arguments Ok {A} a.
Arguments Throw {A} e.

Definition IO (A : Type) : Type := World -> Outcome A * World.

Definition ret {A : Type} (a : A) : IO A := fun w => (Ok a, w).

Definition bind {A B : Type} (c : IO A) (k : A -> IO B) : IO B :=
  fun w =>
    match c w with
    | (Ok a, w') => k a w'
    | (Throw e, w') => (Throw e, w')
    end.

Definition throw {A : Type} (e : Exn) : IO A := fun w => (Throw e, w).

(** [try { c } catch (e) { h e }] *)
Definition try_catch {A : Type} (c : IO A) (h : Exn -> IO A) : IO A :=
  fun w =>
    match c w with
    | (Ok a, w') => (Ok a, w')
    | (Throw e, w') => h e w'
    end.

(** Reading a property that is defined by a getter: the read returns or
    throws, and touches nothing. *)
Definition getter {A : Type} (o : Outcome A) : IO A := fun w => (o, w).

Declare Scope io_scope.
Delimit Scope io_scope with io.
Bind Scope io_scope with IO.

Notation "x <- c ;; k" := (bind c (fun x => k))
  (at level 100, c at next level, k at level 200, right associativity) : io_scope.
Notation "c ;; k" := (bind c (fun _ => k))
  (at level 100, k at level 200, right associativity) : io_scope.

Open Scope io_scope.

(** *** Clock and randomness *)

(** [Date.now()], the time value of [new Date()], [NOW()] *)
Definition clock_read : IO Z :=
  fun w => (Ok (clock w (clock_reads w)), count_clock_read w).

(** [crypto.randomBytes(n)] *)
Definition randomBytes (n : nat) : IO (list Z) :=
  fun w =>
    (Ok (List.map (fun i => entropy w (draws w) i mod 256) (seq 0 n)), count_draw w).

(** *** The database *)

Definition db_call (op : IoOp) : IO unit :=
  fun w =>
    let w' := count_db_call (log_io op w) in
    if db_fault w (db_calls w) then (Throw DbError, w') else (Ok tt, w').

(** [await getPool()] *)
Definition getPool : IO unit := db_call IoPool.

(** [await pool.getConnection()] *)
Definition getConnection : IO unit := db_call IoPool.

(** [await pool.execute(sql, params)]: the statement runs at one reading of
    the clock; [None] is a statement the server rejects. *)
Definition execute {A : Type} (sql : string) (stmt : Z -> Store -> option (A * Store))
    : IO A :=
  db_call (IoSql sql) ;;
  now <- clock_read ;;
  fun w =>
    match stmt now (store w) with
    | Some (a, s') => (Ok a, set_store s' w)
    | None => (Throw SqlError, w)
    end.

Definition select {A : Type} (sql : string) (q : Z -> Store -> A) : IO A :=
  execute sql (fun now s => Some (q now s, s)).

Definition insert_into (sql : string) (ins : Z -> Store -> option Store) : IO unit :=
  execute sql (fun now s => option_map (fun s' => (tt, s')) (ins now s)).

(** [await connection.beginTransaction()] *)
Definition beginTransaction : IO unit :=
  db_call (IoSql "BEGIN") ;;
  fun w => (Ok tt, set_txn (Some (store w)) w).

(** [await connection.commit()] *)
Definition commit : IO unit :=
  db_call (IoSql "COMMIT") ;;
  fun w => (Ok tt, set_txn None w).

(** [await connection.rollback()]: the tables return to the snapshot, also
    when the call itself fails (the server drops an open transaction with its
    connection). *)
Definition rollback : IO unit :=
  fun w =>
    db_call (IoSql "ROLLBACK")
      match txn w with
      | Some s => set_txn None (set_store s w)
      | None => w
      end.

(** *** The cache *)

(** [await getRedis()]: whether a client came back. *)
Definition getRedis : IO bool :=
  fun w => (Ok (bool_decide (is_Some (redis w))), log_io IoRedisClient w).

(** [await redis.get(key)] *)
Definition redis_get (key : string) : IO (option string) :=
  fun w =>
    let w' := log_io (IoRedisGet key) w in
    match redis w with
    | Some r => if get_fault r then (Throw CacheError, w') else (Ok (contents r !! key), w')
    | None => (Throw TypeError, w')
    end.

(** [await redis.setEx(key, ttl, value)]: the server refuses a time-to-live
    that is not a positive integer. *)
Definition redis_setEx (key : string) (ttl : option Z) (value : string) : IO unit :=
  fun w =>
    let w' := log_io (IoRedisSetEx key ttl value) w in
    match redis w, ttl with
    | Some r, Some t =>
        if set_fault r || (t <=? 0) then (Throw CacheError, w')
        else (Ok tt, set_redis (Some (mkRedis (<[key := value]> (contents r))
                                        (get_fault r) (set_fault r))) w')
    | Some _, None => (Throw CacheError, w')
    | None, _ => (Throw TypeError, w')
    end.

(** ** [utils/keygen.js] *)

Module Keygen.

(** [uuidv4()] of the [uuid] package: sixteen random bytes, the version and
    variant bits set, printed in groups of 8-4-4-4-12 hexadecimal digits. *)
Definition uuid_text (bs : list Z) : string :=
  let bs := alter (fun b => Z.lor (Z.land b 15) 64) 6%nat bs in
  let bs := alter (fun b => Z.lor (Z.land b 63) 128) 8%nat bs in
  Encoding.hex (firstn 4 bs) ++ "-" ++
  Encoding.hex (firstn 2 (skipn 4 bs)) ++ "-" ++
  Encoding.hex (firstn 2 (skipn 6 bs)) ++ "-" ++
  Encoding.hex (firstn 2 (skipn 8 bs)) ++ "-" ++
  Encoding.hex (skipn 10 bs).

Definition genId : IO string :=
  bs <- randomBytes 16 ;;
  ret (uuid_text bs).

(** [genApiKey(length = 32)] *)
Definition genApiKey (length : nat) : IO string :=
  bs <- randomBytes length ;;
  ret (Encoding.hex bs).

End Keygen.

(** ** [parseInt(s, 10)]

    Leading white space, an optional sign, then the longest run of decimal
    digits; [None] is [NaN]. *)

Module ParseInt.

Definition digit_value (c : ascii) : option Z :=
  let n := nat_of_ascii c in
  if ((48 <=? n) && (n <=? 57))%nat then Some (Z.of_nat n - 48) else None.

Fixpoint digits_from (acc : Z) (s : string) : Z :=
  match s with
  | String c rest =>
      match digit_value c with
      | Some d => digits_from (10 * acc + d) rest
      | None => acc
      end
  | EmptyString => acc
  end.

Definition unsigned (s : string) : option Z :=
  match s with
  | String c rest =>
      match digit_value c with
      | Some d => Some (digits_from d rest)
      | None => None
      end
  | EmptyString => None
  end.

Definition parseInt10 (s : string) : option Z :=
  match Str.trim_left s with
  | String "-" rest => option_map Z.opp (unsigned rest)
  | String "+" rest => unsigned rest
  | s' => unsigned s'
  end.

End ParseInt.

(** ** Requests and responses *)

Inductive Method : Type := GET | POST | PUT | DELETE.

(** [ip] and [protocol] are what a read of [req.ip] and of [req.protocol]
    gives.  Express defines both as getters that ask [req.app] for the proxy
    setting ([this.app.get('trust proxy fn')]), so a read can throw; the
    other fields are plain properties. *)
Record Request : Type := mkRequest {
  method : Method;
  path : list string;
  headers : gmap string string;
  query : gmap string string;
  body : gmap string JsVal;
  ip : Outcome (option string);
  remoteAddress : option string;
  protocol : Outcome string
}.

(** [req.app] after the authentication middleware. *)
Record AuthContext : Type := mkAuthContext {
  ctx_id : string;
  ctx_apiKeyId : string;
  ctx_name : string
}.

Record MaskedKey : Type := mkMaskedKey {
  mk_id : string;
  mk_api_key : string;
  mk_is_revoked : bool;
  mk_expires_at : option Z;
  mk_created_at : Z;
  mk_revoked_at : option Z;
  mk_app_name : string
}.

Record DeviceCount : Type := mkDeviceCount {
  dc_device_type : string;
  dc_count : Z
}.

Record Summary : Type := mkSummary {
  sum_event_name : string;
  sum_app_id : option string;
  sum_range_start : string;
  sum_range_end : string;
  sum_total_count : Z;
  sum_unique_users : Z;
  sum_device_breakdown : list DeviceCount
}.

(** The [data] of an event-summary response: the object just built, or
    whatever [JSON.parse] made of the cached text. *)
Inductive SummaryData : Type :=
| Computed (s : Summary)
| FromCache (v : JsVal).

Record RecentEvent : Type := mkRecentEvent {
  re_event_name : string;
  re_timestamp : Z;
  re_properties : JsVal
}.

Record UserStats : Type := mkUserStats {
  us_user_id : string;
  us_app_id : option string;
  us_total_events : Z;
  us_first_seen : Z;
  us_last_seen : Z;
  us_ip_address : option string;
  us_recent_events : list RecentEvent
}.

Inductive Body : Type :=
| ErrorBody (error message : string)
| RegisterBody (appId apiKey message : string)
| KeyListBody (data : list MaskedKey)
| MessageBody (message : string)
| RegenerateBody (apiKey message : string)
| CollectBody (eventId message : string)
| SummaryBody (data : SummaryData) (cached : bool)
| UserStatsBody (data : UserStats)
| ShortUrlBody (slug short_url original_url : string)
| RedirectBody (location : string)
| HealthBody (timestamp : string)
| RootBody
| DocsBody.

Record Response : Type := mkResponse {
  status : Z;
  payload : Body
}.

(** [res.status(code).json(body)] *)
Definition json (code : Z) (b : Body) : IO Response := ret (mkResponse code b).

(** Built-ins of the JavaScript runtime that the handlers call and that this
    development does not define. *)
Record Runtime : Type := mkRuntime {
  (** the time value of [new Date(s)]; [None] is an invalid date ([NaN]) *)
  Date_parse : string -> option Z;
  (** [date.toISOString()] at a valid time value *)
  toISOString : Z -> string;
  (** [JSON.parse(text)]; [None] is a thrown [SyntaxError] *)
  JSON_parse : string -> option JsVal;
  (** [JSON.stringify(s)] at a string: [s] quoted and escaped *)
  JSON_quote : string -> string;
  (** [JSON.stringify(result)] at an event summary *)
  JSON_stringify_summary : Summary -> string;
  (** whether [new URL(s)] returns *)
  URL_ok : string -> bool;
  (** [String(v)] at the object or array whose [JSON.stringify] text is
      given: [[object Object]] for a plain object, the elements joined by
      commas for an array *)
  String_object : string -> string
}.

(** [JSON.stringify(v)] *)
Definition JSON_stringify (rt : Runtime) (v : JsVal) : string :=
  match v with
  | JNull => "null"
  | JBool b => if b then "true" else "false"
  | JNum n => Str.of_Z n
  | JStr s => JSON_quote rt s
  | JObj text => text
  end.

(** [String(v)], the conversion that [JSON.parse] applies to an argument
    that is not a string. *)
Definition to_String (rt : Runtime) (v : JsVal) : string :=
  match v with
  | JNull => "null"
  | JBool b => if b then "true" else "false"
  | JNum n => Str.of_Z n
  | JStr s => s
  | JObj text => String_object rt text
  end.

(** The text of a value bound to a string column.  A string is bound as it
    is; the other cases give the text MySQL stores for the value.  How MySQL
    compares a number with a string column is not modelled: the statements
    about identifiers below are about string identifiers. *)
Definition sql_text (v : JsVal) : string :=
  match v with
  | JStr s => s
  | JNum n => Str.of_Z n
  | JBool b => if b then "1" else "0"
  | JObj text => text
  | JNull => ""
  end.

(** [v || null] at a body field. *)
Definition or_null (f : option JsVal) : option string :=
  match f with
  | Some v => if truthy v then Some (sql_text v) else None
  | None => None
  end.

(** [p || null] at a query parameter. *)
Definition param_or_null (p : option string) : option string :=
  match p with
  | Some s => if String.eqb s "" then None else Some s
  | None => None
  end.

(** A body field bound as a parameter, after the handler has found it
    truthy; for a field that holds a string, that string. *)
Definition str_of (f : option JsVal) : string :=
  match f with
  | Some v => sql_text v
  | None => ""
  end.

Definition internal_error (message : string) : IO Response :=
  json 500 (ErrorBody "Internal Server Error" message).

(** ** [middlewares/apiKeyAuth.js] *)

(** The left result is the response the middleware sends itself; the right
    one is [req.app] when it calls [next()]. *)
Definition apiKeyAuth (req : Request) : IO (Response + AuthContext) :=
  let apiKey := headers req !! "x-api-key" in
  if negb (truthy_param apiKey) then
    ret (inl (mkResponse 401
                (ErrorBody "Unauthorized"
                   "API key is required. Please provide x-api-key header.")))
  else
    try_catch
      (getPool ;;
       rows <- select "SELECT ... FROM api_keys ak INNER JOIN apps a"
                 (fun now s => Sql.select_valid_key (default "" apiKey) now s) ;;
       match rows with
       | [] =>
           ret (inl (mkResponse 401
                       (ErrorBody "Unauthorized" "Invalid or revoked API key.")))
       | keyData :: _ =>
           ret (inr (mkAuthContext (Sql.ar_app_id keyData) (Sql.ar_id keyData)
                       (Sql.ar_app_name keyData)))
       end)
      (fun _ =>
         ret (inl (mkResponse 500
                     (ErrorBody "Internal Server Error"
                        "Failed to authenticate API key.")))).

(** The request as the middleware leaves it when it calls [next()].  Its
    assignment [req.app = { id, apiKeyId, name }] replaces the Express
    application that the getters of [req.ip] and [req.protocol] call: the
    object now in [req.app] has no [get] method, so either read throws a
    [TypeError]. *)
Definition app_replaced (req : Request) : Request :=
  mkRequest (method req) (path req) (headers req) (query req) (body req)
    (Throw TypeError) (remoteAddress req) (Throw TypeError).

(** [router.post(path, apiKeyAuth, handler)]: the handler runs on the request
    object that the middleware has written to. *)
Definition protected (req : Request) (handler : Request -> AuthContext -> IO Response)
    : IO Response :=
  r <- apiKeyAuth req ;;
  match r with
  | inl response => ret response
  | inr ctx => handler (app_replaced req) ctx
  end.

(** ** [controllers/auth.controller.js] *)

Definition registerApp (req : Request) : IO Response :=
  try_catch
    (let name := body req !! "name" in
     let description := body req !! "description" in
     if negb (truthy_field name) || negb (is_string name)
        || (String.length (Str.trim (str_of name)) =? 0)%nat
     then
       json 400 (ErrorBody "Bad Request"
                   "Application name is required and must be a non-empty string.")
     else
       getPool ;;
       getConnection ;;
       try_catch
         (beginTransaction ;;
          appId <- Keygen.genId ;;
          insert_into "INSERT INTO apps (id, name, description)"
            (Sql.insert_app appId (Str.trim (str_of name)) (or_null description)) ;;
          apiKeyId <- Keygen.genId ;;
          apiKey <- Keygen.genApiKey 32 ;;
          insert_into "INSERT INTO api_keys (id, app_id, api_key)"
            (Sql.insert_api_key apiKeyId appId apiKey) ;;
          commit ;;
          json 201 (RegisterBody appId apiKey
                      "Application registered successfully. Save your API key securely."))
         (fun error => rollback ;; throw error))
    (fun _ => internal_error "Failed to register application.").

(** The masking of one row of the credential list. *)
Definition mask_key (row : Sql.KeyRow) : MaskedKey :=
  mkMaskedKey (Sql.kr_id row)
    (if Sql.kr_is_revoked row then "REVOKED"
     else "****" ++ Str.slice_last 8 (Sql.kr_api_key row))
    (Sql.kr_is_revoked row) (Sql.kr_expires_at row) (Sql.kr_created_at row)
    (Sql.kr_revoked_at row) (Sql.kr_app_name row).

Definition getApiKey (req : Request) : IO Response :=
  try_catch
    (let app_id := query req !! "app_id" in
     if negb (truthy_param app_id) then
       json 400 (ErrorBody "Bad Request" "app_id query parameter is required.")
     else
       getPool ;;
       rows <- select "SELECT ... FROM api_keys ak INNER JOIN apps a ... ORDER BY ak.created_at DESC"
                 (fun _ s => Sql.select_keys_of_app (default "" app_id) s) ;;
       let maskedKeys := List.map mask_key rows in
       json 200 (KeyListBody maskedKeys))
    (fun _ => internal_error "Failed to retrieve API keys.").

Definition revokeKey (req : Request) : IO Response :=
  try_catch
    (let api_key_id := body req !! "api_key_id" in
     if negb (truthy_field api_key_id) then
       json 400 (ErrorBody "Bad Request" "api_key_id is required.")
     else
       getPool ;;
       affectedRows <- execute "UPDATE api_keys SET is_revoked = TRUE, revoked_at = NOW() WHERE id = ?"
                         (fun now s => Some (Sql.revoke_by_id (str_of api_key_id) now s)) ;;
       if (affectedRows =? 0)%nat then
         json 404 (ErrorBody "Not Found" "API key not found.")
       else
         json 200 (MessageBody "API key revoked successfully."))
    (fun _ => internal_error "Failed to revoke API key.").

Definition regenerateKey (req : Request) : IO Response :=
  try_catch
    (let app_id := body req !! "app_id" in
     if negb (truthy_field app_id) then
       json 400 (ErrorBody "Bad Request" "app_id is required.")
     else
       getPool ;;
       getConnection ;;
       try_catch
         (beginTransaction ;;
          execute "UPDATE api_keys SET is_revoked = TRUE, revoked_at = NOW() WHERE app_id = ? AND is_revoked = FALSE"
            (fun now s => Some (Sql.revoke_active_of_app (str_of app_id) now s)) ;;
          apiKeyId <- Keygen.genId ;;
          apiKey <- Keygen.genApiKey 32 ;;
          insert_into "INSERT INTO api_keys (id, app_id, api_key)"
            (Sql.insert_api_key apiKeyId (str_of app_id) apiKey) ;;
          commit ;;
          json 200 (RegenerateBody apiKey
                      "API key regenerated successfully. Old keys have been revoked."))
         (fun error => rollback ;; throw error))
    (fun _ => internal_error "Failed to regenerate API key.").

(** ** [controllers/analytics.controller.js] *)

(** [parseInt(n, 10)] at a number that holds an integer: its decimal text,
    parsed back ([parseInt_num_id] below: the result is [n] itself). *)
Definition parseInt_num (n : Z) : Z :=
  default 0 (ParseInt.parseInt10 (Str.of_Z n)).

Fixpoint mapM {A B : Type} (f : A -> IO B) (l : list A) : IO (list B) :=
  match l with
  | [] => ret []
  | x :: rest =>
      y <- f x ;;
      ys <- mapM f rest ;;
      ret (y :: ys)
  end.

(** [ctx] is [req.app].  The handler reads [req.ip] after it has drawn the
    id of the event and before its [INSERT]. *)
Definition collectEvent (rt : Runtime) (req : Request) (ctx : AuthContext)
    : IO Response :=
  try_catch
    (let event_name := body req !! "event_name" in
     let user_id := body req !! "user_id" in
     let properties := body req !! "properties" in
     if negb (truthy_field event_name) || negb (is_string event_name)
        || (String.length (Str.trim (str_of event_name)) =? 0)%nat
     then
       json 400 (ErrorBody "Bad Request"
                   "event_name is required and must be a non-empty string.")
     else if negb (truthy_field user_id) || negb (is_string user_id)
             || (String.length (Str.trim (str_of user_id)) =? 0)%nat
     then
       json 400 (ErrorBody "Bad Request"
                   "user_id is required and must be a non-empty string.")
     else
       getPool ;;
       eventId <- Keygen.genId ;;
       address <- getter (ip req) ;;
       let ipAddress :=
         match param_or_null address with
         | Some a => Some a
         | None => param_or_null (remoteAddress req)
         end in
       let userAgent := param_or_null (headers req !! "user-agent") in
       insert_into "INSERT INTO events (...) VALUES (..., NOW())"
         (fun now =>
            Sql.insert_event
              (mkEvent eventId (ctx_id ctx) (ctx_apiKeyId ctx)
                 (Str.trim (str_of event_name)) (Str.trim (str_of user_id))
                 (or_null (body req !! "session_id"))
                 (or_null (body req !! "device_type"))
                 (or_null (body req !! "device_model"))
                 (or_null (body req !! "os_name"))
                 (or_null (body req !! "os_version"))
                 (or_null (body req !! "browser_name"))
                 (or_null (body req !! "browser_version"))
                 ipAddress userAgent
                 (if truthy_field properties
                  then Some (JSON_stringify rt (default JNull properties))
                  else None)
                 now now)) ;;
       json 201 (CollectBody eventId "Event collected successfully."))
    (fun _ => internal_error "Failed to collect event.").

(** [const end = endDate ? new Date(endDate) : new Date();] *)
Definition resolve_end (rt : Runtime) (endDate : option string) : IO (option Z) :=
  if truthy_param endDate then ret (Date_parse rt (default "" endDate))
  else (now <- clock_read ;; ret (Some now)).

(** [const start = startDate ? new Date(startDate)
                             : new Date(Date.now() - 7 * 24 * 60 * 60 * 1000);] *)
Definition resolve_start (rt : Runtime) (startDate : option string) : IO (option Z) :=
  if truthy_param startDate then ret (Date_parse rt (default "" startDate))
  else (now <- clock_read ;; ret (Some (now - 7 * 24 * 60 * 60 * 1000))).

(** The two statements in their order: [end] first, then [start]. *)
Definition resolve_range (rt : Runtime) (req : Request) : IO (option Z * option Z) :=
  end_ <- resolve_end rt (query req !! "endDate") ;;
  start <- resolve_start rt (query req !! "startDate") ;;
  ret (start, end_).

Definition cache_key (rt : Runtime) (event : string) (app_id : option string)
    (start end_ : Z) : string :=
  "event_summary:" ++ event ++ ":" ++ default "all" (param_or_null app_id) ++ ":"
  ++ toISOString rt start ++ ":" ++ toISOString rt end_.

(** [process.env.CACHE_TTL_SEC] *)
Definition getenv_CACHE_TTL_SEC : IO (option string) :=
  fun w => (Ok (env_CACHE_TTL_SEC w), w).

(** The totals and the [result] object, from the rows of the two queries. *)
Definition summary_result (rt : Runtime) (event : string) (app_id : option string)
    (start end_ : Z) (rows : list Sql.SummaryRow) (uniqueRows : list Z) : Summary :=
  let totalCount :=
    fold_left (fun sum row => sum + parseInt_num (Sql.sr_total_count row)) rows 0 in
  let uniqueUsersCount :=
    match uniqueRows with
    | n :: _ => if n =? 0 then 0 else n
    | [] => 0
    end in
  let deviceBreakdown :=
    List.map
      (fun row =>
         mkDeviceCount (default "unknown" (param_or_null (Sql.sr_device_type row)))
           (parseInt_num (Sql.sr_device_count row)))
      rows in
  mkSummary event (param_or_null app_id) (toISOString rt start) (toISOString rt end_)
    totalCount uniqueUsersCount deviceBreakdown.

(** The cache read of [eventSummary]: [try { cached = await redis.get(key);
    if (cached) return JSON.parse(cached) } catch { }]. *)
Definition read_cache (rt : Runtime) (redis : bool) (cacheKey : string)
    : IO (option JsVal) :=
  if redis then
    try_catch
      (cached <- redis_get cacheKey ;;
       match param_or_null cached with
       | Some text =>
           match JSON_parse rt text with
           | Some v => ret (Some v)
           | None => throw SyntaxError
           end
       | None => ret None
       end)
      (fun cacheError => ret None)
  else ret None.

(** The cache write of [eventSummary]. *)
Definition write_cache (rt : Runtime) (redis : bool) (cacheKey : string)
    (result : Summary) : IO unit :=
  if redis then
    try_catch
      (env <- getenv_CACHE_TTL_SEC ;;
       let ttl := ParseInt.parseInt10 (default "300" (param_or_null env)) in
       redis_setEx cacheKey ttl (JSON_stringify_summary rt result))
      (fun cacheError => ret tt)
  else ret tt.

(** What the requests served meanwhile have done to the tables when an
    [await] of this one resumes: every query yields, and no handler holds a
    lock or a transaction across its queries. *)
Definition others_write (between : Store -> Store) : IO unit :=
  fun w => (Ok tt, set_store (between (store w)) w).

(** [eventSummary], with the writes [between] of the other requests that
    land after its first query and before its second.  The response depends
    on the tables through these two queries only, so a write that lands
    earlier or later is a write to the tables the request starts from, or
    one that it does not see. *)
Definition eventSummary_between (between : Store -> Store) (rt : Runtime)
    (req : Request) : IO Response :=
  try_catch
    (let event := query req !! "event" in
     let app_id := query req !! "app_id" in
     if negb (truthy_param event) then
       json 400 (ErrorBody "Bad Request" "event query parameter is required.")
     else
       range <- resolve_range rt req ;;
       match range with
       | (Some start, Some end_) =>
           let cacheKey := cache_key rt (default "" event) app_id start end_ in
           redis <- getRedis ;;
           hit <- read_cache rt redis cacheKey ;;
           match hit with
           | Some v => json 200 (SummaryBody (FromCache v) true)
           | None =>
               getPool ;;
               rows <- select "SELECT COUNT ..., device_type, ... FROM events ... GROUP BY device_type"
                         (fun _ s =>
                            Sql.select_summary (default "" event) (param_or_null app_id)
                              start end_ s) ;;
               others_write between ;;
               uniqueRows <- select "SELECT COUNT(DISTINCT user_id) as unique_users_count FROM events ..."
                               (fun _ s =>
                                  Sql.select_unique_users (default "" event)
                                    (param_or_null app_id) start end_ s) ;;
               let result :=
                 summary_result rt (default "" event) app_id start end_ rows uniqueRows in
               write_cache rt redis cacheKey result ;;
               json 200 (SummaryBody (Computed result) false)
           end
       | _ =>
           json 400 (ErrorBody "Bad Request"
                       "Invalid date format. Use ISO 8601 format (YYYY-MM-DD or YYYY-MM-DDTHH:mm:ss).")
       end)
    (fun _ => internal_error "Failed to retrieve event summary.").

(** [eventSummary] in a run during which no other request writes between
    its two queries. *)
Definition eventSummary (rt : Runtime) (req : Request) : IO Response :=
  eventSummary_between (fun s => s) rt req.

(** [event.properties] of a row of the result: [events.properties] is a
    [JSON] column, and the driver hands the value of such a column over
    parsed, not as its text.  [NULL] arrives as [null]. *)
Definition delivered_properties (rt : Runtime) (stored : option string) : IO JsVal :=
  match stored with
  | Some text =>
      match JSON_parse rt text with
      | Some v => ret v
      | None => throw SyntaxError
      end
  | None => ret JNull
  end.

(** [JSON.parse(v)] at a value that need not be a string. *)
Definition JSON_parse_value (rt : Runtime) (v : JsVal) : option JsVal :=
  JSON_parse rt (to_String rt v).

(** [userStats], with the writes [between] of the other requests that land
    after its first query and before its second. *)
Definition userStats_between (between : Store -> Store) (rt : Runtime) (req : Request)
    : IO Response :=
  try_catch
    (let user_id := query req !! "user_id" in
     let app_id := query req !! "app_id" in
     if negb (truthy_param user_id) then
       json 400 (ErrorBody "Bad Request" "user_id query parameter is required.")
     else
       getPool ;;
       rows <- select "SELECT COUNT ... as total_events, ... GROUP BY ip_address ORDER BY last_seen DESC LIMIT 1"
                 (fun _ s =>
                    Sql.select_user_stats (default "" user_id) (param_or_null app_id) s) ;;
       match rows with
       | [] => json 404 (ErrorBody "Not Found" "No events found for this user.")
       | stats :: _ =>
           others_write between ;;
           recentEvents <- select "SELECT event_name, timestamp, properties FROM events ... ORDER BY timestamp DESC LIMIT 10"
                             (fun _ s =>
                                Sql.select_recent_events (default "" user_id)
                                  (param_or_null app_id) s) ;;
           recent <- mapM
                       (fun event =>
                          properties <- delivered_properties rt (Sql.rr_properties event) ;;
                          if truthy properties then
                            match JSON_parse_value rt properties with
                            | Some v =>
                                ret (mkRecentEvent (Sql.rr_event_name event)
                                       (Sql.rr_timestamp event) v)
                            | None => throw SyntaxError
                            end
                          else
                            ret (mkRecentEvent (Sql.rr_event_name event)
                                   (Sql.rr_timestamp event) JNull))
                       recentEvents ;;
           let result :=
             mkUserStats (default "" user_id) (param_or_null app_id)
               (parseInt_num (Sql.ug_total_events stats))
               (Sql.ug_first_seen stats) (Sql.ug_last_seen stats)
               (Sql.ug_ip_address stats) recent in
           json 200 (UserStatsBody result)
       end)
    (fun _ => internal_error "Failed to retrieve user statistics.").

(** [userStats] in a run during which no other request writes between its
    two queries. *)
Definition userStats (rt : Runtime) (req : Request) : IO Response :=
  userStats_between (fun s => s) rt req.

(** ** [controllers/shorturl.controller.js] *)

(** [ctx] is [req.app].  The answer is built after the [INSERT], and its
    [short_url] reads [req.protocol]. *)
Definition createShortUrl (rt : Runtime) (req : Request) (ctx : AuthContext)
    : IO Response :=
  try_catch
    (let url := body req !! "url" in
     let slug := body req !! "slug" in
     if negb (truthy_field url) || negb (is_string url)
        || (String.length (Str.trim (str_of url)) =? 0)%nat
     then
       json 400 (ErrorBody "Bad Request" "url is required and must be a valid URL string.")
     else if negb (URL_ok rt (str_of url)) then
       json 400 (ErrorBody "Bad Request" "Invalid URL format.")
     else
       getPool ;;
       finalSlug <- (if negb (truthy_field slug) then
                       bytes <- randomBytes 4 ;;
                       ret (Str.substring0 8 (Encoding.base64url bytes))
                     else ret (str_of slug)) ;;
       existing <- select "SELECT id FROM short_urls WHERE slug = ?"
                     (fun _ s => Sql.select_short_url finalSlug s) ;;
       if (0 <? List.length existing)%nat then
         json 409 (ErrorBody "Conflict"
                     "Slug already exists. Please choose a different slug.")
       else
         shortUrlId <- Keygen.genId ;;
         insert_into "INSERT INTO short_urls (id, app_id, slug, original_url)"
           (Sql.insert_short_url shortUrlId (ctx_id ctx) finalSlug
              (Str.trim (str_of url))) ;;
         scheme <- getter (protocol req) ;;
         json 201
           (ShortUrlBody finalSlug
              (scheme ++ "://" ++ default "undefined" (headers req !! "host")
               ++ "/s/" ++ finalSlug)
              (Str.trim (str_of url))))
    (fun _ => internal_error "Failed to create short URL.").

(** The first entry of a comma-separated header, trimmed. *)
Fixpoint before_comma (s : string) : string :=
  match s with
  | String c rest => if Ascii.eqb c "," then "" else String c (before_comma rest)
  | EmptyString => ""
  end.

(** The read of [req.ip] is the guarded one of the source,
    [try { if (req.ip && typeof req.ip === 'string') ipAddress = req.ip }
    catch (e) { }]; the fallbacks follow. *)
Definition redirectShortUrl (rt : Runtime) (slug : string) (req : Request)
    : IO Response :=
  try_catch
    (getPool ;;
     rows <- select "SELECT id, app_id, original_url FROM short_urls WHERE slug = ?"
               (fun _ s => Sql.select_short_url slug s) ;;
     match rows with
     | [] => json 404 (ErrorBody "Not Found" "Short URL not found.")
     | shortUrl :: _ =>
         execute "UPDATE short_urls SET click_count = click_count + 1 WHERE id = ?"
           (fun now s => Some (tt, Sql.bump_click_count (su_id shortUrl) now s)) ;;
         apiKeys <- select "SELECT id FROM api_keys WHERE app_id = ? AND is_revoked = FALSE LIMIT 1"
                      (fun _ s => Sql.select_active_key_id (su_app_id shortUrl) s) ;;
         match apiKeys with
         | keyId :: _ =>
             eventId <- Keygen.genId ;;
             address <- try_catch (getter (ip req)) (fun _ => ret None) ;;
             let ipAddress :=
               match param_or_null address with
               | Some a => Some a
               | None =>
                   match param_or_null
                           (option_map (fun h => Str.trim (before_comma h))
                              (headers req !! "x-forwarded-for")) with
                   | Some a => Some a
                   | None =>
                       match param_or_null (headers req !! "x-real-ip") with
                       | Some a => Some a
                       | None => param_or_null (remoteAddress req)
                       end
                   end
               end in
             let userAgent := param_or_null (headers req !! "user-agent") in
             insert_into "INSERT INTO events (...) VALUES (..., NOW())"
               (fun now =>
                  Sql.insert_event
                    (mkEvent eventId (su_app_id shortUrl) keyId "short_url_click"
                       ("anonymous_" ++ default "null" ipAddress)
                       None None None None None None None
                       ipAddress userAgent
                       (Some (JSON_stringify rt
                                (JObj ("{" ++ JSON_quote rt "slug" ++ ":"
                                       ++ JSON_quote rt slug ++ ","
                                       ++ JSON_quote rt "short_url_id" ++ ":"
                                       ++ JSON_quote rt (su_id shortUrl) ++ "}"))))
                       now now))
         | [] => ret tt
         end ;;
         ret (mkResponse 302 (RedirectBody (su_original_url shortUrl)))
     end)
    (fun _ => internal_error "Failed to redirect short URL.").

(** ** Routing: [routes/*.js] and [index.js]

    A path is its list of segments.  The middleware in front of the routes
    (security headers, CORS, body parsing, the rate limiter) passes every
    request on; the limiter's own 429 is outside this model.  A router that
    matches nothing hands the request to the next one, as [app.use] does. *)

#[global] Instance Method_eq_dec : EqDecision Method.
Proof. solve_decision. Defined.

(** [router.METHOD(path, handler)] with a fixed path. *)
Definition route (m : Method) (pattern : list string) (handler : IO Response)
    (req : Request) (sub : list string) : option (IO Response) :=
  if bool_decide (method req = m /\ sub = pattern) then Some handler else None.

(** The first route, or router, that takes the request. *)
Fixpoint first_match (l : list (option (IO Response))) : option (IO Response) :=
  match l with
  | [] => None
  | Some handler :: _ => Some handler
  | None :: rest => first_match rest
  end.

(** [routes/auth.routes.js] *)
Definition auth_routes (req : Request) (sub : list string) : option (IO Response) :=
  first_match
    [ route POST ["register"] (registerApp req) req sub;
      route GET ["api-key"] (getApiKey req) req sub;
      route POST ["revoke"] (revokeKey req) req sub;
      route POST ["regenerate"] (regenerateKey req) req sub ].

(** [routes/analytics.routes.js].  Its last line,
    [// router.get('/user-stats', userStats);], is a comment: the router has
    two routes. *)
Definition analytics_routes (rt : Runtime) (req : Request) (sub : list string)
    : option (IO Response) :=
  first_match
    [ route POST ["collect"] (protected req (collectEvent rt)) req sub;
      route GET ["event-summary"] (eventSummary rt req) req sub ].

(** [routes/shorturl.routes.js]; the second route is [/:slug]. *)
Definition shorturl_routes (rt : Runtime) (req : Request) (sub : list string)
    : option (IO Response) :=
  first_match
    [ route POST ["shorten"] (protected req (createShortUrl rt)) req sub;
      match sub with
      | [slug] => route GET [slug] (redirectShortUrl rt slug req) req sub
      | _ => None
      end ].

Definition health (rt : Runtime) : IO Response :=
  now <- clock_read ;;
  json 200 (HealthBody (toISOString rt now)).

(** [app.use(prefix, router)] *)
Definition mounted (prefix : list string) (router : list string -> option (IO Response))
    (p : list string) : option (IO Response) :=
  if bool_decide (firstn (List.length prefix) p = prefix)
  then router (skipn (List.length prefix) p)
  else None.

Definition method_name (m : Method) : string :=
  match m with
  | GET => "GET"
  | POST => "POST"
  | PUT => "PUT"
  | DELETE => "DELETE"
  end.

(** [req.path] *)
Definition path_text (p : list string) : string :=
  match p with
  | [] => "/"
  | _ => foldr (fun seg acc => "/" ++ seg ++ acc) "" p
  end.

(** The handler after the last route. *)
Definition not_found (req : Request) : IO Response :=
  json 404 (ErrorBody "Not Found"
              ("Route " ++ method_name (method req) ++ " " ++ path_text (path req)
               ++ " not found")).

(** [index.js], in the order of its [app.get] and [app.use] calls, with the
    default [API_PREFIX]; the documentation pages stand for the Swagger
    middleware. *)
Definition app (rt : Runtime) (req : Request) : IO Response :=
  let p := path req in
  match first_match
          [ route GET ["health"] (health rt) req p;
            mounted ["api"; "auth"] (auth_routes req) p;
            mounted ["api"; "analytics"] (analytics_routes rt req) p;
            mounted ["api"] (shorturl_routes rt req) p;
            mounted ["s"] (shorturl_routes rt req) p;
            route GET [] (json 200 RootBody) req p;
            mounted ["docs"] (fun _ => Some (json 200 DocsBody)) p;
            route GET ["docs.json"] (json 200 DocsBody) req p ] with
  | Some handler => handler
  | None => not_found req
  end.

(** ** [config/db.js]: the connection pool *)

Module Db.

(** The options of [mysql.createPool] that come from the environment. *)
Record PoolConfig : Type := mkPoolConfig {
  host : string;
  port : option Z;
  user : string;
  password : string;
  database : string
}.

(** A pool: its configuration, and whether [getPool] has attached its
    ['error'] handler to it. *)
Record Pool : Type := mkPool {
  config : PoolConfig;
  has_error_handler : bool
}.

(** [process.env.NAME || fallback] *)
Definition env_or (env : gmap string string) (name fallback : string) : string :=
  default fallback (param_or_null (env !! name)).

Definition pool_config (env : gmap string string) : PoolConfig :=
  mkPoolConfig (env_or env "MYSQL_HOST" "localhost")
    (ParseInt.parseInt10 (env_or env "MYSQL_PORT" "3306"))
    (env_or env "MYSQL_USER" "root")
    (env_or env "MYSQL_PASSWORD" "")
    (env_or env "MYSQL_DATABASE" "analytics_db").

(** [getPool()] on the module variable [pool].  [connects] says whether the
    test [pool.getConnection()] resolves; the variable is assigned before
    the test, the handler is attached after it. *)
Definition getPool (env : gmap string string) (connects : bool) (pool : option Pool)
    : Outcome Pool * option Pool :=
  match pool with
  | Some p => (Ok p, pool)
  | None =>
      let p := mkPool (pool_config env) false in
      if connects
      then (Ok (mkPool (config p) true), Some (mkPool (config p) true))
      else (Throw DbError, Some p)
  end.

(** The ['error'] handler that [getPool] attaches: a lost connection resets
    the module variable. *)
Definition on_error (connection_lost : bool) (pool : option Pool) : option Pool :=
  match pool with
  | Some p => if has_error_handler p && connection_lost then None else pool
  | None => None
  end.

(** [closePool()]; [ends] says whether [pool.end()] resolves. *)
Definition closePool (ends : bool) (pool : option Pool) : Outcome unit * option Pool :=
  match pool with
  | Some _ => if ends then (Ok tt, None) else (Throw DbError, pool)
  | None => (Ok tt, None)
  end.

(** The results of a sequence of [getPool()] calls, each with the
    environment of the moment and the outcome of its test connection. *)
Fixpoint calls (l : list (gmap string string * bool)) (pool : option Pool)
    : list (Outcome Pool) :=
  match l with
  | [] => []
  | (env, connects) :: rest =>
      let (r, pool') := getPool env connects pool in
      r :: calls rest pool'
  end.

End Db.

(** ** [config/redis.js]: the cache client *)

Module RedisConfig.

(** What [reconnectStrategy] returns: a delay in milliseconds, or the
    [Error] that ends the reconnection. *)
Inductive Reconnect : Type :=
| Delay (ms : Z)
| GiveUp.

Definition reconnectStrategy (retries : Z) : Reconnect :=
  if 10 <? retries then GiveUp else Delay (Z.min (retries * 100) 3000).

Record Client : Type := mkClient {
  client_url : string;
  isOpen : bool
}.

(** What happens inside the [try] of [getRedis]: [createClient] throws,
    [connect()] rejects, or the client connects. *)
Inductive Attempt : Type :=
| CreateThrows
| ConnectRejects
| Connects.

(** [getRedis()] on the module variable [redisClient]; [url] is
    [process.env.UPSTASH_REDIS_URL]. *)
Definition getRedis (url : option string) (attempt : Attempt) (redisClient : option Client)
    : Outcome (option Client) * option Client :=
  if match redisClient with
     | Some c => isOpen c
     | None => false
     end
  then (Ok redisClient, redisClient)
  else if negb (truthy_param url) then (Ok None, redisClient)
  else
    match attempt with
    | CreateThrows => (Ok None, redisClient)
    | ConnectRejects => (Ok None, Some (mkClient (default "" url) false))
    | Connects =>
        (Ok (Some (mkClient (default "" url) true)), Some (mkClient (default "" url) true))
    end.

(** [closeRedis()]; [quits] says whether [redisClient.quit()] resolves. *)
Definition closeRedis (quits : bool) (redisClient : option Client)
    : Outcome unit * option Client :=
  match redisClient with
  | Some c =>
      if isOpen c
      then if quits then (Ok tt, None) else (Throw CacheError, redisClient)
      else (Ok tt, redisClient)
  | None => (Ok tt, None)
  end.

End RedisConfig.

(** ** Vocabulary of the statements *)

(** Every call to the database succeeds. *)
Definition db_ok (w : World) : Prop := forall n, db_fault w n = false.

(** What the cache read of [eventSummary] finds under a key: nothing when
    there is no client, when the read throws, when the entry is absent or
    empty, or when its text does not parse. *)
Definition cache_lookup (rt : Runtime) (key : string) (w : World) : option JsVal :=
  match redis w with
  | Some r =>
      if get_fault r then None
      else match param_or_null (contents r !! key) with
           | Some text => JSON_parse rt text
           | None => None
           end
  | None => None
  end.

(** The events an event-summary request selects. *)
Definition summary_events (req : Request) (start end_ : Z) (s : Store) : list Event :=
  List.filter
    (Sql.summary_where (default "" (query req !! "event"))
       (param_or_null (query req !! "app_id")) start end_)
    (events s).

(** The summary computed from the tables [s] for a request and a range. *)
Definition fresh_summary (rt : Runtime) (req : Request) (start end_ : Z) (s : Store)
    : Summary :=
  summary_result rt (default "" (query req !! "event")) (query req !! "app_id")
    start end_
    (Sql.select_summary (default "" (query req !! "event"))
       (param_or_null (query req !! "app_id")) start end_ s)
    (Sql.select_unique_users (default "" (query req !! "event"))
       (param_or_null (query req !! "app_id")) start end_ s).

(** The events a user-stats request selects. *)
Definition user_events (req : Request) (s : Store) : list Event :=
  List.filter
    (Sql.user_where (default "" (query req !! "user_id"))
       (param_or_null (query req !! "app_id")))
    (events s).



(** The constraints of [schema.sql] on [apps] and [api_keys], and the shape
    of the secrets that [genApiKey] issues: application ids are unique,
    every credential belongs to an application, a secret has 64
    characters. *)
Definition store_wf (s : Store) : Prop :=
  NoDup (List.map app_id (apps s))
  /\ Forall (fun k => key_app_id k ∈ List.map app_id (apps s)) (api_keys s)
  /\ Forall (fun k => String.length (key_api_key k) = 64%nat) (api_keys s).

#[global] Instance store_wf_dec (s : Store) : Decision (store_wf s).
Proof. unfold store_wf. apply _. Defined.

(** The response of a handler, which never throws. *)
Definition response_of (c : IO Response) (w : World) : option Response :=
  match c w with
  | (Ok r, _) => Some r
  | (Throw _, _) => None
  end.

Definition world_after {A : Type} (c : IO A) (w : World) : World := snd (c w).

(** A string that starts with a decimal digit. *)
Definition starts_with_digit (s : string) : Prop :=
  exists d rest, 0 <= d < 10 /\ s = String (Str.digit d) rest.

(** Rows in descending order of a key. *)
Definition descending {A : Type} (key : A -> Z) : A -> A -> Prop :=
  fun a b => key b <= key a.

Definition Zsum (l : list Z) : Z := foldr Z.add 0 l.

(** The number of rows of the group with key [k]. *)
Definition group_size {A K : Type} `{EqDecision K} (key : A -> K) (l : list A) (k : K)
    : Z :=
  Z.of_nat (List.length (List.filter (fun x => bool_decide (key x = k)) l)).

(** Two worlds with the same tables, cache, fault oracle and environment;
    counters, clock position and log may differ. *)
Definition same_services (w w' : World) : Prop :=
  store w' = store w /\ redis w' = redis w /\ db_fault w' = db_fault w
  /\ env_CACHE_TTL_SEC w' = env_CACHE_TTL_SEC w.

(** Nothing left the process between two worlds. *)
Definition no_io_between (w w' : World) : Prop :=
  io_log w' = io_log w /\ db_calls w' = db_calls w /\ store w' = store w
  /\ redis w' = redis w.

(** The range a request resolves to in a world. *)
Definition resolved_range (rt : Runtime) (req : Request) (w : World)
    : option Z * option Z :=
  match resolve_range rt req w with
  | (Ok r, _) => r
  | (Throw _, _) => (None, None)
  end.

(** The cache key of a request whose range is [start .. end_]. *)
Definition request_key (rt : Runtime) (req : Request) (start end_ : Z) : string :=
  cache_key rt (default "" (query req !! "event")) (query req !! "app_id") start end_.

(** The response of [eventSummary], read off the request and the world: the
    three database calls of the handler are calls number [db_calls w],
    [db_calls w + 1] and [db_calls w + 2] of the world. *)
Definition eventSummary_response (rt : Runtime) (req : Request) (w : World) : Response :=
  if negb (truthy_param (query req !! "event")) then
    mkResponse 400 (ErrorBody "Bad Request" "event query parameter is required.")
  else
    match resolved_range rt req w with
    | (Some start, Some end_) =>
        match cache_lookup rt (request_key rt req start end_) w with
        | Some v => mkResponse 200 (SummaryBody (FromCache v) true)
        | None =>
            if db_fault w (db_calls w) || db_fault w (S (db_calls w))
               || db_fault w (S (S (db_calls w)))
            then mkResponse 500
                   (ErrorBody "Internal Server Error" "Failed to retrieve event summary.")
            else mkResponse 200
                   (SummaryBody (Computed (fresh_summary rt req start end_ (store w)))
                      false)
        end
    | _ =>
        mkResponse 400
          (ErrorBody "Bad Request"
             "Invalid date format. Use ISO 8601 format (YYYY-MM-DD or YYYY-MM-DDTHH:mm:ss).")
    end.

(** The summary built from the rows of the two queries of [eventSummary]
    when the first reads the tables [s1] and the second the tables [s2]. *)
Definition summary_of_reads (rt : Runtime) (req : Request) (start end_ : Z)
    (s1 s2 : Store) : Summary :=
  summary_result rt (default "" (query req !! "event")) (query req !! "app_id")
    start end_
    (Sql.select_summary (default "" (query req !! "event"))
       (param_or_null (query req !! "app_id")) start end_ s1)
    (Sql.select_unique_users (default "" (query req !! "event"))
       (param_or_null (query req !! "app_id")) start end_ s2).

(** The response of [eventSummary_between], read off the request, the world
    and the writes that land between the two queries. *)
Definition eventSummary_between_response (between : Store -> Store) (rt : Runtime)
    (req : Request) (w : World) : Response :=
  if negb (truthy_param (query req !! "event")) then
    mkResponse 400 (ErrorBody "Bad Request" "event query parameter is required.")
  else
    match resolved_range rt req w with
    | (Some start, Some end_) =>
        match cache_lookup rt (request_key rt req start end_) w with
        | Some v => mkResponse 200 (SummaryBody (FromCache v) true)
        | None =>
            if db_fault w (db_calls w) || db_fault w (S (db_calls w))
               || db_fault w (S (S (db_calls w)))
            then mkResponse 500
                   (ErrorBody "Internal Server Error" "Failed to retrieve event summary.")
            else mkResponse 200
                   (SummaryBody
                      (Computed
                         (summary_of_reads rt req start end_ (store w) (between (store w))))
                      false)
        end
    | _ =>
        mkResponse 400
          (ErrorBody "Bad Request"
             "Invalid date format. Use ISO 8601 format (YYYY-MM-DD or YYYY-MM-DDTHH:mm:ss).")
    end.

(** The sentence of the specification on the totals, read literally: in
    every computed summary, whatever the other requests write while the
    handler waits for its queries. *)
Definition totals_always_consistent : Prop :=
  forall (between : Store -> Store) (rt : Runtime) (req : Request) (w : World)
         (resp : Response) (s : Summary) (c : bool),
    response_of (eventSummary_between between rt req) w = Some resp ->
    payload resp = SummaryBody (Computed s) c ->
    sum_unique_users s <= sum_total_count s
    /\ sum_total_count s = Zsum (List.map dc_count (sum_device_breakdown s)).

(** The request with another body. *)
Definition set_body (b : gmap string JsVal) (req : Request) : Request :=
  mkRequest (method req) (path req) (headers req) (query req) b (ip req)
    (remoteAddress req) (protocol req).

(** The sentence of the specification on invalid dates, read literally:
    every supplied [startDate] or [endDate] string that is not a valid date
    is answered with a bad-request error before any I/O. *)
Definition invalid_date_strings_rejected : Prop :=
  forall (rt : Runtime) (req : Request) (w : World) (s : string),
    query req !! "startDate" = Some s \/ query req !! "endDate" = Some s ->
    Date_parse rt s = None ->
    exists message w',
      eventSummary rt req w = (Ok (mkResponse 400 (ErrorBody "Bad Request" message)), w')
      /\ no_io_between w w'.

(** The sentence of the specification on the event timestamp, read
    literally: a timestamp in the request body is the one persisted.  The
    client's instant is the time value of the string it sent. *)
Definition client_timestamp_persisted : Prop :=
  forall (rt : Runtime) (req : Request) (ctx : AuthContext) (w : World) (text : string)
         (t : Z) (resp : Response) (w' : World),
    body req !! "timestamp" = Some (JStr text) ->
    Date_parse rt text = Some t ->
    collectEvent rt req ctx w = (Ok resp, w') ->
    status resp = 201 ->
    exists e, events (store w') = (events (store w) ++ [e])%list /\ ev_timestamp e = t.

(** The bytes that the next call of [crypto.randomBytes(n)] returns. *)
Definition next_bytes (n : nat) (w : World) : list Z :=
  List.map (fun i => entropy w (draws w) i mod 256) (seq 0 n).

(** A credential of application [a] that is not revoked. *)
Definition active_of (a : string) (k : ApiKey) : bool :=
  Sql.str_eqb (key_app_id k) a && negb (key_is_revoked k).


(** The invariant of the credential tables: the tables satisfy [store_wf],
    and so does the snapshot of an open transaction. *)
Definition schema_inv (w : World) : Prop :=
  store_wf (store w) /\ forall s, txn w = Some s -> store_wf s.

(** [c] keeps the invariant [I], whether it returns or throws, and returns
    only values that satisfy [Q]. *)
Definition keeps {A : Type} (I : World -> Prop) (c : IO A) (Q : A -> Prop) : Prop :=
  forall w,
    I w ->
    match c w with
    | (Ok a, w') => I w' /\ Q a
    | (Throw _, w') => I w'
    end.

(** A route keeps the schema invariant when the handler it selects, if any,
    does. *)
Definition safe_route (o : option (IO Response)) : Prop :=
  forall c, o = Some c -> keeps schema_inv c (fun _ => True).

(** The world after a sequence of requests, served one after the other. *)
Fixpoint serve (rt : Runtime) (reqs : list Request) (w : World) : World :=
  match reqs with
  | [] => w
  | req :: rest => serve rt rest (world_after (app rt req) w)
  end.

(** What [userStats] reports for the stored [properties] of a row: [null]
    for [NULL] and for a delivered value that is falsy, what [JSON.parse]
    makes of a truthy delivered value, and nothing when the delivery or that
    parse throws. *)
Definition reported_properties (rt : Runtime) (stored : option string) : option JsVal :=
  match stored with
  | Some text =>
      match JSON_parse rt text with
      | Some v => if truthy v then JSON_parse_value rt v else Some JNull
      | None => None
      end
  | None => Some JNull
  end.

(** The entry of [recent_events] for a row whose [properties] are reported. *)
Definition recent_entry (rt : Runtime) (r : Sql.RecentRow) : RecentEvent :=
  mkRecentEvent (Sql.rr_event_name r) (Sql.rr_timestamp r)
    (default JNull (reported_properties rt (Sql.rr_properties r))).

(** The [properties] of an event do not make [userStats] throw. *)
Definition properties_readable (rt : Runtime) (e : Event) : Prop :=
  reported_properties rt (ev_properties e) <> None.

(** ** Vocabulary of the further statements *)

(** A lower-case hexadecimal digit. *)
Definition is_hex_char (c : ascii) : bool :=
  let n := nat_of_ascii c in
  ((48 <=? n) && (n <=? 57) || (97 <=? n) && (n <=? 102))%nat.

(** A credential row that the authentication query selects for a secret at
    the instant [now]. *)
Definition valid_key_row (apiKey : string) (now : Z) (k : ApiKey) : bool :=
  Sql.str_eqb (key_api_key k) apiKey && negb (key_is_revoked k) && Sql.not_expired now k.

(** The three responses that [apiKeyAuth] sends itself. *)
Definition unauthorized_missing : Response :=
  mkResponse 401
    (ErrorBody "Unauthorized" "API key is required. Please provide x-api-key header.").

Definition unauthorized_invalid : Response :=
  mkResponse 401 (ErrorBody "Unauthorized" "Invalid or revoked API key.").

Definition auth_failed : Response :=
  mkResponse 500 (ErrorBody "Internal Server Error" "Failed to authenticate API key.").

(** [req.app] for a row of the authentication query. *)
Definition context_of (row : Sql.AuthRow) : AuthContext :=
  mkAuthContext (Sql.ar_app_id row) (Sql.ar_id row) (Sql.ar_app_name row).

(** A request that presents a secret in its [x-api-key] header. *)
Definition presents (apiKey : string) (req : Request) : Prop :=
  headers req !! "x-api-key" = Some apiKey /\ apiKey <> "".

(** The body fields that [collectEvent] destructures. *)
Definition collect_fields : list string :=
  ["event_name"; "user_id"; "session_id"; "device_type"; "device_model"; "os_name";
   "os_version"; "browser_name"; "browser_version"; "properties"].

(** The routes behind [apiKeyAuth]. *)
Definition protected_path (p : list string) : Prop :=
  p = ["api"; "analytics"; "collect"] \/ p = ["api"; "shorten"] \/ p = ["s"; "shorten"].

(** The events of a list that came from the address [ip]. *)
Definition from_address (ip : option string) (l : list Event) : list Event :=
  List.filter (fun e => bool_decide (ev_ip_address e = ip)) l.

(** The rows of the second query of [userStats]: the ten most recent events
    of the user. *)
Definition recent_rows (req : Request) (s : Store) : list Sql.RecentRow :=
  Sql.select_recent_events (default "" (query req !! "user_id"))
    (param_or_null (query req !! "app_id")) s.

(** The handler does not throw on the [properties] of a row. *)
Definition row_readable (rt : Runtime) (r : Sql.RecentRow) : bool :=
  bool_decide (is_Some (reported_properties rt (Sql.rr_properties r))).

Definition user_stats_failed : Response :=
  mkResponse 500 (ErrorBody "Internal Server Error" "Failed to retrieve user statistics.").

(** The response of [userStats_between], read off the request, the world
    and the writes that land between the two queries: the three database
    calls of the handler are calls number [db_calls w], [db_calls w + 1] and
    [db_calls w + 2] of the world. *)
Definition userStats_response (between : Store -> Store) (rt : Runtime) (req : Request)
    (w : World) : Response :=
  if negb (truthy_param (query req !! "user_id")) then
    mkResponse 400 (ErrorBody "Bad Request" "user_id query parameter is required.")
  else if db_fault w (db_calls w) || db_fault w (S (db_calls w)) then user_stats_failed
  else
    match Sql.select_user_stats (default "" (query req !! "user_id"))
            (param_or_null (query req !! "app_id")) (store w) with
    | [] => mkResponse 404 (ErrorBody "Not Found" "No events found for this user.")
    | stats :: _ =>
        if db_fault w (S (S (db_calls w))) then user_stats_failed
        else if forallb (row_readable rt) (recent_rows req (between (store w))) then
          mkResponse 200
            (UserStatsBody
               (mkUserStats (default "" (query req !! "user_id"))
                  (param_or_null (query req !! "app_id"))
                  (parseInt_num (Sql.ug_total_events stats))
                  (Sql.ug_first_seen stats) (Sql.ug_last_seen stats)
                  (Sql.ug_ip_address stats)
                  (List.map (recent_entry rt) (recent_rows req (between (store w))))))
        else user_stats_failed
    end.

(** The slug that [createShortUrl] uses: the one of the body, or the text of
    four random bytes. *)
Definition final_slug (req : Request) (w : World) : string :=
  if truthy_field (body req !! "slug") then str_of (body req !! "slug")
  else Str.substring0 8 (Encoding.base64url (next_bytes 4 w)).

(** A short-link row after one more click at the instant [now]. *)
Definition clicked (now : Z) (u : ShortUrl) : ShortUrl :=
  mkShortUrl (su_id u) (su_app_id u) (su_slug u) (su_original_url u) (su_click_count u + 1)
    (su_created_at u) now.

(** ** A sample deployment, for the examples *)

(** A runtime for the examples: it knows two dates, prints an instant as
    [T] followed by its milliseconds, parses every non-empty text, quotes
    with apostrophes and accepts the URLs that start with [http].  On the
    strings of the examples its answers to [Date_parse] and [URL_ok] are
    those of JavaScript. *)
Definition sample_rt : Runtime :=
  mkRuntime
    (fun s => if String.eqb s "2024-01-01" then Some 1704067200000
              else if String.eqb s "2024-01-31" then Some 1706659200000
              else None)
    (fun t => "T" ++ Str.of_Z t)
    (fun text => if String.eqb text "" then None else Some (JObj text))
    (fun s => "'" ++ s ++ "'")
    (fun r => "summary:" ++ sum_event_name r ++ ":" ++ Str.of_Z (sum_total_count r))
    (fun s => String.prefix "http" s)
    (fun _ => "[object Object]").

Definition sample_event (id user ip : string) (dev : option string) (ts : Z) : Event :=
  mkEvent id "app-1" "key-1" "page_view" user None dev None None None None None
    (Some ip) None None ts ts.

Definition sample_secret : string :=
  "0123456789abcdef0123456789abcdef0123456789abcdef0123456789abcdef".

(** One application with one active credential; user [u1] has two events,
    sent from two addresses, user [u2] has one. *)
Definition sample_store : Store :=
  mkStore [mkApp "app-1" "Demo" None 1000 1000]
    [mkApiKey "key-1" "app-1" sample_secret false None 1000 None]
    [sample_event "e1" "u1" "10.0.0.1" (Some "mobile") 1704090000000;
     sample_event "e2" "u1" "10.0.0.2" (Some "desktop") 1704095000000;
     sample_event "e3" "u2" "10.0.0.3" None 1704096000000]
    [].

(** Readings of the clock from 2024-01-01T09:06:40Z on, a millisecond
    apart. *)
Definition sample_clock (n : nat) : Z :=
  match n with
  | 0%nat => 1704100000000
  | 1%nat => 1704100000001
  | 2%nat => 1704100000002
  | 3%nat => 1704100000003
  | _ => 1704100000004
  end.

(** A world where nothing fails. *)
Definition sample_world (s : Store) (r : option Redis) : World :=
  mkWorld s None (fun _ => false) 0 r sample_clock 0
    (fun d i => Z.of_nat (d + i)) 0 None [].

Definition sample_get (p : list string) (q : gmap string string) : Request :=
  mkRequest GET p ∅ q ∅ (Ok None) None (Ok "http").

Definition sample_post (p : list string) (h : gmap string string)
    (b : gmap string JsVal) : Request :=
  mkRequest POST p h ∅ b (Ok None) None (Ok "http").

Definition sample_w : World := sample_world sample_store None.

(** [GET /api/analytics/event-summary?event=page_view] *)
Definition page_view_summary : Request :=
  sample_get ["api"; "analytics"; "event-summary"] {[ "event" := "page_view" ]}.


(** [GET /api/analytics/event-summary?event=page_view&endDate=next%20tuesday] *)
Definition summary_bad_endDate : Request :=
  sample_get ["api"; "analytics"; "event-summary"]
    (<[ "endDate" := "next tuesday" ]> {[ "event" := "page_view" ]}).

(** [GET /api/analytics/event-summary?event=page_view&startDate=] *)
Definition summary_empty_startDate : Request :=
  sample_get ["api"; "analytics"; "event-summary"]
    (<[ "startDate" := "" ]> {[ "event" := "page_view" ]}).

(** A cache whose reads and writes both throw. *)
Definition failing_cache : Redis := mkRedis {[ "stale" := "x" ]} true true.

(** [req.app] for the credential of the sample store. *)
Definition sample_ctx : AuthContext := mkAuthContext "app-1" "key-1" "Demo".

(** [POST /api/analytics/collect] with [event_name] and [user_id]. *)
Definition collect_plain : Request :=
  sample_post ["api"; "analytics"; "collect"] {[ "x-api-key" := sample_secret ]}
    (<[ "user_id" := JStr "u9" ]> {[ "event_name" := JStr "page_view" ]}).

(** The same request with [timestamp: "2024-01-01"] in its body. *)
Definition collect_with_timestamp : Request :=
  set_body (<[ "timestamp" := JStr "2024-01-01" ]> (body collect_plain)) collect_plain.

(** A store whose only credential is already revoked. *)
Definition revoked_key : ApiKey :=
  mkApiKey "key-0" "app-1" sample_secret true None 500 (Some 900).

Definition revoked_store : Store := mkStore (apps sample_store) [revoked_key] [] [].

(** [POST /api/auth/revoke] with [api_key_id: "key-0"] *)
Definition revoke_request : Request :=
  sample_post ["api"; "auth"; "revoke"] ∅ {[ "api_key_id" := JStr "key-0" ]}.

(** [POST /api/auth/regenerate] with [app_id: "app-1"] *)
Definition regenerate_request : Request :=
  sample_post ["api"; "auth"; "regenerate"] ∅ {[ "app_id" := JStr "app-1" ]}.

(** The secret that the sample random source yields at that call. *)
Definition regenerated_secret : string :=
  "0102030405060708090a0b0c0d0e0f101112131415161718191a1b1c1d1e1f20".

(** A protected request that presents the regenerated secret. *)
Definition request_with_new_secret : Request :=
  sample_post ["api"; "analytics"; "collect"] {[ "x-api-key" := regenerated_secret ]} ∅.


(** [GET /api/analytics/user-stats?user_id=u1] *)
Definition user_stats_request : Request :=
  sample_get ["api"; "analytics"; "user-stats"] {[ "user_id" := "u1" ]}.

(** [POST /api/shorten] with a URL and no slug. *)
Definition shorten_request : Request :=
  sample_post ["api"; "shorten"] {[ "x-api-key" := sample_secret ]}
    {[ "url" := JStr "https://example.com/very/long/url" ]}.

(** ** Further samples *)

(** The sample world, except that call number [n] to the database fails. *)
Definition failing_world (n : nat) : World :=
  mkWorld sample_store None (fun m => bool_decide (m = n)) 0 None sample_clock 0
    (fun d i => Z.of_nat (d + i)) 0 None [].

(** A world whose database fails at every call, with a cache. *)
Definition failing_world_with_cache (r : Redis) : World :=
  mkWorld sample_store None (fun _ => true) 0 (Some r) sample_clock 0
    (fun d i => Z.of_nat (d + i)) 0 None [].

(** [POST /api/auth/register] for the name Shop, with a blank on either side *)
Definition register_request : Request :=
  sample_post ["api"; "auth"; "register"] ∅ {[ "name" := JStr " Shop " ]}.

(** [POST /api/auth/revoke] with the id of the credential of the sample store *)
Definition revoke_active_request : Request :=
  sample_post ["api"; "auth"; "revoke"] ∅ {[ "api_key_id" := JStr "key-1" ]}.

(** [POST /api/auth/regenerate] for an application that is not registered *)
Definition regenerate_unknown_request : Request :=
  sample_post ["api"; "auth"; "regenerate"] ∅ {[ "app_id" := JStr "app-9" ]}.

(** [GET /api/auth/api-key?app_id=app-9], an application that is not registered *)
Definition list_unknown_request : Request :=
  sample_get ["api"; "auth"; "api-key"] {[ "app_id" := "app-9" ]}.

(** [POST /api/shorten] with a secret that no credential holds *)
Definition shorten_with_guess : Request :=
  sample_post ["api"; "shorten"] {[ "x-api-key" := "guess" ]}
    {[ "url" := JStr "https://example.com" ]}.

(** [GET /api/analytics/event-summary?event=page_view&startDate=2024-01-31&endDate=2024-01-01] *)
Definition summary_reversed_range : Request :=
  sample_get ["api"; "analytics"; "event-summary"]
    (<[ "startDate" := "2024-01-31" ]>
       (<[ "endDate" := "2024-01-01" ]> {[ "event" := "page_view" ]})).

(** [GET /api/analytics/event-summary?event=page_view&startDate=2024-01-01&endDate=2024-01-31] *)
Definition summary_january : Request :=
  sample_get ["api"; "analytics"; "event-summary"]
    (<[ "startDate" := "2024-01-01" ]>
       (<[ "endDate" := "2024-01-31" ]> {[ "event" := "page_view" ]})).

(** A cache that works and holds nothing. *)
Definition working_cache : Redis := mkRedis ∅ false false.

(** A cache that holds an entry under the key of [summary_january]. *)
Definition warm_cache : Redis :=
  mkRedis {[ "event_summary:page_view:all:T1704067200000:T1706659200000" := "stale" ]}
    false false.

(** [GET /api/analytics/user-stats?user_id=u7], a user without events *)
Definition user_stats_unknown_request : Request :=
  sample_get ["api"; "analytics"; "user-stats"] {[ "user_id" := "u7" ]}.

(** [GET /api/analytics/event-summary?event=purchase] over January 2024. *)
Definition purchase_january : Request :=
  sample_get ["api"; "analytics"; "event-summary"]
    (<[ "endDate" := "2024-01-31" ]>
       (<[ "startDate" := "2024-01-01" ]> {[ "event" := "purchase" ]})).

(** A purchase of user [u5], as a [collectEvent] call of another request
    stores it. *)
Definition late_purchase : Event :=
  mkEvent "e9" "app-1" "key-1" "purchase" "u5" None (Some "mobile") None None None None None
    (Some "10.0.0.5") None None 1704100000001 1704100000001.

(** The tables after another request has inserted the event [e]. *)
Definition arrives (e : Event) (s : Store) : Store :=
  default s (Sql.insert_event e s).

(** The quotation mark of JSON, and the JSON text of the object with the one
    member [plan], of value [pro]. *)
Definition dquote : string := String (ascii_of_nat 34) "".

Definition plan_pro : string :=
  "{" ++ dquote ++ "plan" ++ dquote ++ ":" ++ dquote ++ "pro" ++ dquote ++ "}".

(** A runtime that reads the texts of the examples as JavaScript does: a
    text in braces is an object, any other text is not JSON, a string
    without special characters is quoted as it is, and the string form of
    an object is [[object Object]]. *)
Definition object_rt : Runtime :=
  mkRuntime (Date_parse sample_rt) (toISOString sample_rt)
    (fun text => if String.prefix "{" text then Some (JObj text) else None)
    (fun s => dquote ++ s ++ dquote) (JSON_stringify_summary sample_rt) (URL_ok sample_rt)
    (fun _ => "[object Object]").

(** [POST /api/analytics/collect] with the object [{ plan: 'pro' }] for
    [properties]. *)
Definition collect_with_properties : Request :=
  sample_post ["api"; "analytics"; "collect"] {[ "x-api-key" := sample_secret ]}
    (<[ "properties" := JObj plan_pro ]>
       (<[ "user_id" := JStr "u9" ]> {[ "event_name" := JStr "signup" ]})).

(** [GET /api/analytics/user-stats?user_id=u9] *)
Definition user_stats_u9_request : Request :=
  sample_get ["api"; "analytics"; "user-stats"] {[ "user_id" := "u9" ]}.

(** A store with one short link of the sample application. *)
Definition sample_link : ShortUrl :=
  mkShortUrl "link-1" "app-1" "promo" "https://example.com/sale" 4 2000 2000.

Definition store_with_link : Store :=
  mkStore (apps sample_store) (api_keys sample_store) (events sample_store) [sample_link].

(** [POST /api/shorten] asking for the slug [promo] *)
Definition shorten_promo_request : Request :=
  sample_post ["api"; "shorten"] {[ "x-api-key" := sample_secret ]}
    (<[ "slug" := JStr "promo" ]> {[ "url" := JStr "https://example.com/other" ]}).

(** [GET /s/promo] *)
Definition redirect_promo_request : Request := sample_get ["s"; "promo"] ∅.

(** [GET /s/AAECAw], the slug that the sample random source yields *)
Definition redirect_generated_request : Request := sample_get ["s"; "AAECAw"] ∅.

(** [DELETE /api/auth/revoke] *)
Definition delete_request : Request :=
  mkRequest DELETE ["api"; "auth"; "revoke"] ∅ ∅ ∅ (Ok None) None (Ok "http").

(** [GET /api/auth] *)
Definition get_api_auth : Request := sample_get ["api"; "auth"] ∅.

(** [POST /s/shorten] *)
Definition post_s_shorten : Request := sample_post ["s"; "shorten"] ∅ ∅.

(** * Properties *)

(** ** Strings and encodings *)

Example hex_sample : Encoding.hex [0; 171; 255] = "00abff".
Proof. reflexivity. Qed.

Example base64url_sample : Encoding.base64url [251; 255; 190; 1] = "-_--AQ".
Proof. reflexivity. Qed.

Example of_Z_sample :
  Str.of_Z 1704067200000 = "1704067200000" /\ Str.of_Z 0 = "0" /\ Str.of_Z (-42) = "-42".
Proof. repeat split; vm_compute; reflexivity. Qed.

Example trim_sample : Str.trim "  page_view " = "page_view".
Proof. reflexivity. Qed.

Example slice_last_sample :
  Str.slice_last 8 sample_secret = "89abcdef" /\ Str.slice_last 8 "abc" = "abc".
Proof. split; reflexivity. Qed.

Example parseInt10_sample :
  ParseInt.parseInt10 "300" = Some 300 /\ ParseInt.parseInt10 " 42px" = Some 42
  /\ ParseInt.parseInt10 "abc" = None.
Proof. repeat split; vm_compute; reflexivity. Qed.

Lemma hex_length (bs : list Z) :
  String.length (Encoding.hex bs) = (2 * List.length bs)%nat.
Proof.
  induction bs as [|b bs IH]; simpl; [reflexivity|].
  rewrite IH. lia.
Qed.

Lemma base64url_length_4 (a b c d : Z) :
  String.length (Encoding.base64url [a; b; c; d]) = 6%nat.
Proof. reflexivity. Qed.

Lemma substring0_short (n : nat) (s : string) :
  (String.length s <= n)%nat -> Str.substring0 n s = s.
Proof.
  unfold Str.substring0. revert n.
  induction s as [|c s IH]; intros [|n] H; simpl in *; try reflexivity; try lia.
  rewrite IH by lia. reflexivity.
Qed.






(** ** [parseInt] reads back what [String] prints *)

Lemma digit_cases (d : Z) :
  0 <= d < 10 ->
  d = 0 \/ d = 1 \/ d = 2 \/ d = 3 \/ d = 4 \/ d = 5 \/ d = 6 \/ d = 7 \/ d = 8 \/ d = 9.
Proof. lia. Qed.

Lemma digit_value_digit (d : Z) :
  0 <= d < 10 -> ParseInt.digit_value (Str.digit d) = Some d.
Proof.
  intros H. destruct (digit_cases d H) as [-> | [-> | [-> | [-> | [-> | [-> | [-> | [-> | [-> | ->]]]]]]]]];
    reflexivity.
Qed.

Lemma digits_starts_with_digit (fuel : nat) (n : Z) (acc : string) :
  0 <= n -> starts_with_digit acc -> starts_with_digit (Str.digits fuel n acc).
Proof.
  revert n acc. induction fuel as [|fuel IH]; intros n acc Hn Hacc; simpl; [exact Hacc|].
  assert (Hd : starts_with_digit (String (Str.digit (n mod 10)) acc)).
  { exists (n mod 10), acc. split; [apply Z.mod_pos_bound; lia | reflexivity]. }
  destruct (n / 10 =? 0); [exact Hd|].
  apply IH; [apply Z.div_pos; lia | exact Hd].
Qed.

Lemma digits_value (fuel : nat) :
  forall (n : Z) (acc : string) (k v : Z),
    0 <= n < 2 ^ Z.of_nat fuel -> 0 <= k ->
    (forall a, ParseInt.digits_from a acc = a * 10 ^ k + v) ->
    exists k', 0 <= k' /\
      forall a, ParseInt.digits_from a (Str.digits fuel n acc) = a * 10 ^ k' + (n * 10 ^ k + v).
Proof.
  induction fuel as [|fuel IH]; intros n acc k v Hn Hk Hacc.
  - simpl in *. assert (n = 0) by lia. subst n.
    exists k. split; [lia|]. intros a. rewrite Hacc. lia.
  - cbn [Str.digits].
    assert (Hmod : 0 <= n mod 10 < 10) by (apply Z.mod_pos_bound; lia).
    assert (Hacc' : forall a,
               ParseInt.digits_from a (String (Str.digit (n mod 10)) acc)
               = a * 10 ^ (k + 1) + (n mod 10 * 10 ^ k + v)).
    { intros a. cbn [ParseInt.digits_from]. rewrite digit_value_digit by exact Hmod.
      rewrite Hacc, Z.pow_add_r by lia. lia. }
    destruct (n / 10 =? 0) eqn:E.
    + apply Z.eqb_eq in E. exists (k + 1). split; [lia|]. intros a.
      rewrite Hacc'. rewrite (Z.div_mod n 10) at 2 by lia. rewrite E. lia.
    + assert (Hdiv : 0 <= n / 10 < 2 ^ Z.of_nat fuel).
      { split; [apply Z.div_pos; lia|].
        rewrite Nat2Z.inj_succ, Z.pow_succ_r in Hn by lia.
        apply Z.div_lt_upper_bound; lia. }
      destruct (IH (n / 10) _ (k + 1) _ Hdiv ltac:(lia) Hacc') as (k' & Hk' & Hval).
      exists k'. split; [exact Hk'|]. intros a. rewrite Hval.
      rewrite Z.pow_add_r by lia.
      rewrite (Z.div_mod n 10) at 3 by lia. lia.
Qed.

Lemma parseInt10_starts_with_digit (s : string) :
  starts_with_digit s -> ParseInt.parseInt10 s = Some (ParseInt.digits_from 0 s).
Proof.
  intros (d & rest & Hd & ->).
  destruct (digit_cases d Hd) as [-> | [-> | [-> | [-> | [-> | [-> | [-> | [-> | [-> | ->]]]]]]]]];
    reflexivity.
Qed.

Lemma parseInt10_of_Z (n : Z) : 0 <= n -> ParseInt.parseInt10 (Str.of_Z n) = Some n.
Proof.
  intros Hn. unfold Str.of_Z.
  destruct (n <? 0) eqn:E; [apply Z.ltb_lt in E; lia|].
  set (fuel := S (Z.to_nat (Z.log2 n))).
  assert (Hfuel : 0 <= n < 2 ^ Z.of_nat fuel).
  { split; [exact Hn|]. unfold fuel.
    rewrite Nat2Z.inj_succ, Z2Nat.id by apply Z.log2_nonneg.
    destruct (Z.eq_dec n 0) as [-> | Hne]; [reflexivity|].
    apply Z.log2_spec. lia. }
  rewrite parseInt10_starts_with_digit.
  - destruct (digits_value fuel n "" 0 0 Hfuel ltac:(lia)) as (k' & _ & Hval).
    + intros a. simpl. lia.
    + rewrite Hval. f_equal. lia.
  - unfold fuel. cbn [Str.digits].
    assert (Hd : starts_with_digit (String (Str.digit (n mod 10)) "")).
    { exists (n mod 10), "". split; [apply Z.mod_pos_bound; lia | reflexivity]. }
    destruct (n / 10 =? 0); [exact Hd|].
    apply digits_starts_with_digit; [apply Z.div_pos; lia | exact Hd].
Qed.

(** [parseInt(row.total_count, 10)] is the count itself. *)
Lemma parseInt_num_id (n : Z) : 0 <= n -> parseInt_num n = n.
Proof. intros Hn. unfold parseInt_num. rewrite parseInt10_of_Z by exact Hn. reflexivity. Qed.

(** ** [ORDER BY ... DESC] sorts and keeps the rows *)

Section OrderBy.

Context {A : Type} (key : A -> Z).

Lemma insert_desc_perm (x : A) (l : list A) :
  Permutation (Sql.insert_desc key x l) (x :: l).
Proof.
  induction l as [|y l IH]; simpl; [reflexivity|].
  destruct (key y <? key x); [reflexivity|].
  rewrite IH. apply perm_swap.
Qed.

Lemma order_by_desc_perm (l : list A) : Permutation (Sql.order_by_desc key l) l.
Proof.
  induction l as [|x l IH]; simpl; [reflexivity|].
  rewrite insert_desc_perm. apply perm_skip. exact IH.
Qed.

Lemma insert_desc_sorted (x : A) (l : list A) :
  StronglySorted (descending key) l -> StronglySorted (descending key) (Sql.insert_desc key x l).
Proof.
  induction l as [|y l IH]; intros Hs; simpl.
  - constructor; constructor.
  - inversion Hs as [|? ? Hl Hy]; subst.
    destruct (key y <? key x) eqn:E.
    + apply Z.ltb_lt in E. constructor; [exact Hs|].
      constructor; [unfold descending; lia|].
      eapply Forall_impl; [exact Hy|]. unfold descending. intros; simpl in *; lia.
    + apply Z.ltb_ge in E. constructor; [apply IH; exact Hl|].
      rewrite insert_desc_perm.
      constructor; [exact E | exact Hy].
Qed.

Lemma order_by_desc_sorted (l : list A) :
  StronglySorted (descending key) (Sql.order_by_desc key l).
Proof.
  induction l as [|x l IH]; simpl; [constructor|].
  apply insert_desc_sorted. exact IH.
Qed.

Lemma limit_In (n : nat) (l : list A) (y : A) : In y (Sql.limit n l) -> In y l.
Proof.
  unfold Sql.limit. revert n. induction l as [|x l IH]; intros [|n] H; simpl in *;
    try contradiction.
  destruct H as [-> | H]; [left; reflexivity | right; eapply IH; exact H].
Qed.

Lemma limit_sorted (n : nat) (l : list A) :
  StronglySorted (descending key) l -> StronglySorted (descending key) (Sql.limit n l).
Proof.
  unfold Sql.limit. revert n. induction l as [|x l IH]; intros [|n] Hs; simpl;
    try constructor.
  - apply IH. inversion Hs; assumption.
  - inversion Hs as [|? ? _ Hx]; subst.
    rewrite Forall_forall in *. intros y Hy. apply Hx.
    apply list_elem_of_In in Hy. apply list_elem_of_In.
    eapply limit_In. exact Hy.
Qed.

End OrderBy.

(** ** [GROUP BY]: the groups partition the rows *)

Lemma fold_left_add {A : Type} (f : A -> Z) (l : list A) (a : Z) :
  fold_left (fun sum x => sum + f x) l a = a + Zsum (List.map f l).
Proof.
  revert a. induction l as [|x l IH]; intros a; simpl; [lia|].
  rewrite IH. unfold Zsum. lia.
Qed.

Section GroupBy.

Context {A K : Type} `{EqDecision K} (key : A -> K).

Lemma indicator_sum (k0 : K) (ks : list K) :
  NoDup ks -> k0 ∈ ks ->
  Zsum (List.map (fun k => if bool_decide (k0 = k) then 1 else 0) ks) = 1.
Proof.
  induction 1 as [|k ks Hk Hnd IH]; intros Hin; [inversion Hin|].
  simpl. destruct (bool_decide_reflect (k0 = k)) as [-> | Hne].
  - assert (Hz : Zsum (List.map (fun k' => if bool_decide (k = k') then 1 else 0) ks) = 0).
    { clear IH Hnd Hin. induction ks as [|k' ks IH]; simpl; [reflexivity|].
      apply not_elem_of_cons in Hk as [Hne Hk].
      rewrite bool_decide_eq_false_2 by exact Hne. rewrite IH by exact Hk. reflexivity. }
    unfold Zsum in *. lia.
  - apply elem_of_cons in Hin as [? | Hin]; [contradiction|].
    specialize (IH Hin). unfold Zsum in *. lia.
Qed.

Lemma group_sizes_sum (ks : list K) (l : list A) :
  NoDup ks -> (forall x, x ∈ l -> key x ∈ ks) ->
  Zsum (List.map (group_size key l) ks) = Z.of_nat (List.length l).
Proof.
  intros Hnd. induction l as [|x l IH]; intros Hcover.
  - unfold group_size. simpl. clear. induction ks; simpl; [reflexivity | assumption].
  - assert (Hsplit : forall ks',
               Zsum (List.map (group_size key (x :: l)) ks')
               = Zsum (List.map (fun k => if bool_decide (key x = k) then 1 else 0) ks')
                 + Zsum (List.map (group_size key l) ks')).
    { induction ks' as [|k ks' IHk]; simpl; [reflexivity|].
      unfold Zsum in *. rewrite IHk. unfold group_size at 1 3. simpl.
      destruct (bool_decide (key x = k)); simpl; lia. }
    rewrite Hsplit, indicator_sum, IH.
    + simpl. lia.
    + intros y Hy. apply Hcover. right. exact Hy.
    + exact Hnd.
    + apply Hcover. left.
Qed.

End GroupBy.

Lemma remove_dups_length_le {A : Type} `{EqDecision A} (l : list A) :
  (List.length (remove_dups l) <= List.length l)%nat.
Proof.
  induction l as [|x l IH]; simpl; [lia|].
  destruct (decide_rel elem_of x l); simpl; lia.
Qed.

(** ** Running the primitives *)

Ltac world_simpl :=
  cbn [store txn db_fault db_calls redis clock clock_reads entropy draws
       env_CACHE_TTL_SEC io_log set_store set_txn set_redis log_io count_db_call
       count_clock_read count_draw fst snd] in *.

Lemma db_call_ok (op : IoOp) (w : World) :
  db_fault w (db_calls w) = false ->
  db_call op w = (Ok tt, count_db_call (log_io op w)).
Proof. intros H. unfold db_call. rewrite H. reflexivity. Qed.

Lemma db_call_fault (op : IoOp) (w : World) :
  db_fault w (db_calls w) = true ->
  db_call op w = (Throw DbError, count_db_call (log_io op w)).
Proof. intros H. unfold db_call. rewrite H. reflexivity. Qed.

Lemma execute_ok {A : Type} (sql : string) (stmt : Z -> Store -> option (A * Store))
    (w : World) (a : A) (s' : Store) :
  db_fault w (db_calls w) = false ->
  stmt (clock w (clock_reads w)) (store w) = Some (a, s') ->
  execute sql stmt w
  = (Ok a, set_store s' (count_clock_read (count_db_call (log_io (IoSql sql) w)))).
Proof.
  intros Hf Hs. unfold execute, bind. rewrite db_call_ok by exact Hf.
  unfold clock_read. world_simpl. rewrite Hs. reflexivity.
Qed.

Lemma select_ok {A : Type} (sql : string) (q : Z -> Store -> A) (w : World) :
  db_fault w (db_calls w) = false ->
  select sql q w
  = (Ok (q (clock w (clock_reads w)) (store w)),
     set_store (store w) (count_clock_read (count_db_call (log_io (IoSql sql) w)))).
Proof. intros Hf. unfold select. erewrite execute_ok; [reflexivity | exact Hf | reflexivity]. Qed.

(** The cache read returns what [cache_lookup] describes and never throws. *)
Lemma read_cache_run (rt : Runtime) (key : string) (w : World) :
  exists w',
    read_cache rt (bool_decide (is_Some (redis w))) key w = (Ok (cache_lookup rt key w), w')
    /\ store w' = store w /\ redis w' = redis w /\ db_fault w' = db_fault w
    /\ db_calls w' = db_calls w /\ env_CACHE_TTL_SEC w' = env_CACHE_TTL_SEC w.
Proof.
  unfold read_cache, cache_lookup.
  destruct (redis w) as [r|] eqn:Hr.
  - rewrite bool_decide_eq_true_2 by eauto.
    unfold try_catch, bind, redis_get. rewrite Hr.
    destruct (get_fault r).
    + eexists; split; [reflexivity|]. world_simpl. auto.
    + destruct (param_or_null (contents r !! key)) as [text|].
      * destruct (JSON_parse rt text); eexists; (split; [reflexivity|]); world_simpl; auto.
      * eexists; split; [reflexivity|]. world_simpl. auto.
  - rewrite bool_decide_eq_false_2 by (intros [? ?]; discriminate).
    eexists; split; [reflexivity|]. auto.
Qed.

(** The cache write never throws and leaves the tables alone. *)
Lemma write_cache_run (rt : Runtime) (b : bool) (key : string) (result : Summary)
    (w : World) :
  exists w', write_cache rt b key result w = (Ok tt, w') /\ store w' = store w.
Proof.
  unfold write_cache. destruct b; [|eexists; split; reflexivity].
  unfold try_catch, bind, getenv_CACHE_TTL_SEC, redis_setEx.
  destruct (redis w) as [r|];
    destruct (ParseInt.parseInt10 (default "300" (param_or_null (env_CACHE_TTL_SEC w))))
      as [t|];
    try (destruct (set_fault r || (t <=? 0)));
    eexists; (split; [reflexivity|]); reflexivity.
Qed.

Lemma same_services_refl (w : World) : same_services w w.
Proof. repeat split. Qed.

Lemma same_services_trans (w1 w2 w3 : World) :
  same_services w1 w2 -> same_services w2 w3 -> same_services w1 w3.
Proof. unfold same_services. intros (? & ? & ? & ?) (? & ? & ? & ?). repeat split; congruence. Qed.

Lemma db_ok_same (w w' : World) : same_services w w' -> db_ok w -> db_ok w'.
Proof. intros (_ & _ & Hf & _) Hok n. rewrite Hf. apply Hok. Qed.

Lemma cache_lookup_same (rt : Runtime) (key : string) (w w' : World) :
  same_services w w' -> cache_lookup rt key w' = cache_lookup rt key w.
Proof. intros (_ & Hr & _). unfold cache_lookup. rewrite Hr. reflexivity. Qed.

Lemma select_fault {A : Type} (sql : string) (q : Z -> Store -> A) (w : World) :
  db_fault w (db_calls w) = true ->
  select sql q w = (Throw DbError, count_db_call (log_io (IoSql sql) w)).
Proof.
  intros Hf. unfold select, execute, bind. rewrite db_call_fault by exact Hf. reflexivity.
Qed.

(** Resolving the range reads the clock at most twice and does nothing else. *)
Lemma resolve_range_run (rt : Runtime) (req : Request) (w : World) :
  exists r w',
    resolve_range rt req w = (Ok r, w') /\ same_services w w' /\ no_io_between w w'.
Proof.
  unfold resolve_range, resolve_end, resolve_start, bind, ret, clock_read.
  destruct (truthy_param (query req !! "endDate"));
    destruct (truthy_param (query req !! "startDate"));
    do 2 eexists; (split; [reflexivity|]); split; repeat split.
Qed.

(** ** [eventSummary] step by step *)

Lemma eventSummary_between_run (between : Store -> Store) (rt : Runtime) (req : Request)
    (w : World) :
  exists w',
    eventSummary_between between rt req w
    = (Ok (eventSummary_between_response between rt req w), w')
    /\ (store w' = store w \/ store w' = between (store w)).
Proof.
  unfold eventSummary_between, eventSummary_between_response, resolved_range.
  unfold try_catch at 1.
  destruct (negb (truthy_param (query req !! "event"))).
  { eexists; split; [reflexivity | left; reflexivity]. }
  unfold bind at 1.
  destruct (resolve_range_run rt req w) as (r & w1 & Hr & Hs1 & Hio1).
  rewrite Hr.
  destruct r as [[start|] [end_|]];
    try (eexists; split; [reflexivity | left; apply Hs1]).
  fold (request_key rt req start end_).
  unfold bind at 1. unfold getRedis at 1.
  set (w2 := log_io IoRedisClient w1).
  assert (Hs2 : same_services w w2).
  { eapply same_services_trans; [exact Hs1|]. repeat split. }
  change (redis w1) with (redis w2).
  unfold bind at 1.
  destruct (read_cache_run rt (request_key rt req start end_) w2)
    as (w3 & Hread & Hst3 & Hr3 & Hf3 & Hc3 & He3).
  rewrite Hread. rewrite (cache_lookup_same rt _ w w2 Hs2).
  destruct (cache_lookup rt (request_key rt req start end_) w) as [v|].
  { eexists; split; [reflexivity|]. unfold json, ret. world_simpl.
    left. rewrite Hst3. apply Hs2. }
  assert (Hcalls : db_calls w3 = db_calls w).
  { rewrite Hc3. unfold w2. world_simpl. apply Hio1. }
  assert (Hfault : db_fault w3 = db_fault w).
  { rewrite Hf3. apply Hs2. }
  assert (Hstore : store w3 = store w).
  { rewrite Hst3. apply Hs2. }
  unfold bind at 1. unfold getPool.
  destruct (db_fault w (db_calls w)) eqn:F0.
  { rewrite db_call_fault by (rewrite Hfault, Hcalls; exact F0).
    eexists; split; [reflexivity|]. world_simpl. left. exact Hstore. }
  rewrite db_call_ok by (rewrite Hfault, Hcalls; exact F0).
  unfold bind at 1.
  destruct (db_fault w (S (db_calls w))) eqn:F1.
  { rewrite select_fault by (world_simpl; rewrite Hfault, Hcalls; exact F1).
    eexists; split; [reflexivity|]. world_simpl. left. exact Hstore. }
  rewrite select_ok by (world_simpl; rewrite Hfault, Hcalls; exact F1).
  unfold bind at 1. unfold others_write at 1.
  unfold bind at 1.
  destruct (db_fault w (S (S (db_calls w)))) eqn:F2.
  { rewrite select_fault by (world_simpl; rewrite Hfault, Hcalls; exact F2).
    eexists; split; [reflexivity|]. world_simpl. right. rewrite Hstore. reflexivity. }
  rewrite select_ok by (world_simpl; rewrite Hfault, Hcalls; exact F2).
  unfold bind at 1. world_simpl.
  match goal with
  | |- context [write_cache ?rt ?b ?k ?res ?w0] =>
      destruct (write_cache_run rt b k res w0) as (w4 & Hw & Hst4); rewrite Hw
  end.
  eexists; split.
  - unfold json, ret. cbn [orb]. unfold summary_of_reads. rewrite Hstore. reflexivity.
  - world_simpl. right. rewrite Hst4. world_simpl. rewrite Hstore. reflexivity.
Qed.

Lemma eventSummary_run (rt : Runtime) (req : Request) (w : World) :
  exists w',
    eventSummary rt req w = (Ok (eventSummary_response rt req w), w')
    /\ store w' = store w.
Proof.
  destruct (eventSummary_between_run (fun s => s) rt req w) as (w' & Hrun & Hs).
  exists w'. split; [exact Hrun | destruct Hs; assumption].
Qed.

(** ** The event summary *)

Lemma group_by_device_sizes (l : list Event) :
  Zsum (List.map (fun row => parseInt_num (Sql.sr_total_count row)) (Sql.group_by_device l))
  = Z.of_nat (List.length l)
  /\ Zsum (List.map (fun row => parseInt_num (Sql.sr_device_count row))
             (Sql.group_by_device l))
     = Z.of_nat (List.length l).
Proof.
  unfold Sql.group_by_device. rewrite !List.map_map. cbn [Sql.sr_total_count Sql.sr_device_count].
  assert (H : Zsum (List.map (group_size ev_device_type l)
                      (remove_dups (List.map ev_device_type l)))
              = Z.of_nat (List.length l)).
  { apply group_sizes_sum; [apply NoDup_remove_dups|].
    intros x Hx. apply elem_of_remove_dups. apply list_elem_of_In.
    apply in_map. apply list_elem_of_In. exact Hx. }
  split; (etransitivity; [|exact H]); f_equal; apply map_ext; intros d;
    unfold group_size; apply parseInt_num_id; lia.
Qed.

Lemma count_distinct_users_le (l : list Event) :
  0 <= Sql.count_distinct_users l <= Z.of_nat (List.length l).
Proof.
  unfold Sql.count_distinct_users. split; [lia|].
  apply Nat2Z.inj_le.
  etransitivity; [apply remove_dups_length_le|]. rewrite length_map. reflexivity.
Qed.

(** The totals of a computed summary, in terms of the selected events. *)
Lemma fresh_summary_counts (rt : Runtime) (req : Request) (start end_ : Z) (s : Store) :
  let sum := fresh_summary rt req start end_ s in
  let selected := summary_events req start end_ s in
  sum_total_count sum = Z.of_nat (List.length selected)
  /\ sum_unique_users sum = Sql.count_distinct_users selected
  /\ Zsum (List.map dc_count (sum_device_breakdown sum)) = Z.of_nat (List.length selected).
Proof.
  unfold fresh_summary, summary_result, summary_events, Sql.select_summary,
    Sql.select_unique_users.
  cbn [sum_total_count sum_unique_users sum_device_breakdown].
  set (l := List.filter _ (events s)).
  destruct (group_by_device_sizes l) as [Ht Hd].
  split; [|split].
  - rewrite fold_left_add. rewrite Ht. lia.
  - destruct (Z.eqb_spec (Sql.count_distinct_users l) 0) as [-> | _]; reflexivity.
  - rewrite List.map_map. cbn [dc_count]. exact Hd.
Qed.

Lemma eventSummary_response_of (rt : Runtime) (req : Request) (w : World) :
  response_of (eventSummary rt req) w = Some (eventSummary_response rt req w).
Proof.
  destruct (eventSummary_run rt req w) as (w' & H & _).
  unfold response_of. rewrite H. reflexivity.
Qed.

(** The totals of a summary, in terms of the events each query selected. *)
Lemma summary_of_reads_counts (rt : Runtime) (req : Request) (start end_ : Z)
    (s1 s2 : Store) :
  let sum := summary_of_reads rt req start end_ s1 s2 in
  sum_total_count sum = Z.of_nat (List.length (summary_events req start end_ s1))
  /\ sum_unique_users sum = Sql.count_distinct_users (summary_events req start end_ s2)
  /\ Zsum (List.map dc_count (sum_device_breakdown sum))
     = Z.of_nat (List.length (summary_events req start end_ s1)).
Proof.
  unfold summary_of_reads, summary_result, summary_events, Sql.select_summary,
    Sql.select_unique_users.
  cbn [sum_total_count sum_unique_users sum_device_breakdown].
  set (l1 := List.filter _ (events s1)). set (l2 := List.filter _ (events s2)).
  destruct (group_by_device_sizes l1) as [Ht Hd].
  split; [|split].
  - rewrite fold_left_add. rewrite Ht. lia.
  - destruct (Z.eqb_spec (Sql.count_distinct_users l2) 0) as [-> | _]; reflexivity.
  - rewrite List.map_map. cbn [dc_count]. exact Hd.
Qed.

(** A computed summary is built from the tables as the first query found
    them and the tables as the second query found them. *)
Lemma eventSummary_between_computed (between : Store -> Store) (rt : Runtime)
    (req : Request) (w : World) (resp : Response) (s : Summary) (c : bool) :
  response_of (eventSummary_between between rt req) w = Some resp ->
  payload resp = SummaryBody (Computed s) c ->
  exists start end_,
    resolved_range rt req w = (Some start, Some end_)
    /\ s = summary_of_reads rt req start end_ (store w) (between (store w)).
Proof.
  destruct (eventSummary_between_run between rt req w) as (w' & Hrun & _).
  unfold response_of. rewrite Hrun. intros [= <-].
  unfold eventSummary_between_response.
  destruct (negb _); [discriminate|].
  destruct (resolved_range rt req w) as [[start|] [end_|]]; try discriminate.
  destruct (cache_lookup _ _ _); [discriminate|].
  destruct (_ || _); [discriminate|].
  cbn [payload]. intros [= <- _]. eauto.
Qed.

(** C4, as amended: in every summary computed from the store, [total_count]
    is the sum of the [count] fields of [device_breakdown]; both come from
    the rows of the first query, so this holds whatever is written while
    the handler waits.  [total_count] counts the events the first query
    selected, and [unique_users] is at most the number of events the second
    query selected: [unique_users <= total_count] holds when the second query
    selects no more events than the first, as it does when nothing is
    written between the two. *)
Theorem summary_totals_consistent (between : Store -> Store) (rt : Runtime) (req : Request)
    (w : World) (resp : Response) (s : Summary) (c : bool) :
  response_of (eventSummary_between between rt req) w = Some resp ->
  payload resp = SummaryBody (Computed s) c ->
  sum_total_count s = Zsum (List.map dc_count (sum_device_breakdown s))
  /\ exists start end_,
       resolved_range rt req w = (Some start, Some end_)
       /\ sum_total_count s
          = Z.of_nat (List.length (summary_events req start end_ (store w)))
       /\ sum_unique_users s
          <= Z.of_nat (List.length (summary_events req start end_ (between (store w))))
       /\ ((List.length (summary_events req start end_ (between (store w)))
            <= List.length (summary_events req start end_ (store w)))%nat ->
           sum_unique_users s <= sum_total_count s).
Proof.
  intros Hrun Hpay.
  destruct (eventSummary_between_computed between rt req w resp s c Hrun Hpay)
    as (start & end_ & Hrange & ->).
  destruct (summary_of_reads_counts rt req start end_ (store w) (between (store w)))
    as (Ht & Hu & Hd).
  cbv zeta in *. split; [rewrite Ht, Hd; reflexivity|].
  exists start, end_. split; [exact Hrange|]. split; [exact Ht|].
  pose proof (count_distinct_users_le (summary_events req start end_ (between (store w))))
    as Hle.
  split; [rewrite Hu; lia|]. intros Hlen. rewrite Ht, Hu. lia.
Qed.

Lemma summary_totals_consistent_witness :
  exists s,
    response_of (eventSummary sample_rt page_view_summary) sample_w
    = Some (mkResponse 200 (SummaryBody (Computed s) false))
    /\ sum_total_count s = 3
    /\ sum_total_count s = Zsum (List.map dc_count (sum_device_breakdown s))
    /\ sum_unique_users s <= sum_total_count s.
Proof.
  eexists. split; [vm_compute; reflexivity|]. split; [reflexivity|].
  destruct (summary_totals_consistent (fun s => s) sample_rt page_view_summary sample_w
              (mkResponse 200
                 (SummaryBody
                    (Computed (fresh_summary sample_rt page_view_summary 1703495200001
                                 1704100000000 sample_store))
                    false))
              (fresh_summary sample_rt page_view_summary 1703495200001 1704100000000
                 sample_store)
              false)
    as (Hsum & start & end_ & _ & _ & _ & Hle);
    [vm_compute; reflexivity | reflexivity |].
  split; [exact Hsum|]. apply Hle. reflexivity.
Defined.

(** C4 as stated fails: a purchase is collected after the first query of an
    aggregation over purchases and before its second one.  The first query
    counted no event, the second one user. *)
Lemma unique_users_can_exceed_total_count :
  summary_events purchase_january 1704067200000 1706659200000 sample_store = []
  /\ summary_events purchase_january 1704067200000 1706659200000
       (arrives late_purchase sample_store)
     = [late_purchase]
  /\ (exists s,
        response_of (eventSummary_between (arrives late_purchase) sample_rt purchase_january)
          sample_w
        = Some (mkResponse 200 (SummaryBody (Computed s) false))
        /\ sum_total_count s = 0 /\ sum_unique_users s = 1)
  /\ ~ totals_always_consistent.
Proof.
  assert (Hrun : exists s,
             response_of
               (eventSummary_between (arrives late_purchase) sample_rt purchase_january)
               sample_w
             = Some (mkResponse 200 (SummaryBody (Computed s) false))
             /\ sum_total_count s = 0 /\ sum_unique_users s = 1).
  { eexists. split; [vm_compute; reflexivity|]. split; reflexivity. }
  split; [reflexivity|]. split; [vm_compute; reflexivity|]. split; [exact Hrun|].
  intros Hclaim. destruct Hrun as (s & Hrun & Ht & Hu).
  destruct (Hclaim (arrives late_purchase) sample_rt purchase_january sample_w _ s false Hrun
              eq_refl) as [Hle _].
  rewrite Ht, Hu in Hle. lia.
Qed.

Lemma eventSummary_response_redis (rt : Runtime) (req : Request) (w : World)
    (r : option Redis) :
  resolved_range rt req (set_redis r w) = resolved_range rt req w.
Proof.
  unfold resolved_range, resolve_range, resolve_end, resolve_start, bind, ret, clock_read.
  destruct (truthy_param (query req !! "endDate"));
    destruct (truthy_param (query req !! "startDate")); reflexivity.
Qed.

(** C6: a failure of the cache read or of the cache write never fails an
    aggregation query.  A read that throws is answered exactly as a miss on
    an empty cache; whether the write throws does not show in the response;
    and when the read throws, or the read misses and the write throws, the
    store is queried and the response is the freshly computed summary with
    [cached = false]. *)
Theorem cache_failures_are_swallowed (rt : Runtime) (req : Request) (w : World)
    (r : Redis) :
  redis w = Some r ->
  (get_fault r = true ->
   response_of (eventSummary rt req) w
   = response_of (eventSummary rt req)
       (set_redis (Some (mkRedis ∅ false (set_fault r))) w))
  /\ response_of (eventSummary rt req)
       (set_redis (Some (mkRedis (contents r) (get_fault r) true)) w)
     = response_of (eventSummary rt req)
         (set_redis (Some (mkRedis (contents r) (get_fault r) false)) w)
  /\ (forall start end_,
        truthy_param (query req !! "event") = true ->
        resolved_range rt req w = (Some start, Some end_) ->
        db_ok w ->
        get_fault r = true
        \/ (set_fault r = true
            /\ cache_lookup rt (request_key rt req start end_) w = None) ->
        response_of (eventSummary rt req) w
        = Some (mkResponse 200
                  (SummaryBody (Computed (fresh_summary rt req start end_ (store w)))
                     false))).
Proof.
  intros Hr.
  rewrite !eventSummary_response_of. unfold eventSummary_response.
  rewrite !eventSummary_response_redis.
  split; [|split].
  - intros Hg. f_equal.
    destruct (negb _); [reflexivity|].
    destruct (resolved_range rt req w) as [[start|] [end_|]]; try reflexivity.
    unfold cache_lookup. world_simpl. rewrite Hr, Hg.
    cbn [get_fault contents]. rewrite lookup_empty. reflexivity.
  - reflexivity.
  - intros start end_ Hevent Hrange Hok Hfail.
    rewrite Hevent, Hrange, !Hok. cbn [negb orb].
    unfold cache_lookup in *. rewrite Hr in *.
    destruct Hfail as [-> | [_ ->]]; reflexivity.
Qed.

Lemma cache_failures_are_swallowed_witness :
  response_of (eventSummary sample_rt page_view_summary)
    (sample_world sample_store (Some failing_cache))
  = Some (mkResponse 200
            (SummaryBody
               (Computed (fresh_summary sample_rt page_view_summary 1703495200001
                            1704100000000 sample_store))
               false)).
Proof.
  apply (cache_failures_are_swallowed sample_rt page_view_summary
           (sample_world sample_store (Some failing_cache)) failing_cache);
    [reflexivity | reflexivity | vm_compute; reflexivity | intros n; reflexivity
    | left; reflexivity].
Defined.



(** ** The date range of an aggregation query *)

Lemma resolved_range_invalid (rt : Runtime) (req : Request) (w : World) (s : string) :
  query req !! "startDate" = Some s \/ query req !! "endDate" = Some s ->
  s <> "" -> Date_parse rt s = None ->
  fst (resolved_range rt req w) = None \/ snd (resolved_range rt req w) = None.
Proof.
  intros Hq Hne Hparse.
  assert (Ht : truthy_param (Some s) = true).
  { simpl. destruct (String.eqb_spec s ""); [contradiction | reflexivity]. }
  unfold resolved_range, resolve_range, resolve_end, resolve_start, bind, ret, clock_read.
  destruct Hq as [Hq | Hq]; rewrite Hq, Ht;
    change (default "" (Some s)) with s; rewrite Hparse.
  - left. destruct (truthy_param (query req !! "endDate")); reflexivity.
  - right. destruct (truthy_param (query req !! "startDate")); reflexivity.
Qed.

(** C7, as amended: an omitted (or empty) [endDate] resolves to the clock
    reading taken at that statement, an omitted (or empty) [startDate] to
    exactly seven days before the reading taken at its statement, and a
    non-empty [startDate] or [endDate] that is not a valid date is answered
    with a bad-request error before any call to the store or the cache. *)
Theorem date_range_defaults_and_validation (rt : Runtime) (req : Request) (w : World) :
  (truthy_param (query req !! "endDate") = false ->
   resolve_end rt (query req !! "endDate") w
   = (Ok (Some (clock w (clock_reads w))), count_clock_read w))
  /\ (truthy_param (query req !! "startDate") = false ->
      resolve_start rt (query req !! "startDate") w
      = (Ok (Some (clock w (clock_reads w) - 604800000)), count_clock_read w))
  /\ (truthy_param (query req !! "endDate") = false ->
      truthy_param (query req !! "startDate") = false ->
      resolved_range rt req w
      = (Some (clock w (S (clock_reads w)) - 604800000), Some (clock w (clock_reads w))))
  /\ (forall s,
        query req !! "startDate" = Some s \/ query req !! "endDate" = Some s ->
        s <> "" -> Date_parse rt s = None ->
        exists message w',
          eventSummary rt req w
          = (Ok (mkResponse 400 (ErrorBody "Bad Request" message)), w')
          /\ no_io_between w w').
Proof.
  split; [|split; [|split]].
  - intros H. unfold resolve_end. rewrite H. reflexivity.
  - intros H. unfold resolve_start. rewrite H. reflexivity.
  - intros He Hs. unfold resolved_range, resolve_range, resolve_end, resolve_start.
    rewrite He, Hs. reflexivity.
  - intros s Hq Hne Hparse.
    pose proof (resolved_range_invalid rt req w s Hq Hne Hparse) as Hbad.
    unfold resolved_range in Hbad.
    unfold eventSummary, eventSummary_between. unfold try_catch at 1.
    destruct (negb (truthy_param (query req !! "event"))).
    { do 2 eexists. split; [reflexivity|]. repeat split. }
    unfold bind at 1.
    destruct (resolve_range_run rt req w) as (r & w1 & Hr & _ & Hio).
    rewrite Hr in *.
    destruct r as [[start|] [end_|]]; cbn [fst snd] in Hbad;
      try (destruct Hbad; discriminate);
      do 2 eexists; (split; [reflexivity | exact Hio]).
Qed.

Lemma date_range_defaults_and_validation_witness :
  resolve_start sample_rt (query summary_bad_endDate !! "startDate") sample_w
  = (Ok (Some (1704100000000 - 604800000)), count_clock_read sample_w)
  /\ exists message w',
       eventSummary sample_rt summary_bad_endDate sample_w
       = (Ok (mkResponse 400 (ErrorBody "Bad Request" message)), w')
       /\ no_io_between sample_w w'.
Proof.
  destruct (date_range_defaults_and_validation sample_rt summary_bad_endDate sample_w)
    as (_ & Hs & _ & Hbad).
  split.
  - apply Hs. reflexivity.
  - apply (Hbad "next tuesday"); [right; reflexivity | discriminate | reflexivity].
Defined.

(** C7 as stated fails: an empty [startDate] is a supplied string that is
    not a valid date, and the request is served with the default window. *)
Lemma empty_startDate_is_not_rejected :
  query summary_empty_startDate !! "startDate" = Some ""
  /\ Date_parse sample_rt "" = None
  /\ response_of (eventSummary sample_rt summary_empty_startDate) sample_w
     = Some (mkResponse 200
               (SummaryBody
                  (Computed (fresh_summary sample_rt summary_empty_startDate
                               1703495200001 1704100000000 sample_store))
                  false))
  /\ ~ invalid_date_strings_rejected.
Proof.
  assert (Hrun : response_of (eventSummary sample_rt summary_empty_startDate) sample_w
                 = Some (mkResponse 200
                           (SummaryBody
                              (Computed (fresh_summary sample_rt summary_empty_startDate
                                           1703495200001 1704100000000 sample_store))
                              false))).
  { vm_compute. reflexivity. }
  split; [reflexivity|]. split; [reflexivity|]. split; [exact Hrun|].
  intros Hclaim.
  destruct (Hclaim sample_rt summary_empty_startDate sample_w "" (or_introl eq_refl) eq_refl)
    as (m & w' & Hbad & _).
  unfold response_of in Hrun. rewrite Hbad in Hrun. discriminate.
Qed.

(** ** Event ingestion *)

Lemma execute_run {A : Type} (sql : string) (stmt : Z -> Store -> option (A * Store))
    (w : World) :
  execute sql stmt w
  = if db_fault w (db_calls w)
    then (Throw DbError, count_db_call (log_io (IoSql sql) w))
    else match stmt (clock w (clock_reads w)) (store w) with
         | Some (a, s') =>
             (Ok a, set_store s' (count_clock_read (count_db_call (log_io (IoSql sql) w))))
         | None =>
             (Throw SqlError, count_clock_read (count_db_call (log_io (IoSql sql) w)))
         end.
Proof.
  unfold execute, bind, db_call, clock_read.
  destruct (db_fault w (db_calls w)); [reflexivity|]. world_simpl.
  destruct (stmt _ _) as [[a s']|]; reflexivity.
Qed.

(** A collected event is appended to the table, stamped with the clock
    reading of the [INSERT] statement. *)
Lemma collectEvent_created (rt : Runtime) (req : Request) (ctx : AuthContext)
    (w w' : World) (resp : Response) :
  collectEvent rt req ctx w = (Ok resp, w') ->
  status resp = 201 ->
  exists e,
    events (store w') = (events (store w) ++ [e])%list
    /\ ev_timestamp e = clock w (clock_reads w)
    /\ ev_app_id e = ctx_id ctx /\ ev_api_key_id e = ctx_apiKeyId ctx
    /\ payload resp = CollectBody (ev_id e) "Event collected successfully.".
Proof.
  unfold collectEvent. unfold try_catch at 1.
  destruct (_ || _ || _).
  { intros [= <- <-]. discriminate. }
  destruct (_ || _ || _).
  { intros [= <- <-]. discriminate. }
  unfold bind at 1. unfold getPool, db_call at 1.
  destruct (db_fault w (db_calls w)).
  { intros [= <- <-]. discriminate. }
  unfold bind at 1. unfold Keygen.genId at 1, bind at 1, randomBytes, ret at 1.
  unfold bind at 1. unfold getter at 1.
  destruct (ip req) as [address|err]; [|intros [= <- <-]; discriminate].
  unfold bind at 1. unfold insert_into. rewrite execute_run. world_simpl.
  destruct (db_fault w (S (db_calls w))).
  { intros [= <- <-]. discriminate. }
  match goal with
  | |- context [Sql.insert_event ?e ?s] =>
      unfold Sql.insert_event at 1; set (ev := e)
  end.
  destruct (negb (Sql.event_fits ev)); [intros [= <- <-]; discriminate|].
  destruct (existsb _ _); [intros [= <- <-]; discriminate|].
  destruct (negb _); [intros [= <- <-]; discriminate|].
  destruct (negb _); [intros [= <- <-]; discriminate|].
  cbn [option_map]. unfold json, ret. intros [= <- <-] _.
  exists ev. world_simpl. repeat split.
Qed.

(** C3, as amended: the timestamp stored by event ingestion is always the
    insertion time (the [NOW()] of the [INSERT] statement); a [timestamp]
    field in the request body is not read, whatever it holds. *)
Theorem event_timestamp_is_insertion_time (rt : Runtime) (req : Request)
    (ctx : AuthContext) (w : World) :
  (forall v : JsVal,
     collectEvent rt (set_body (<[ "timestamp" := v ]> (body req)) req) ctx w
     = collectEvent rt req ctx w)
  /\ (forall resp w',
        collectEvent rt req ctx w = (Ok resp, w') ->
        status resp = 201 ->
        exists e,
          events (store w') = (events (store w) ++ [e])%list
          /\ ev_timestamp e = clock w (clock_reads w)).
Proof.
  split.
  - intros v. unfold collectEvent, set_body. cbn [body headers ip remoteAddress].
    rewrite !lookup_insert_ne by discriminate. reflexivity.
  - intros resp w' Hrun Hst.
    destruct (collectEvent_created rt req ctx w w' resp Hrun Hst) as (e & He & Ht & _).
    exists e. split; assumption.
Qed.

Lemma event_timestamp_is_insertion_time_witness :
  exists e,
    events (store (world_after (collectEvent sample_rt collect_plain sample_ctx) sample_w))
    = (events sample_store ++ [e])%list
    /\ ev_timestamp e = 1704100000000.
Proof.
  destruct (event_timestamp_is_insertion_time sample_rt collect_plain sample_ctx sample_w)
    as [_ H].
  apply (H (mkResponse 201
              (CollectBody "00010203-0405-4607-8809-0a0b0c0d0e0f"
                 "Event collected successfully."))
           (world_after (collectEvent sample_rt collect_plain sample_ctx) sample_w));
    [vm_compute; reflexivity | reflexivity].
Defined.

(** C3 as stated fails: the client sends the instant 2024-01-01T00:00:00Z,
    the event is accepted, and the stored timestamp is the clock reading of
    the insertion. *)
Lemma client_timestamp_is_not_persisted :
  body collect_with_timestamp !! "timestamp" = Some (JStr "2024-01-01")
  /\ Date_parse sample_rt "2024-01-01" = Some 1704067200000
  /\ option_map status
       (response_of (collectEvent sample_rt collect_with_timestamp sample_ctx) sample_w)
     = Some 201
  /\ List.map ev_timestamp
       (events
          (store
             (world_after (collectEvent sample_rt collect_with_timestamp sample_ctx)
                sample_w)))
     = [1704090000000; 1704095000000; 1704096000000; 1704100000000]
  /\ ~ client_timestamp_persisted.
Proof.
  split; [reflexivity|]. split; [reflexivity|].
  split; [vm_compute; reflexivity|]. split; [vm_compute; reflexivity|].
  intros Hclaim.
  destruct (Hclaim sample_rt collect_with_timestamp sample_ctx sample_w "2024-01-01"
              1704067200000
              (mkResponse 201
                 (CollectBody "00010203-0405-4607-8809-0a0b0c0d0e0f"
                    "Event collected successfully."))
              (world_after (collectEvent sample_rt collect_with_timestamp sample_ctx)
                 sample_w))
    as (e & He & Ht); [reflexivity | reflexivity | vm_compute; reflexivity | reflexivity |].
  assert (Hts : List.map ev_timestamp
                  (events
                     (store
                        (world_after
                           (collectEvent sample_rt collect_with_timestamp sample_ctx)
                           sample_w)))
                = [1704090000000; 1704095000000; 1704096000000; 1704100000000])
    by (vm_compute; reflexivity).
  rewrite He in Hts. rewrite List.map_app in Hts. cbn in Hts. rewrite Ht in Hts.
  discriminate.
Qed.

(** ** Credential lifecycle *)

Lemma filter_length_zero {A : Type} (f : A -> bool) (l : list A) :
  List.length (List.filter f l) = 0%nat <-> (forall x, In x l -> f x = false).
Proof.
  induction l as [|x l IH]; simpl.
  - split; [intros _ y [] | reflexivity].
  - destruct (f x) eqn:E; simpl.
    + split; [discriminate|]. intros H. specialize (H x (or_introl eq_refl)). congruence.
    + rewrite IH. split.
      * intros H y [<- | Hy]; [exact E | apply H; exact Hy].
      * intros H y Hy. apply H. right. exact Hy.
Qed.

Lemma str_eqb_eq (a b : string) : Sql.str_eqb a b = true <-> a = b.
Proof. unfold Sql.str_eqb. apply bool_decide_eq_true. Qed.

Lemma str_eqb_neq (a b : string) : Sql.str_eqb a b = false <-> a <> b.
Proof. unfold Sql.str_eqb. apply bool_decide_eq_false. Qed.

(** A revoke call that the database serves, for any truthy [api_key_id]. *)
Lemma revokeKey_run (req : Request) (w : World) (v : JsVal) :
  body req !! "api_key_id" = Some v ->
  truthy v = true ->
  db_ok w ->
  exists resp w',
    revokeKey req w = (Ok resp, w')
    /\ (status resp = 404 <->
        forall k, In k (api_keys (store w)) -> key_id k <> sql_text v)
    /\ (forall k,
          In k (api_keys (store w)) -> key_id k = sql_text v ->
          status resp = 200
          /\ payload resp = MessageBody "API key revoked successfully."
          /\ In (Sql.revoke_row (clock w (clock_reads w)) k) (api_keys (store w'))
          /\ key_is_revoked (Sql.revoke_row (clock w (clock_reads w)) k) = true
          /\ key_revoked_at (Sql.revoke_row (clock w (clock_reads w)) k)
             = Some (clock w (clock_reads w)))
    /\ api_keys (store w')
       = List.map
           (fun k =>
              if Sql.str_eqb (key_id k) (sql_text v)
              then Sql.revoke_row (clock w (clock_reads w)) k
              else k)
           (api_keys (store w)).
Proof.
  intros Hbody Htruthy Hok.
  unfold revokeKey. unfold try_catch at 1. rewrite Hbody. cbn [truthy_field str_of].
  rewrite Htruthy. cbn [negb].
  unfold bind at 1. unfold getPool, db_call at 1. rewrite Hok.
  unfold bind at 1. rewrite execute_run. world_simpl. rewrite Hok.
  unfold Sql.revoke_by_id, Sql.update_keys.
  set (matches := fun k => Sql.str_eqb (key_id k) (sql_text v)).
  set (now := clock w (clock_reads w)).
  destruct (Nat.eqb_spec (List.length (List.filter matches (api_keys (store w)))) 0)
    as [Hzero | Hsome].
  - do 2 eexists. split; [reflexivity|]. world_simpl. cbn [status payload].
    pose proof (proj1 (filter_length_zero _ _) Hzero) as Hz. clear Hzero.
    rename Hz into Hzero.
    split; [|split; [|reflexivity]].
    + split; [|reflexivity]. intros _ k Hk.
      apply str_eqb_neq. apply (Hzero k Hk).
    + intros k Hk Hid. specialize (Hzero k Hk). apply str_eqb_neq in Hzero. contradiction.
  - do 2 eexists. split; [reflexivity|]. world_simpl. cbn [status payload].
    split; [|split; [|reflexivity]].
    + split; [discriminate|]. intros Hnone. exfalso. apply Hsome.
      apply filter_length_zero. intros k Hk. apply str_eqb_neq. apply Hnone. exact Hk.
    + intros k Hk Hid. repeat split.
      apply in_map_iff. exists k. split; [|exact Hk].
      unfold matches. rewrite (proj2 (str_eqb_eq _ _) Hid). reflexivity.
Qed.

(** C10: a revoke call is answered 404 exactly when no credential row has
    the given id.  Every row with that id, revoked before or not, ends
    revoked with [revoked_at] set to the time of the call, and the answer is
    then 200: the [UPDATE] matches on the id alone. *)
Theorem revoke_not_found_iff_absent (req : Request) (w : World) (id : string) :
  body req !! "api_key_id" = Some (JStr id) ->
  id <> "" ->
  db_ok w ->
  exists resp w',
    revokeKey req w = (Ok resp, w')
    /\ (status resp = 404 <-> forall k, In k (api_keys (store w)) -> key_id k <> id)
    /\ (forall k,
          In k (api_keys (store w)) -> key_id k = id ->
          status resp = 200
          /\ payload resp = MessageBody "API key revoked successfully."
          /\ In (Sql.revoke_row (clock w (clock_reads w)) k) (api_keys (store w'))
          /\ key_is_revoked (Sql.revoke_row (clock w (clock_reads w)) k) = true
          /\ key_revoked_at (Sql.revoke_row (clock w (clock_reads w)) k)
             = Some (clock w (clock_reads w)))
    /\ api_keys (store w')
       = List.map
           (fun k =>
              if Sql.str_eqb (key_id k) id
              then Sql.revoke_row (clock w (clock_reads w)) k
              else k)
           (api_keys (store w)).
Proof.
  intros Hbody Hne Hok.
  apply (revokeKey_run req w (JStr id) Hbody); [|exact Hok].
  simpl. destruct (String.eqb_spec id ""); [contradiction | reflexivity].
Qed.

Lemma revoke_not_found_iff_absent_witness :
  exists resp w',
    revokeKey revoke_request (sample_world revoked_store None) = (Ok resp, w')
    /\ status resp = 200
    /\ api_keys (store w')
       = [mkApiKey "key-0" "app-1" sample_secret true None 500 (Some 1704100000000)].
Proof.
  destruct (revoke_not_found_iff_absent revoke_request (sample_world revoked_store None)
              "key-0")
    as (resp & w' & Hrun & _ & Hrow & Hkeys);
    [reflexivity | discriminate | intros n; reflexivity |].
  exists resp, w'. split; [exact Hrun|]. split.
  - apply (Hrow revoked_key); [left; reflexivity | reflexivity].
  - rewrite Hkeys. reflexivity.
Defined.

Lemma randomBytes_length (n : nat) (w : World) : List.length (next_bytes n w) = n.
Proof. unfold next_bytes. rewrite length_map, length_seq. reflexivity. Qed.

Lemma genApiKey_run (w : World) :
  Keygen.genApiKey 32 w = (Ok (Encoding.hex (next_bytes 32 w)), count_draw w).
Proof. reflexivity. Qed.

Lemma genId_run (w : World) :
  Keygen.genId w = (Ok (Keygen.uuid_text (next_bytes 16 w)), count_draw w).
Proof. reflexivity. Qed.

(** A secret issued by [genApiKey()] has 64 characters. *)
Lemma genApiKey_length (w : World) :
  String.length (Encoding.hex (next_bytes 32 w)) = 64%nat.
Proof. rewrite hex_length, randomBytes_length. reflexivity. Qed.

Lemma rollback_then_throw {A : Type} (e : Exn) (w : World) :
  exists e' w', (rollback ;; throw (A := A) e)%io w = (Throw e', w').
Proof.
  unfold bind, rollback, db_call, throw.
  destruct (db_fault _ _); eauto.
Qed.

Lemma filter_filter_and {A : Type} (f g : A -> bool) (l : list A) :
  List.filter (fun x => f x && g x) l = List.filter g (List.filter f l).
Proof.
  induction l as [|x l IH]; simpl; [reflexivity|].
  destruct (f x); simpl; [destruct (g x)|]; rewrite IH; reflexivity.
Qed.

Lemma filter_none {A : Type} (f : A -> bool) (l : list A) :
  (forall x, In x l -> f x = false) -> List.filter f l = [].
Proof.
  induction l as [|x l IH]; intros H; simpl; [reflexivity|].
  rewrite (H x (or_introl eq_refl)). apply IH. intros y Hy. apply H. right. exact Hy.
Qed.

Lemma existsb_false {A : Type} (f : A -> bool) (l : list A) :
  existsb f l = false <-> (forall x, In x l -> f x = false).
Proof.
  induction l as [|x l IH]; simpl.
  - split; [intros _ y [] | reflexivity].
  - rewrite orb_false_iff, IH. split.
    + intros [Hx Hl] y [<- | Hy]; [exact Hx | apply Hl; exact Hy].
    + intros H. split; [apply H; left; reflexivity | intros y Hy; apply H; right; exact Hy].
Qed.

(** The middleware accepts a secret whose only row in [api_keys] is active,
    has no expiry and belongs to a registered application. *)
Lemma apiKeyAuth_accepts (req : Request) (w : World) (k : ApiKey) :
  headers req !! "x-api-key" = Some (key_api_key k) ->
  key_api_key k <> "" ->
  List.filter (fun k' => Sql.str_eqb (key_api_key k') (key_api_key k)) (api_keys (store w))
  = [k] ->
  key_is_revoked k = false ->
  key_expires_at k = None ->
  Sql.has_app (key_app_id k) (store w) = true ->
  db_fault w (db_calls w) = false ->
  db_fault w (S (db_calls w)) = false ->
  exists name w',
    apiKeyAuth req w = (Ok (inr (mkAuthContext (key_app_id k) (key_id k) name)), w')
    /\ store w' = store w.
Proof.
  intros Hhdr Hne Hrows Hactive Hexp Happ F0 F1.
  unfold apiKeyAuth. rewrite Hhdr. cbn [truthy_param].
  destruct (String.eqb_spec (key_api_key k) "") as [|_]; [contradiction|]. cbn [negb].
  unfold try_catch. unfold bind at 1. unfold getPool. rewrite db_call_ok by exact F0.
  unfold bind at 1. rewrite select_ok by exact F1. world_simpl.
  unfold Sql.select_valid_key. change (default "" (Some (key_api_key k))) with (key_api_key k).
  rewrite (filter_filter_and
             (fun k' => Sql.str_eqb (key_api_key k') (key_api_key k) && negb (key_is_revoked k'))
             (Sql.not_expired _)).
  rewrite (filter_filter_and
             (fun k' => Sql.str_eqb (key_api_key k') (key_api_key k))
             (fun k' => negb (key_is_revoked k'))).
  rewrite Hrows. cbn [List.filter]. rewrite Hactive. cbn [negb List.filter].
  unfold Sql.not_expired. rewrite Hexp. cbn [flat_map]. rewrite app_nil_r.
  unfold Sql.has_app in Happ.
  destruct (List.filter (fun a => Sql.str_eqb (key_app_id k) (app_id a)) (apps (store w)))
    as [|a rest] eqn:Hf.
  - exfalso.
    assert (Hall : forall a, In a (apps (store w)) -> Sql.str_eqb (key_app_id k) (app_id a) = false).
    { intros a Ha. destruct (Sql.str_eqb (key_app_id k) (app_id a)) eqn:E; [|reflexivity].
      assert (Hin : In a (List.filter (fun a => Sql.str_eqb (key_app_id k) (app_id a))
                            (apps (store w)))).
      { apply filter_In. split; assumption. }
      rewrite Hf in Hin. destruct Hin. }
    assert (Hnone : existsb (fun a => Sql.str_eqb (app_id a) (key_app_id k)) (apps (store w))
                    = false).
    { apply existsb_false. intros a Ha. specialize (Hall a Ha).
      apply str_eqb_neq in Hall. apply str_eqb_neq. congruence. }
    congruence.
  - cbn [List.map]. exists (app_name a). eexists. split; [reflexivity|]. reflexivity.
Qed.

Lemma filter_active_after_revoke (a : string) (now : Z) (l : list ApiKey) :
  List.filter (active_of a)
    (List.map (fun k => if active_of a k then Sql.revoke_row now k else k) l) = [].
Proof.
  apply filter_none. intros k' Hk'. apply in_map_iff in Hk' as (k & <- & _).
  destruct (active_of a k) eqn:E; [|exact E].
  unfold active_of. cbn [Sql.revoke_row key_is_revoked negb]. apply andb_false_r.
Qed.

Ltac rolled_back :=
  match goal with
  | |- context [(rollback ;; throw ?e)%io ?w0] =>
      destruct (rollback_then_throw (A := Response) e w0) as (? & ? & ->)
  end;
  intros [= <- <-]; discriminate.

(** What a committed [regenerateKey] leaves behind, step by step. *)
Lemma regenerateKey_committed (req : Request) (w w' : World) (resp : Response) :
  regenerateKey req w = (Ok resp, w') ->
  status resp = 200 ->
  exists (newId : string) (tInsert : Z),
    let a := str_of (body req !! "app_id") in
    let newKey := Encoding.hex (next_bytes 32 (count_draw w)) in
    let revoked :=
      List.map
        (fun k => if active_of a k then Sql.revoke_row (clock w (clock_reads w)) k else k)
        (api_keys (store w)) in
    payload resp
    = RegenerateBody newKey "API key regenerated successfully. Old keys have been revoked."
    /\ api_keys (store w')
       = (revoked ++ [mkApiKey newId a newKey false None tInsert None])%list
    /\ apps (store w') = apps (store w)
    /\ existsb (fun k => Sql.str_eqb (key_api_key k) newKey) revoked = false
    /\ Sql.has_app a (store w) = true.
Proof.
  unfold regenerateKey. unfold try_catch at 1.
  destruct (negb (truthy_field (body req !! "app_id"))).
  { intros [= <- <-]. discriminate. }
  set (a := str_of (body req !! "app_id")).
  unfold bind at 1. unfold getPool, db_call at 1.
  destruct (db_fault w (db_calls w)); [intros [= <- <-]; discriminate|].
  unfold bind at 1. unfold getConnection, db_call at 1. world_simpl.
  destruct (db_fault w (S (db_calls w))); [intros [= <- <-]; discriminate|].
  unfold try_catch at 1.
  unfold bind at 1. unfold beginTransaction at 1, bind at 1, db_call at 1. world_simpl.
  destruct (db_fault w (S (S (db_calls w)))); [rolled_back|].
  unfold bind at 1. rewrite execute_run. world_simpl.
  destruct (db_fault w (S (S (S (db_calls w))))); [rolled_back|].
  unfold Sql.revoke_active_of_app, Sql.update_keys.
  fold (active_of a).
  set (revoked := List.map _ (api_keys (store w))).
  unfold bind at 1. rewrite genId_run.
  unfold bind at 1. rewrite genApiKey_run. world_simpl.
  set (newId := Keygen.uuid_text _).
  set (newKey := Encoding.hex _).
  unfold bind at 1. unfold insert_into. rewrite execute_run. world_simpl.
  destruct (db_fault w (S (S (S (S (db_calls w)))))); [rolled_back|].
  unfold Sql.insert_api_key. cbn [api_keys apps events short_urls].
  destruct (negb (Sql.api_key_fits newId a newKey)); [cbn [option_map]; rolled_back|].
  destruct (existsb (fun k => Sql.str_eqb (key_id k) newId) revoked);
    [cbn [option_map]; rolled_back|].
  destruct (existsb (fun k => Sql.str_eqb (key_api_key k) newKey) revoked) eqn:Hfresh;
    [cbn [option_map]; rolled_back|].
  unfold Sql.has_app at 1. cbn [apps].
  destruct (existsb (fun x => Sql.str_eqb (app_id x) a) (apps (store w))) eqn:Happ;
    [|cbn [negb option_map]; rolled_back].
  cbn [negb option_map]. world_simpl.
  unfold bind at 1. unfold commit at 1, bind at 1, db_call at 1. world_simpl.
  destruct (db_fault w (S (S (S (S (S (db_calls w))))))); [rolled_back|].
  unfold json, ret. intros [= <- <-] _.
  exists newId, (clock w (S (clock_reads w))).
  world_simpl. cbn [payload api_keys apps].
  repeat split; try reflexivity; assumption.
Qed.

Lemma hex_nonempty_64 (s : string) : String.length s = 64%nat -> s <> "".
Proof. intros H ->. discriminate. Qed.

(** A regenerate call that commits, for any truthy [app_id]. *)
Lemma regenerateKey_rotates (req : Request) (w w' : World) (resp : Response) :
  regenerateKey req w = (Ok resp, w') ->
  status resp = 200 ->
  exists new : ApiKey,
    key_app_id new = str_of (body req !! "app_id")
    /\ key_is_revoked new = false
    /\ payload resp
       = RegenerateBody (key_api_key new)
           "API key regenerated successfully. Old keys have been revoked."
    /\ (forall k,
          In k (api_keys (store w)) ->
          key_app_id k = str_of (body req !! "app_id") -> key_is_revoked k = false ->
          In (Sql.revoke_row (clock w (clock_reads w)) k) (api_keys (store w'))
          /\ key_is_revoked (Sql.revoke_row (clock w (clock_reads w)) k) = true)
    /\ List.length (api_keys (store w')) = S (List.length (api_keys (store w)))
    /\ List.filter (active_of (str_of (body req !! "app_id"))) (api_keys (store w')) = [new]
    /\ (forall k, In k (api_keys (store w)) -> key_api_key k <> key_api_key new)
    /\ (forall req2 w2,
          store w2 = store w' ->
          headers req2 !! "x-api-key" = Some (key_api_key new) ->
          db_fault w2 (db_calls w2) = false ->
          db_fault w2 (S (db_calls w2)) = false ->
          exists name w3,
            apiKeyAuth req2 w2
            = (Ok (inr (mkAuthContext (str_of (body req !! "app_id")) (key_id new) name)),
               w3)).
Proof.
  intros Hrun Hst.
  destruct (regenerateKey_committed req w w' resp Hrun Hst)
    as (newId & tInsert & Hpay & Hkeys & Happs & Hfresh & Happ).
  set (a := str_of (body req !! "app_id")) in *.
  set (newKey := Encoding.hex (next_bytes 32 (count_draw w))) in *.
  set (now := clock w (clock_reads w)) in *.
  set (revoked := List.map (fun k => if active_of a k then Sql.revoke_row now k else k)
                    (api_keys (store w))) in *.
  set (new := mkApiKey newId a newKey false None tInsert None) in *.
  assert (Hold : forall k, In k (api_keys (store w)) -> key_api_key k <> newKey).
  { intros k Hk. rewrite existsb_false in Hfresh.
    specialize (Hfresh (if active_of a k then Sql.revoke_row now k else k)).
    apply str_eqb_neq.
    rewrite <- Hfresh by (apply in_map_iff; exists k; split; [reflexivity | exact Hk]).
    destruct (active_of a k); reflexivity. }
  exists new. split; [reflexivity|]. split; [reflexivity|]. split; [exact Hpay|].
  split; [|split; [|split; [|split]]].
  - intros k Hk Ha Hact. split; [|reflexivity].
    rewrite Hkeys. apply in_or_app. left. apply in_map_iff. exists k. split; [|exact Hk].
    unfold active_of. rewrite (proj2 (str_eqb_eq _ _) Ha), Hact. reflexivity.
  - rewrite Hkeys, length_app. unfold revoked. rewrite length_map. simpl. lia.
  - rewrite Hkeys, List.filter_app. unfold revoked. rewrite filter_active_after_revoke.
    simpl. unfold active_of. cbn [key_app_id key_is_revoked new].
    rewrite (proj2 (str_eqb_eq a a) eq_refl). reflexivity.
  - exact Hold.
  - intros req2 w2 Hs2 Hhdr F0 F1.
    destruct (apiKeyAuth_accepts req2 w2 new) as (name & w3 & Hauth & _);
      try assumption; try reflexivity.
    + apply hex_nonempty_64. apply genApiKey_length.
    + rewrite Hs2, Hkeys, List.filter_app.
      rewrite (filter_none _ revoked).
      * simpl. rewrite (proj2 (str_eqb_eq newKey newKey) eq_refl). reflexivity.
      * apply existsb_false. exact Hfresh.
    + rewrite Hs2. unfold Sql.has_app in *. rewrite Happs. exact Happ.
    + exists name, w3. exact Hauth.
Qed.

(** C5: a regenerate call whose transaction commits revokes every active
    credential of the application, inserts exactly one new active
    credential for it, returns only the secret of that credential, and that
    secret differs from every secret in the table and authenticates. *)
Theorem regenerate_rotates_credentials (req : Request) (w w' : World) (resp : Response)
    (a : string) :
  body req !! "app_id" = Some (JStr a) ->
  regenerateKey req w = (Ok resp, w') ->
  status resp = 200 ->
  exists new : ApiKey,
    key_app_id new = a
    /\ key_is_revoked new = false
    /\ payload resp
       = RegenerateBody (key_api_key new)
           "API key regenerated successfully. Old keys have been revoked."
    /\ (forall k,
          In k (api_keys (store w)) ->
          key_app_id k = a -> key_is_revoked k = false ->
          In (Sql.revoke_row (clock w (clock_reads w)) k) (api_keys (store w'))
          /\ key_is_revoked (Sql.revoke_row (clock w (clock_reads w)) k) = true)
    /\ List.length (api_keys (store w')) = S (List.length (api_keys (store w)))
    /\ List.filter (active_of a) (api_keys (store w')) = [new]
    /\ (forall k, In k (api_keys (store w)) -> key_api_key k <> key_api_key new)
    /\ (forall req2 w2,
          store w2 = store w' ->
          headers req2 !! "x-api-key" = Some (key_api_key new) ->
          db_fault w2 (db_calls w2) = false ->
          db_fault w2 (S (db_calls w2)) = false ->
          exists name w3,
            apiKeyAuth req2 w2 = (Ok (inr (mkAuthContext a (key_id new) name)), w3)).
Proof.
  intros Hbody Hrun Hst.
  pose proof (regenerateKey_rotates req w w' resp Hrun Hst) as H.
  rewrite Hbody in H. exact H.
Qed.

Lemma regenerate_rotates_credentials_witness :
  exists new : ApiKey,
    key_api_key new = regenerated_secret
    /\ List.filter (active_of "app-1")
         (api_keys (store (world_after (regenerateKey regenerate_request) sample_w)))
       = [new]
    /\ exists name w3,
         apiKeyAuth request_with_new_secret
           (world_after (regenerateKey regenerate_request) sample_w)
         = (Ok (inr (mkAuthContext "app-1" (key_id new) name)), w3).
Proof.
  destruct (regenerate_rotates_credentials regenerate_request sample_w
              (world_after (regenerateKey regenerate_request) sample_w)
              (mkResponse 200
                 (RegenerateBody regenerated_secret
                    "API key regenerated successfully. Old keys have been revoked."))
              "app-1")
    as (new & _ & _ & Hpay & _ & _ & Hactive & _ & Hauth);
    [reflexivity | vm_compute; reflexivity | reflexivity |].
  assert (Hk : key_api_key new = regenerated_secret)
    by (injection Hpay as Hk; symmetry; exact Hk).
  exists new. split; [exact Hk|]. split; [exact Hactive|].
  apply (Hauth request_with_new_secret
           (world_after (regenerateKey regenerate_request) sample_w)).
  - reflexivity.
  - rewrite Hk. vm_compute. reflexivity.
  - vm_compute. reflexivity.
  - vm_compute. reflexivity.
Defined.

(** ** The credential list *)





Lemma sorted_map {A B : Type} (f : A -> Z) (g : B -> Z) (h : A -> B) (l : list A) :
  (forall x, g (h x) = f x) ->
  StronglySorted (descending f) l -> StronglySorted (descending g) (List.map h l).
Proof.
  intros Hgh. induction 1 as [|x l Hs IH Hx]; simpl; constructor; [exact IH|].
  apply Forall_forall. intros y Hy. rewrite Forall_forall in Hx.
  apply list_elem_of_In in Hy. apply in_map_iff in Hy as (z & <- & Hz).
  unfold descending. rewrite !Hgh. apply Hx. apply list_elem_of_In. exact Hz.
Qed.






Lemma sample_store_wf : store_wf sample_store.
Proof. apply (bool_decide_unpack _). vm_compute. exact I. Qed.


(** ** User statistics *)

Lemma userStats_not_found (rt : Runtime) (req : Request) (w : World) :
  truthy_param (query req !! "user_id") = true ->
  db_ok w ->
  user_events req (store w) = [] ->
  response_of (userStats rt req) w
  = Some (mkResponse 404 (ErrorBody "Not Found" "No events found for this user.")).
Proof.
  intros Hu Hok Hnone. unfold response_of, userStats, userStats_between. unfold try_catch.
  rewrite Hu. cbn [negb].
  unfold bind at 1. unfold getPool. rewrite db_call_ok by apply Hok.
  unfold bind at 1. rewrite select_ok by apply Hok. world_simpl.
  unfold Sql.select_user_stats. unfold user_events in Hnone. rewrite Hnone.
  reflexivity.
Qed.

(** C1, the code at the failing input.  No route answers
    [GET /api/analytics/user-stats]: whatever the request carries and whatever
    the store holds, the request reaches the handler after the last route
    and is answered 404 without any I/O.  In the sample store user [u1] has
    two events; the handler [userStats], called directly, reports
    [total_events = 1], the size of the group of the most recent address. *)
Theorem user_stats_route_is_not_mounted :
  (forall rt h q b i ra pr w,
     app rt (mkRequest GET ["api"; "analytics"; "user-stats"] h q b i ra pr) w
     = (Ok (mkResponse 404
              (ErrorBody "Not Found" "Route GET /api/analytics/user-stats not found")),
        w))
  /\ List.length (user_events user_stats_request sample_store) = 2%nat
  /\ option_map status (response_of (app sample_rt user_stats_request) sample_w) = Some 404
  /\ response_of (userStats sample_rt user_stats_request) sample_w
     = Some (mkResponse 200
               (UserStatsBody
                  (mkUserStats "u1" None 1 1704095000000 1704095000000 (Some "10.0.0.2")
                     [mkRecentEvent "page_view" 1704095000000 JNull;
                      mkRecentEvent "page_view" 1704090000000 JNull]))).
Proof.
  split; [intros; reflexivity|].
  split; [vm_compute; reflexivity|].
  split; vm_compute; reflexivity.
Qed.

(** ** Short links *)

Lemma select_run {A : Type} (sql : string) (q : Z -> Store -> A) (w : World) :
  select sql q w
  = if db_fault w (db_calls w)
    then (Throw DbError, count_db_call (log_io (IoSql sql) w))
    else (Ok (q (clock w (clock_reads w)) (store w)),
          set_store (store w) (count_clock_read (count_db_call (log_io (IoSql sql) w)))).
Proof. unfold select. rewrite execute_run. reflexivity. Qed.

(** C2, the code at every input: when the request carries no slug, the slug
    that is stored and returned is the URL-safe base64 text of four random
    bytes, which has six characters; [substring(0, 8)] leaves it whole. *)
Theorem generated_slug_has_six_characters (rt : Runtime) (req : Request)
    (ctx : AuthContext) (w w' : World) (resp : Response) (slug short orig : string) :
  truthy_field (body req !! "slug") = false ->
  createShortUrl rt req ctx w = (Ok resp, w') ->
  payload resp = ShortUrlBody slug short orig ->
  slug = Encoding.base64url (next_bytes 4 w)
  /\ String.length slug = 6%nat
  /\ exists u, In u (short_urls (store w')) /\ su_slug u = slug.
Proof.
  intros Hslug.
  unfold createShortUrl. unfold try_catch at 1.
  destruct (_ || _ || _); [intros [= <- <-]; discriminate|].
  destruct (negb (URL_ok rt _)); [intros [= <- <-]; discriminate|].
  unfold bind at 1. unfold getPool, db_call at 1.
  destruct (db_fault w (db_calls w)); [intros [= <- <-]; discriminate|].
  rewrite Hslug. cbn [negb].
  unfold bind at 1. unfold bind at 1. unfold randomBytes at 1, ret at 1.
  world_simpl. fold (next_bytes 4 w).
  assert (Hlen : String.length (Encoding.base64url (next_bytes 4 w)) = 6%nat).
  { pose proof (randomBytes_length 4 w) as H4.
    destruct (next_bytes 4 w) as [|b0 [|b1 [|b2 [|b3 [|]]]]]; try discriminate.
    reflexivity. }
  rewrite (substring0_short 8 (Encoding.base64url (next_bytes 4 w))) by lia.
  set (finalSlug := Encoding.base64url (next_bytes 4 w)) in *.
  unfold bind at 1. rewrite select_run. world_simpl.
  destruct (db_fault w (S (db_calls w))); [intros [= <- <-]; discriminate|].
  destruct (0 <? List.length (Sql.select_short_url finalSlug (store w)))%nat;
    [intros [= <- <-]; discriminate|].
  unfold bind at 1. rewrite genId_run. world_simpl.
  unfold bind at 1. unfold insert_into. rewrite execute_run. world_simpl.
  destruct (db_fault w (S (S (db_calls w)))); [intros [= <- <-]; discriminate|].
  unfold Sql.insert_short_url.
  destruct (negb (Sql.short_url_fits _ _ _ _)); [intros [= <- <-]; discriminate|].
  destruct (existsb _ _); [intros [= <- <-]; discriminate|].
  destruct (existsb _ _); [intros [= <- <-]; discriminate|].
  destruct (negb _); [intros [= <- <-]; discriminate|].
  cbn [option_map]. unfold bind at 1. unfold getter at 1.
  destruct (protocol req) as [scheme|err]; [|intros [= <- <-]; discriminate].
  unfold json, ret. intros [= <- <-]. cbn [payload].
  intros [= <- _ _]. world_simpl. cbn [short_urls].
  split; [reflexivity|]. split; [exact Hlen|].
  eexists. split; [apply in_or_app; right; left; reflexivity | reflexivity].
Qed.

Lemma generated_slug_has_six_characters_witness :
  response_of (createShortUrl sample_rt shorten_request sample_ctx) sample_w
  = Some (mkResponse 201
            (ShortUrlBody "AAECAw" "http://undefined/s/AAECAw"
               "https://example.com/very/long/url"))
  /\ String.length "AAECAw" = 6%nat.
Proof.
  split; [vm_compute; reflexivity|].
  apply (generated_slug_has_six_characters sample_rt shorten_request sample_ctx sample_w
           (world_after (createShortUrl sample_rt shorten_request sample_ctx) sample_w)
           (mkResponse 201
              (ShortUrlBody "AAECAw" "http://undefined/s/AAECAw"
                 "https://example.com/very/long/url"))
           "AAECAw" "http://undefined/s/AAECAw" "https://example.com/very/long/url");
    [reflexivity | vm_compute; reflexivity | reflexivity].
Defined.

(** ** The schema invariant is kept by every request *)

Section Keeps.

Context (I : World -> Prop).

Lemma keeps_ret {A : Type} (a : A) (Q : A -> Prop) : Q a -> keeps I (ret a) Q.
Proof. intros Ha w Hw. split; assumption. Qed.

Lemma keeps_throw {A : Type} (e : Exn) (Q : A -> Prop) : keeps I (throw e) Q.
Proof. intros w Hw. exact Hw. Qed.

Lemma keeps_bind {A B : Type} (c : IO A) (k : A -> IO B) (Q : A -> Prop) (R : B -> Prop) :
  keeps I c Q -> (forall a, Q a -> keeps I (k a) R) -> keeps I (bind c k) R.
Proof.
  intros Hc Hk w Hw. unfold bind. specialize (Hc w Hw).
  destruct (c w) as [[a|e] w1]; [|exact Hc].
  destruct Hc as [Hw1 Ha]. exact (Hk a Ha w1 Hw1).
Qed.

Lemma keeps_try_catch {A : Type} (c : IO A) (h : Exn -> IO A) (Q : A -> Prop) :
  keeps I c Q -> (forall e, keeps I (h e) Q) -> keeps I (try_catch c h) Q.
Proof.
  intros Hc Hh w Hw. unfold try_catch. specialize (Hc w Hw).
  destruct (c w) as [[a|e] w1]; [exact Hc|]. exact (Hh e w1 Hc).
Qed.

Lemma keeps_weaken {A : Type} (c : IO A) (Q R : A -> Prop) :
  keeps I c Q -> (forall a, Q a -> R a) -> keeps I c R.
Proof.
  intros Hc HQR w Hw. specialize (Hc w Hw).
  destruct (c w) as [[a|e] w1]; [|exact Hc]. destruct Hc. split; auto.
Qed.

Lemma keeps_mapM {A B : Type} (f : A -> IO B) (l : list A) :
  (forall x, keeps I (f x) (fun _ => True)) -> keeps I (mapM f l) (fun _ => True).
Proof.
  intros Hf. induction l as [|x l IH]; cbn [mapM].
  - apply keeps_ret. exact Logic.I.
  - eapply keeps_bind; [apply Hf|]. intros y _.
    eapply keeps_bind; [apply IH|]. intros ys _. apply keeps_ret. exact Logic.I.
Qed.

End Keeps.

Lemma keeps_json (code : Z) (b : Body) : keeps schema_inv (json code b) (fun _ => True).
Proof. apply keeps_ret. exact I. Qed.

Lemma keeps_db_call (op : IoOp) : keeps schema_inv (db_call op) (fun _ => True).
Proof.
  intros w Hw. unfold db_call. destruct (db_fault w (db_calls w)); [exact Hw|].
  split; [exact Hw | exact I].
Qed.

Lemma keeps_clock_read : keeps schema_inv clock_read (fun _ => True).
Proof. intros w Hw. split; [exact Hw | exact I]. Qed.

Lemma keeps_getter {A : Type} (o : Outcome A) : keeps schema_inv (getter o) (fun _ => True).
Proof. intros w Hw. unfold getter. destruct o; [split; [exact Hw | exact I] | exact Hw]. Qed.

Lemma keeps_others_quiet : keeps schema_inv (others_write (fun s => s)) (fun _ => True).
Proof. intros w Hw. unfold others_write. split; [|exact I]. destruct w. exact Hw. Qed.

Lemma keeps_randomBytes (n : nat) :
  keeps schema_inv (randomBytes n) (fun bs => List.length bs = n).
Proof.
  intros w Hw. split; [exact Hw|]. apply (randomBytes_length n w).
Qed.

Lemma keeps_genId : keeps schema_inv Keygen.genId (fun _ => True).
Proof.
  eapply keeps_bind; [apply keeps_randomBytes|]. intros bs _. apply keeps_ret. exact I.
Qed.

Lemma keeps_genApiKey :
  keeps schema_inv (Keygen.genApiKey 32) (fun k => String.length k = 64%nat).
Proof.
  eapply keeps_bind; [apply keeps_randomBytes|]. intros bs Hbs. apply keeps_ret.
  rewrite hex_length, Hbs. reflexivity.
Qed.

Lemma keeps_execute {A : Type} (sql : string) (stmt : Z -> Store -> option (A * Store)) :
  (forall now s a s', store_wf s -> stmt now s = Some (a, s') -> store_wf s') ->
  keeps schema_inv (execute sql stmt) (fun _ => True).
Proof.
  intros Hstmt w [Hs Ht]. rewrite execute_run.
  destruct (db_fault w (db_calls w)); [exact (conj Hs Ht)|].
  destruct (stmt _ _) as [[a s']|] eqn:E; [|exact (conj Hs Ht)].
  split; [|exact I]. split; [|exact Ht]. exact (Hstmt _ _ _ _ Hs E).
Qed.

Lemma keeps_select {A : Type} (sql : string) (q : Z -> Store -> A) :
  keeps schema_inv (select sql q) (fun _ => True).
Proof. apply keeps_execute. intros now s a s' Hs [= _ <-]. exact Hs. Qed.

Lemma keeps_insert_into (sql : string) (ins : Z -> Store -> option Store) :
  (forall now s s', store_wf s -> ins now s = Some s' -> store_wf s') ->
  keeps schema_inv (insert_into sql ins) (fun _ => True).
Proof.
  intros Hins. apply keeps_execute. intros now s a s' Hs E.
  destruct (ins now s) as [s0|] eqn:E0; [|discriminate].
  injection E as _ <-. exact (Hins _ _ _ Hs E0).
Qed.

Lemma keeps_beginTransaction : keeps schema_inv beginTransaction (fun _ => True).
Proof.
  intros w [Hs Ht]. unfold beginTransaction, bind, db_call.
  destruct (db_fault w (db_calls w)); [exact (conj Hs Ht)|].
  split; [|exact I]. split; [exact Hs|]. intros s [= <-]. exact Hs.
Qed.

Lemma keeps_commit : keeps schema_inv commit (fun _ => True).
Proof.
  intros w [Hs Ht]. unfold commit, bind, db_call.
  destruct (db_fault w (db_calls w)); [exact (conj Hs Ht)|].
  split; [|exact I]. split; [exact Hs|]. intros s [=].
Qed.

Lemma keeps_rollback : keeps schema_inv rollback (fun _ => True).
Proof.
  intros w [Hs Ht]. unfold rollback, db_call.
  assert (Hw1 : schema_inv match txn w with
                           | Some s => set_txn None (set_store s w)
                           | None => w
                           end).
  { destruct (txn w) as [s|] eqn:E.
    - split; [exact (Ht s eq_refl) | intros s' [=]].
    - split; [exact Hs | intros s' Hs'; rewrite E in Hs'; discriminate]. }
  destruct (db_fault _ _); [exact Hw1 | split; [exact Hw1 | exact I]].
Qed.

Lemma keeps_getRedis : keeps schema_inv getRedis (fun _ => True).
Proof. intros w Hw. split; [exact Hw | exact I]. Qed.

Lemma keeps_read_cache (rt : Runtime) (b : bool) (key : string) :
  keeps schema_inv (read_cache rt b key) (fun _ => True).
Proof.
  intros w Hw. unfold read_cache. destruct b; [|split; [exact Hw | exact I]].
  unfold try_catch, bind, redis_get.
  destruct (redis w) as [r|]; [|split; [exact Hw | exact I]].
  destruct (get_fault r); [split; [exact Hw | exact I]|].
  destruct (param_or_null _) as [text|]; [|split; [exact Hw | exact I]].
  destruct (JSON_parse rt text); split; first [exact Hw | exact I].
Qed.

Lemma keeps_write_cache (rt : Runtime) (b : bool) (key : string) (result : Summary) :
  keeps schema_inv (write_cache rt b key result) (fun _ => True).
Proof.
  intros w Hw. unfold write_cache. destruct b; [|split; [exact Hw | exact I]].
  unfold try_catch, bind, getenv_CACHE_TTL_SEC, redis_setEx.
  destruct (redis w) as [r|];
    destruct (ParseInt.parseInt10 _) as [t|];
    try (destruct (set_fault r || (t <=? 0)));
    split; first [exact Hw | exact I].
Qed.

Lemma store_wf_same (s s' : Store) :
  apps s' = apps s -> api_keys s' = api_keys s -> store_wf s -> store_wf s'.
Proof. unfold store_wf. intros -> ->. exact id. Qed.

Lemma insert_app_wf (id name : string) (d : option string) (now : Z) (s s' : Store) :
  store_wf s -> Sql.insert_app id name d now s = Some s' -> store_wf s'.
Proof.
  intros (Hnd & Hfk & Hlen). unfold Sql.insert_app, Sql.has_app.
  destruct (negb (Sql.app_fits id name d)); [discriminate|].
  destruct (existsb _ _) eqn:E; [discriminate|]. intros [= <-].
  unfold store_wf. cbn [apps api_keys]. rewrite List.map_app. cbn [List.map].
  split; [|split; [|exact Hlen]].
  - apply NoDup_app. split; [exact Hnd|]. split; [|apply NoDup_singleton].
    intros x Hx Hx'. apply list_elem_of_singleton in Hx'. subst x.
    apply list_elem_of_In, in_map_iff in Hx as (a & Ha & Hin).
    rewrite existsb_false in E. specialize (E a Hin). apply str_eqb_neq in E. contradiction.
  - eapply Forall_impl; [exact Hfk|]. intros k Hk. cbn beta in *.
    apply elem_of_app. left. exact Hk.
Qed.

Lemma insert_api_key_wf (id a key : string) (now : Z) (s s' : Store) :
  String.length key = 64%nat ->
  store_wf s -> Sql.insert_api_key id a key now s = Some s' -> store_wf s'.
Proof.
  intros Hkey (Hnd & Hfk & Hlen). unfold Sql.insert_api_key, Sql.has_app.
  destruct (negb (Sql.api_key_fits id a key)); [discriminate|].
  destruct (existsb _ _); [discriminate|].
  destruct (existsb _ _); [discriminate|].
  destruct (existsb (fun x => Sql.str_eqb (app_id x) a) (apps s)) eqn:E; [|discriminate].
  cbn [negb]. intros [= <-]. unfold store_wf. cbn [apps api_keys].
  split; [exact Hnd|]. split; apply Forall_app; (split; [assumption|]);
    apply Forall_singleton; cbn [key_app_id key_api_key]; [|exact Hkey].
  apply existsb_exists in E as (x & Hx & Ex). apply str_eqb_eq in Ex. subst a.
  apply list_elem_of_In. apply in_map. exact Hx.
Qed.

Lemma update_keys_wf (f : ApiKey -> bool) (now : Z) (s : Store) :
  store_wf s -> store_wf (snd (Sql.update_keys f now s)).
Proof.
  intros (Hnd & Hfk & Hlen). unfold Sql.update_keys, store_wf. cbn [snd apps api_keys].
  split; [exact Hnd|]. rewrite !Forall_forall in *.
  split; intros k' Hk'; apply list_elem_of_In, in_map_iff in Hk' as (k & <- & Hk);
    apply list_elem_of_In in Hk; destruct (f k); cbn [Sql.revoke_row key_app_id key_api_key];
    auto.
Qed.

Lemma insert_event_wf (e : Event) (s s' : Store) :
  store_wf s -> Sql.insert_event e s = Some s' -> store_wf s'.
Proof.
  intros Hs. unfold Sql.insert_event.
  destruct (negb (Sql.event_fits e)); [discriminate|].
  destruct (existsb _ _); [discriminate|].
  destruct (negb _); [discriminate|]. destruct (negb _); [discriminate|].
  intros [= <-]. exact (store_wf_same s _ eq_refl eq_refl Hs).
Qed.

Lemma insert_short_url_wf (id a slug url : string) (now : Z) (s s' : Store) :
  store_wf s -> Sql.insert_short_url id a slug url now s = Some s' -> store_wf s'.
Proof.
  intros Hs. unfold Sql.insert_short_url.
  destruct (negb (Sql.short_url_fits id a slug url)); [discriminate|].
  destruct (existsb _ _); [discriminate|]. destruct (existsb _ _); [discriminate|].
  destruct (negb _); [discriminate|].
  intros [= <-]. exact (store_wf_same s _ eq_refl eq_refl Hs).
Qed.

(** One step of a handler: a primitive, a branch or a sequence. *)
Ltac keeps_step :=
  first
    [ apply keeps_json
    | apply keeps_ret; exact I
    | apply keeps_throw
    | apply keeps_db_call
    | apply keeps_select
    | apply keeps_genId
    | apply keeps_beginTransaction
    | apply keeps_commit
    | apply keeps_rollback
    | apply keeps_getRedis
    | apply keeps_read_cache
    | apply keeps_write_cache
    | apply keeps_clock_read
    | apply keeps_getter
    | apply keeps_others_quiet
    | apply keeps_try_catch; [|intros ?]
    | apply keeps_bind with (Q := fun _ => True); [|intros ? _]
    | match goal with
      | |- keeps _ (if ?b then _ else _) _ => destruct b
      | |- keeps _ (match ?x with _ => _ end) _ => destruct x
      end ].

Lemma keeps_apiKeyAuth (req : Request) : keeps schema_inv (apiKeyAuth req) (fun _ => True).
Proof. unfold apiKeyAuth, getPool. repeat keeps_step. Qed.

Lemma keeps_protected (req : Request) (handler : Request -> AuthContext -> IO Response) :
  (forall r ctx, keeps schema_inv (handler r ctx) (fun _ => True)) ->
  keeps schema_inv (protected req handler) (fun _ => True).
Proof.
  intros H. unfold protected. eapply keeps_bind; [apply keeps_apiKeyAuth|].
  intros [resp|ctx] _; [apply keeps_ret; exact I | apply H].
Qed.

Lemma keeps_registerApp (req : Request) : keeps schema_inv (registerApp req) (fun _ => True).
Proof.
  unfold registerApp, internal_error, getPool, getConnection.
  apply keeps_try_catch; [|intros ?; keeps_step].
  destruct (_ || _ || _); [keeps_step|].
  do 2 (eapply keeps_bind; [apply keeps_db_call|]; intros _ _).
  apply keeps_try_catch; [|intros ?; repeat keeps_step].
  eapply keeps_bind; [apply keeps_beginTransaction|]. intros _ _.
  eapply keeps_bind; [apply keeps_genId|]. intros appId _.
  eapply keeps_bind.
  { apply keeps_insert_into. intros now s s' Hs. apply insert_app_wf. exact Hs. }
  intros _ _.
  eapply keeps_bind; [apply keeps_genId|]. intros apiKeyId _.
  eapply keeps_bind; [apply keeps_genApiKey|]. intros apiKey Hkey.
  eapply keeps_bind.
  { apply keeps_insert_into. intros now s s' Hs. apply insert_api_key_wf; assumption. }
  intros _ _. repeat keeps_step.
Qed.

Lemma keeps_getApiKey (req : Request) : keeps schema_inv (getApiKey req) (fun _ => True).
Proof. unfold getApiKey, internal_error, getPool. repeat keeps_step. Qed.

Lemma keeps_revokeKey (req : Request) : keeps schema_inv (revokeKey req) (fun _ => True).
Proof.
  unfold revokeKey, internal_error, getPool.
  apply keeps_try_catch; [|intros ?; keeps_step].
  destruct (negb _); [keeps_step|].
  eapply keeps_bind; [apply keeps_db_call|]. intros _ _.
  eapply keeps_bind.
  { apply keeps_execute. intros now s a s' Hs [= _ <-].
    apply (update_keys_wf _ now s Hs). }
  intros n _. repeat keeps_step.
Qed.

Lemma keeps_regenerateKey (req : Request) :
  keeps schema_inv (regenerateKey req) (fun _ => True).
Proof.
  unfold regenerateKey, internal_error, getPool, getConnection.
  apply keeps_try_catch; [|intros ?; keeps_step].
  destruct (negb _); [keeps_step|].
  do 2 (eapply keeps_bind; [apply keeps_db_call|]; intros _ _).
  apply keeps_try_catch; [|intros ?; repeat keeps_step].
  eapply keeps_bind; [apply keeps_beginTransaction|]. intros _ _.
  eapply keeps_bind.
  { apply keeps_execute. intros now s a s' Hs [= _ <-].
    apply (update_keys_wf _ now s Hs). }
  intros _ _.
  eapply keeps_bind; [apply keeps_genId|]. intros apiKeyId _.
  eapply keeps_bind; [apply keeps_genApiKey|]. intros apiKey Hkey.
  eapply keeps_bind.
  { apply keeps_insert_into. intros now s s' Hs. apply insert_api_key_wf; assumption. }
  intros _ _. repeat keeps_step.
Qed.

Lemma keeps_collectEvent (rt : Runtime) (req : Request) (ctx : AuthContext) :
  keeps schema_inv (collectEvent rt req ctx) (fun _ => True).
Proof.
  unfold collectEvent, internal_error, getPool.
  apply keeps_try_catch; [|intros ?; keeps_step].
  destruct (_ || _ || _); [keeps_step|]. destruct (_ || _ || _); [keeps_step|].
  eapply keeps_bind; [apply keeps_db_call|]. intros _ _.
  eapply keeps_bind; [apply keeps_genId|]. intros eventId _.
  eapply keeps_bind; [apply keeps_getter|]. intros address _.
  eapply keeps_bind.
  { apply keeps_insert_into. intros now s s' Hs. apply insert_event_wf. exact Hs. }
  intros _ _. keeps_step.
Qed.

Lemma keeps_resolve_range (rt : Runtime) (req : Request) :
  keeps schema_inv (resolve_range rt req) (fun _ => True).
Proof. unfold resolve_range, resolve_end, resolve_start. repeat keeps_step. Qed.

Lemma keeps_eventSummary (rt : Runtime) (req : Request) :
  keeps schema_inv (eventSummary rt req) (fun _ => True).
Proof.
  unfold eventSummary, eventSummary_between, internal_error, getPool.
  apply keeps_try_catch; [|intros ?; keeps_step].
  destruct (negb _); [keeps_step|].
  eapply keeps_bind; [apply keeps_resolve_range|]. intros [[start|] [end_|]] _;
    repeat keeps_step.
Qed.

Lemma keeps_userStats (rt : Runtime) (req : Request) :
  keeps schema_inv (userStats rt req) (fun _ => True).
Proof.
  unfold userStats, userStats_between, delivered_properties, internal_error, getPool.
  apply keeps_try_catch; [|intros ?; keeps_step].
  destruct (negb _); [keeps_step|].
  eapply keeps_bind; [apply keeps_db_call|]. intros _ _.
  eapply keeps_bind; [apply keeps_select|]. intros [|stats rows] _; [keeps_step|].
  eapply keeps_bind; [apply keeps_others_quiet|]. intros _ _.
  eapply keeps_bind; [apply keeps_select|]. intros recent _.
  eapply keeps_bind; [|intros ? _; keeps_step].
  apply keeps_mapM. intros event. repeat keeps_step.
Qed.

Lemma keeps_createShortUrl (rt : Runtime) (req : Request) (ctx : AuthContext) :
  keeps schema_inv (createShortUrl rt req ctx) (fun _ => True).
Proof.
  unfold createShortUrl, internal_error, getPool.
  apply keeps_try_catch; [|intros ?; keeps_step].
  destruct (_ || _ || _); [keeps_step|]. destruct (negb _); [keeps_step|].
  eapply keeps_bind; [apply keeps_db_call|]. intros _ _.
  eapply keeps_bind.
  { instantiate (1 := fun _ => True). destruct (negb _); [|keeps_step].
    eapply keeps_bind; [apply keeps_randomBytes|]. intros bs _. keeps_step. }
  intros finalSlug _.
  eapply keeps_bind; [apply keeps_select|]. intros existing _.
  destruct (0 <? _)%nat; [keeps_step|].
  eapply keeps_bind; [apply keeps_genId|]. intros shortUrlId _.
  eapply keeps_bind.
  { apply keeps_insert_into. intros now s s' Hs. apply insert_short_url_wf. exact Hs. }
  intros _ _. repeat keeps_step.
Qed.

Lemma keeps_redirectShortUrl (rt : Runtime) (slug : string) (req : Request) :
  keeps schema_inv (redirectShortUrl rt slug req) (fun _ => True).
Proof.
  unfold redirectShortUrl, internal_error, getPool.
  apply keeps_try_catch; [|intros ?; keeps_step].
  eapply keeps_bind; [apply keeps_db_call|]. intros _ _.
  eapply keeps_bind; [apply keeps_select|]. intros [|shortUrl rows] _; [keeps_step|].
  eapply keeps_bind.
  { apply keeps_execute. intros now s a s' Hs [= _ <-].
    exact (store_wf_same s _ eq_refl eq_refl Hs). }
  intros _ _.
  eapply keeps_bind; [apply keeps_select|]. intros apiKeys _.
  eapply keeps_bind; [|intros _ _; keeps_step].
  instantiate (1 := fun _ => True).
  destruct apiKeys as [|keyId rest]; [keeps_step|].
  eapply keeps_bind; [apply keeps_genId|]. intros eventId _.
  eapply keeps_bind; [repeat keeps_step|]. intros address _.
  apply keeps_insert_into. intros now s s' Hs. apply insert_event_wf. exact Hs.
Qed.

Lemma safe_route_route (m : Method) (pattern : list string) (handler : IO Response)
    (req : Request) (sub : list string) :
  keeps schema_inv handler (fun _ => True) -> safe_route (route m pattern handler req sub).
Proof.
  intros H c. unfold route. destruct (bool_decide _); [|discriminate].
  intros [= <-]. exact H.
Qed.

Lemma safe_route_first_match (l : list (option (IO Response))) :
  Forall safe_route l -> safe_route (first_match l).
Proof.
  induction 1 as [|o l Ho Hl IH]; intros c; cbn [first_match]; [discriminate|].
  destruct o as [h|]; [exact (Ho c) | exact (IH c)].
Qed.

Lemma safe_route_mounted (prefix : list string)
    (router : list string -> option (IO Response)) (p : list string) :
  (forall sub, safe_route (router sub)) -> safe_route (mounted prefix router p).
Proof.
  intros H c. unfold mounted. destruct (bool_decide _); [apply H | discriminate].
Qed.

Lemma safe_auth_routes (req : Request) (sub : list string) : safe_route (auth_routes req sub).
Proof.
  apply safe_route_first_match. repeat constructor; apply safe_route_route.
  - apply keeps_registerApp.
  - apply keeps_getApiKey.
  - apply keeps_revokeKey.
  - apply keeps_regenerateKey.
Qed.

Lemma safe_analytics_routes (rt : Runtime) (req : Request) (sub : list string) :
  safe_route (analytics_routes rt req sub).
Proof.
  apply safe_route_first_match. repeat constructor; apply safe_route_route.
  - apply keeps_protected. intros r ctx. apply keeps_collectEvent.
  - apply keeps_eventSummary.
Qed.

Lemma safe_shorturl_routes (rt : Runtime) (req : Request) (sub : list string) :
  safe_route (shorturl_routes rt req sub).
Proof.
  apply safe_route_first_match. repeat constructor.
  - apply safe_route_route. apply keeps_protected. intros r ctx.
    apply keeps_createShortUrl.
  - destruct sub as [|slug [|]]; try (intros c; discriminate).
    apply safe_route_route. apply keeps_redirectShortUrl.
Qed.

(** Whatever the request and whatever fails on the way, the application
    leaves the credential tables within the constraints of the schema, with
    every secret 64 characters long. *)
Theorem app_keeps_schema (rt : Runtime) (req : Request) (w : World) :
  schema_inv w -> schema_inv (world_after (app rt req) w).
Proof.
  intros Hw. unfold world_after.
  assert (H : keeps schema_inv (app rt req) (fun _ => True)).
  { unfold app.
    assert (Hsafe : safe_route
              (first_match
                 [ route GET ["health"] (health rt) req (path req);
                   mounted ["api"; "auth"] (auth_routes req) (path req);
                   mounted ["api"; "analytics"] (analytics_routes rt req) (path req);
                   mounted ["api"] (shorturl_routes rt req) (path req);
                   mounted ["s"] (shorturl_routes rt req) (path req);
                   route GET [] (json 200 RootBody) req (path req);
                   mounted ["docs"] (fun _ => Some (json 200 DocsBody)) (path req);
                   route GET ["docs.json"] (json 200 DocsBody) req (path req) ])).
    { apply safe_route_first_match. repeat constructor.
      - apply safe_route_route. unfold health. repeat keeps_step.
      - apply safe_route_mounted. apply safe_auth_routes.
      - apply safe_route_mounted. apply safe_analytics_routes.
      - apply safe_route_mounted. apply safe_shorturl_routes.
      - apply safe_route_mounted. apply safe_shorturl_routes.
      - apply safe_route_route. apply keeps_json.
      - apply safe_route_mounted. intros _ c [= <-]. apply keeps_json.
      - apply safe_route_route. apply keeps_json. }
    cbv zeta. destruct (first_match _) as [handler|]; [apply Hsafe; reflexivity|].
    apply keeps_json. }
  specialize (H w Hw). destruct (app rt req w) as [[resp|e] w']; [apply H | exact H].
Qed.

(** X30: every store that the application reaches from a well-formed one,
    for instance from the empty store, is well-formed: whatever requests
    are served, in whatever order and with whatever failures, application
    ids stay unique, every credential belongs to an application, and every
    secret has 64 characters. *)
Corollary served_store_wf (rt : Runtime) (reqs : list Request) (w : World) :
  schema_inv w -> store_wf (store (serve rt reqs w)).
Proof.
  revert w. induction reqs as [|req rest IH]; intros w Hw; cbn [serve].
  - exact (proj1 Hw).
  - apply IH. apply app_keeps_schema. exact Hw.
Qed.

Lemma empty_world_schema (w : World) :
  store w = empty_store -> txn w = None -> schema_inv w.
Proof.
  intros Hs Ht. split.
  - rewrite Hs. unfold store_wf, empty_store. cbn [apps api_keys List.map].
    repeat split; constructor.
  - intros s. rewrite Ht. discriminate.
Qed.

(** ** What [userStats] does once it is called *)

Lemma mapM_pure {A B : Type} (f : A -> IO B) (g : A -> B) (l : list A) (w : World) :
  (forall x, In x l -> f x w = (Ok (g x), w)) -> mapM f l w = (Ok (List.map g l), w).
Proof.
  induction l as [|x l IH]; intros H; cbn [mapM List.map]; [reflexivity|].
  unfold bind at 1. rewrite (H x (or_introl eq_refl)).
  unfold bind at 1. rewrite IH by (intros y Hy; apply H; right; exact Hy).
  reflexivity.
Qed.

Lemma order_by_desc_nonempty {A : Type} (key : A -> Z) (l : list A) :
  l <> [] -> Sql.order_by_desc key l <> [].
Proof.
  intros Hl Hnil. apply Hl. apply Permutation_nil.
  rewrite <- Hnil. apply order_by_desc_perm.
Qed.

Lemma group_by_ip_rows (l : list Event) (g : Sql.UserGroupRow) :
  In g (Sql.group_by_ip l) ->
  1 <= Sql.ug_total_events g <= Z.of_nat (List.length l).
Proof.
  unfold Sql.group_by_ip. intros Hg. apply in_flat_map in Hg as (ip & _ & Hg).
  pose proof (List.filter_length_le (fun e => bool_decide (ev_ip_address e = ip)) l) as Hle.
  rewrite <- (length_map ev_timestamp) in Hle.
  destruct (List.map ev_timestamp (List.filter _ l)) as [|t ts]; [destruct Hg|].
  destruct Hg as [<- | []]. cbn [Sql.ug_total_events]. simpl in Hle. lia.
Qed.

Lemma group_by_ip_nonempty (l : list Event) : l <> [] -> Sql.group_by_ip l <> [].
Proof.
  destruct l as [|e l]; [contradiction|]. intros _ Hnil.
  assert (Hin : ev_ip_address e ∈ remove_dups (List.map ev_ip_address (e :: l))).
  { apply elem_of_remove_dups. left. }
  apply list_elem_of_In in Hin.
  assert (Hg : exists g, In g (Sql.group_by_ip (e :: l))).
  { unfold Sql.group_by_ip.
    destruct (List.map ev_timestamp
                (List.filter (fun x => bool_decide (ev_ip_address x = ev_ip_address e))
                   (e :: l))) as [|t ts] eqn:E.
    - exfalso. cbn [List.filter] in E.
      rewrite bool_decide_eq_true_2 in E by reflexivity. discriminate.
    - eexists. apply in_flat_map. exists (ev_ip_address e). split; [exact Hin|].
      rewrite E. left. reflexivity. }
  destruct Hg as (g & Hg). rewrite Hnil in Hg. destruct Hg.
Qed.

(** The handler, for a user with [N > 0] events whose properties it can
    report: 200, at most ten recent events, newest first, and [total_events]
    the size of one address group, between 1 and [N]. *)
Lemma userStats_found (rt : Runtime) (req : Request) (w : World) :
  truthy_param (query req !! "user_id") = true ->
  db_ok w ->
  user_events req (store w) <> [] ->
  Forall (properties_readable rt) (user_events req (store w)) ->
  exists stats,
    response_of (userStats rt req) w = Some (mkResponse 200 (UserStatsBody stats))
    /\ (List.length (us_recent_events stats) <= 10)%nat
    /\ List.length (us_recent_events stats)
       = Nat.min 10 (List.length (user_events req (store w)))
    /\ StronglySorted (descending re_timestamp) (us_recent_events stats)
    /\ 1 <= us_total_events stats <= Z.of_nat (List.length (user_events req (store w))).
Proof.
  intros Hu Hok Hsome Hparse. unfold response_of, userStats, userStats_between.
  unfold try_catch.
  rewrite Hu. cbn [negb].
  unfold bind at 1. unfold getPool. rewrite db_call_ok by apply Hok.
  unfold bind at 1. rewrite select_ok by apply Hok. world_simpl.
  unfold Sql.select_user_stats. fold (user_events req (store w)).
  set (l := user_events req (store w)) in *.
  destruct (Sql.order_by_desc Sql.ug_last_seen (Sql.group_by_ip l)) as [|stats rest] eqn:Eg.
  { exfalso. apply (order_by_desc_nonempty Sql.ug_last_seen (Sql.group_by_ip l));
      [apply group_by_ip_nonempty; exact Hsome | exact Eg]. }
  cbn [Sql.limit firstn].
  assert (Hstats : In stats (Sql.group_by_ip l)).
  { apply (Permutation_in stats (order_by_desc_perm Sql.ug_last_seen (Sql.group_by_ip l))).
    rewrite Eg. left. reflexivity. }
  apply group_by_ip_rows in Hstats.
  unfold bind at 1. unfold others_write at 1.
  unfold bind at 1. rewrite select_ok by apply Hok. world_simpl.
  unfold Sql.select_recent_events. fold (user_events req (store w)). fold l.
  set (rows := Sql.limit 10 _).
  unfold bind at 1.
  rewrite (mapM_pure _ (recent_entry rt)).
  2:{ intros r Hr. unfold recent_entry.
      apply limit_In in Hr.
      apply (Permutation_in r (order_by_desc_perm Sql.rr_timestamp _)) in Hr.
      apply in_map_iff in Hr as (e & <- & He).
      rewrite Forall_forall in Hparse. apply list_elem_of_In in He.
      specialize (Hparse e He). unfold properties_readable in Hparse.
      cbn [Sql.rr_properties Sql.rr_event_name Sql.rr_timestamp].
      unfold bind, delivered_properties, reported_properties in *.
      destruct (ev_properties e) as [text|]; [|reflexivity].
      destruct (JSON_parse rt text) as [v|]; [|contradiction].
      unfold ret. destruct (truthy v); [|reflexivity].
      destruct (JSON_parse_value rt v); [reflexivity | contradiction]. }
  eexists. split; [reflexivity|]. cbn [us_recent_events us_total_events].
  assert (Hlen : List.length rows = Nat.min 10 (List.length l)).
  { unfold rows, Sql.limit. rewrite length_firstn.
    rewrite (Permutation_length (order_by_desc_perm Sql.rr_timestamp _)), length_map.
    reflexivity. }
  rewrite length_map. split; [lia|]. split; [exact Hlen|]. split.
  - apply (sorted_map Sql.rr_timestamp); [reflexivity|].
    apply limit_sorted. apply order_by_desc_sorted.
  - rewrite parseInt_num_id by lia. exact Hstats.
Qed.

(** * Further properties of the code *)

(** ** Keys *)

(** A property of the sixteen values of a nibble. *)
Lemma nibble_cases (P : Z -> Prop) :
  (forall k : nat, (k < 16)%nat -> P (Z.of_nat k)) -> forall n, 0 <= n < 16 -> P n.
Proof. intros H n Hn. rewrite <- (Z2Nat.id n) by lia. apply H. lia. Qed.

Lemma hex_digit_code (n : Z) :
  0 <= n < 16 ->
  Z.of_nat (nat_of_ascii (Encoding.hex_digit n)) = if n <? 10 then 48 + n else 87 + n.
Proof.
  revert n. apply nibble_cases. intros k Hk.
  do 16 (destruct k as [|k]; [reflexivity|]). lia.
Qed.

Lemma hex_digit_is_hex (n : Z) : 0 <= n < 16 -> is_hex_char (Encoding.hex_digit n) = true.
Proof.
  intros H. pose proof (hex_digit_code n H) as Hc. unfold is_hex_char.
  destruct (Z.ltb_spec n 10).
  - apply orb_true_iff. left. apply andb_true_iff. split; apply Nat.leb_le; lia.
  - apply orb_true_iff. right. apply andb_true_iff. split; apply Nat.leb_le; lia.
Qed.

Lemma hex_digit_inj (n m : Z) :
  0 <= n < 16 -> 0 <= m < 16 -> Encoding.hex_digit n = Encoding.hex_digit m -> n = m.
Proof.
  intros Hn Hm E.
  pose proof (hex_digit_code n Hn) as Cn. pose proof (hex_digit_code m Hm) as Cm.
  rewrite E in Cn. rewrite Cm in Cn.
  destruct (Z.ltb_spec n 10); destruct (Z.ltb_spec m 10); lia.
Qed.

Lemma byte_nibbles (b : Z) :
  0 <= b < 256 ->
  0 <= Z.shiftr b 4 < 16 /\ 0 <= Z.land b 15 < 16 /\ b = 16 * Z.shiftr b 4 + Z.land b 15.
Proof.
  intros H. rewrite Z.shiftr_div_pow2 by lia.
  change 15 with (Z.ones 4). rewrite Z.land_ones by lia.
  change (2 ^ 4) with 16.
  pose proof (Z.div_mod b 16 ltac:(lia)). pose proof (Z.mod_pos_bound b 16 ltac:(lia)).
  split; [split; [apply Z.div_pos; lia | apply Z.div_lt_upper_bound; lia]|].
  split; lia.
Qed.

Lemma hex_chars (bs : list Z) :
  Forall (fun b => 0 <= b < 256) bs ->
  Forall (fun c => is_hex_char c = true) (list_ascii_of_string (Encoding.hex bs)).
Proof.
  induction 1 as [|b bs Hb _ IH]; cbn [Encoding.hex list_ascii_of_string]; [constructor|].
  destruct (byte_nibbles b Hb) as (Hh & Hl & _).
  repeat constructor; [apply hex_digit_is_hex; exact Hh | apply hex_digit_is_hex; exact Hl|].
  exact IH.
Qed.

Lemma hex_inj (bs bs' : list Z) :
  Forall (fun b => 0 <= b < 256) bs -> Forall (fun b => 0 <= b < 256) bs' ->
  Encoding.hex bs = Encoding.hex bs' -> bs = bs'.
Proof.
  intros H. revert bs'. induction H as [|b bs Hb _ IH]; intros bs' H' E.
  - destruct bs'; [reflexivity | discriminate E].
  - destruct H' as [|b' bs' Hb' H']; [discriminate E|].
    cbn [Encoding.hex] in E. injection E as E1 E2 E3.
    destruct (byte_nibbles b Hb) as (Hh & Hl & Eb).
    destruct (byte_nibbles b' Hb') as (Hh' & Hl' & Eb').
    apply hex_digit_inj in E1; [|assumption..].
    apply hex_digit_inj in E2; [|assumption..].
    f_equal; [lia | apply IH; assumption].
Qed.

Lemma next_bytes_range (n : nat) (w : World) :
  Forall (fun b => 0 <= b < 256) (next_bytes n w).
Proof.
  unfold next_bytes. apply Forall_forall. intros b Hb.
  apply list_elem_of_In in Hb. apply in_map_iff in Hb as (i & <- & _).
  apply Z.mod_pos_bound. lia.
Qed.

(** X1: [genApiKey(length)] draws [length] random bytes once and returns
    [2 * length] lower-case hexadecimal digits; the text determines the
    bytes, so two keys are equal only when the bytes drawn were. *)
Theorem genApiKey_is_lowercase_hex (n : nat) (w : World) :
  exists key,
    Keygen.genApiKey n w = (Ok key, count_draw w)
    /\ String.length key = (2 * n)%nat
    /\ Forall (fun c => is_hex_char c = true) (list_ascii_of_string key)
    /\ forall w2 key2 w2',
         Keygen.genApiKey n w2 = (Ok key2, w2') -> key2 = key ->
         next_bytes n w2 = next_bytes n w.
Proof.
  exists (Encoding.hex (next_bytes n w)).
  split; [reflexivity|]. split; [|split].
  - rewrite hex_length, randomBytes_length. reflexivity.
  - apply hex_chars. apply next_bytes_range.
  - intros w2 key2 w2' Hrun Heq.
    assert (Hk : key2 = Encoding.hex (next_bytes n w2)).
    { unfold Keygen.genApiKey, bind, randomBytes, ret in Hrun.
      injection Hrun as Hk _. symmetry. exact Hk. }
    rewrite Hk in Heq. apply hex_inj in Heq; [exact Heq | apply next_bytes_range..].
Qed.

Lemma genApiKey_is_lowercase_hex_witness :
  exists key,
    fst (Keygen.genApiKey 32 sample_w) = Ok key
    /\ String.length key = 64%nat
    /\ Forall (fun c => is_hex_char c = true) (list_ascii_of_string key).
Proof.
  destruct (genApiKey_is_lowercase_hex 32 sample_w) as (key & Hrun & Hlen & Hhex & _).
  exists key. rewrite Hrun. split; [reflexivity|]. split; [exact Hlen | exact Hhex].
Defined.

(** ** Authentication *)

Lemma truthy_param_true (p : option string) :
  truthy_param p = true <-> exists s, p = Some s /\ s <> "".
Proof.
  destruct p as [s|]; simpl.
  - destruct (String.eqb_spec s ""); simpl; split.
    + discriminate.
    + intros (s' & [= <-] & Hne). contradiction.
    + eauto.
    + reflexivity.
  - split; [discriminate | intros (s & H & _); discriminate].
Qed.

(** The middleware, outcome by outcome. *)
Lemma apiKeyAuth_run (req : Request) (w : World) :
  apiKeyAuth req w
  = if negb (truthy_param (headers req !! "x-api-key")) then (Ok (inl unauthorized_missing), w)
    else if db_fault w (db_calls w)
    then (Ok (inl auth_failed), count_db_call (log_io IoPool w))
    else if db_fault w (S (db_calls w))
    then (Ok (inl auth_failed),
          count_db_call
            (log_io (IoSql "SELECT ... FROM api_keys ak INNER JOIN apps a")
               (count_db_call (log_io IoPool w))))
    else (Ok match Sql.select_valid_key (default "" (headers req !! "x-api-key"))
                     (clock w (clock_reads w)) (store w) with
             | [] => inl unauthorized_invalid
             | keyData :: _ => inr (context_of keyData)
             end,
          set_store (store w)
            (count_clock_read
               (count_db_call
                  (log_io (IoSql "SELECT ... FROM api_keys ak INNER JOIN apps a")
                     (count_db_call (log_io IoPool w)))))).
Proof.
  unfold apiKeyAuth. destruct (negb _); [reflexivity|].
  unfold try_catch, bind at 1. unfold getPool, db_call at 1.
  destruct (db_fault w (db_calls w)); [reflexivity|].
  unfold bind at 1. rewrite select_run. world_simpl.
  destruct (db_fault w (S (db_calls w))); [reflexivity|].
  destruct (Sql.select_valid_key _ _ _); reflexivity.
Qed.

(** The rows of the authentication query: one per valid credential row and
    application it joins. *)
Lemma select_valid_key_In (apiKey : string) (now : Z) (s : Store) (row : Sql.AuthRow) :
  In row (Sql.select_valid_key apiKey now s)
  <-> exists k a,
        In k (api_keys s) /\ valid_key_row apiKey now k = true
        /\ In a (apps s) /\ key_app_id k = app_id a
        /\ row = Sql.mkAuthRow (key_id k) (key_app_id k) (key_api_key k) (key_is_revoked k)
                   (key_expires_at k) (app_name a).
Proof.
  unfold Sql.select_valid_key, valid_key_row. rewrite in_flat_map. split.
  - intros (k & Hk & Hrow). apply filter_In in Hk as [Hk Hv].
    apply in_map_iff in Hrow as (a & <- & Ha). apply filter_In in Ha as [Ha Hj].
    apply str_eqb_eq in Hj. exists k, a. repeat split; assumption.
  - intros (k & a & Hk & Hv & Ha & Hj & ->). exists k. split.
    + apply filter_In. split; assumption.
    + apply in_map_iff. exists a. split; [reflexivity|].
      apply filter_In. split; [exact Ha|]. apply str_eqb_eq. exact Hj.
Qed.

(** A request that the middleware lets through. *)
Lemma apiKeyAuth_accepted (req : Request) (w w' : World) (ctx : AuthContext) :
  apiKeyAuth req w = (Ok (inr ctx), w') ->
  exists apiKey k a,
    presents apiKey req
    /\ In k (api_keys (store w)) /\ key_api_key k = apiKey
    /\ key_is_revoked k = false
    /\ Sql.not_expired (clock w (clock_reads w)) k = true
    /\ In a (apps (store w)) /\ app_id a = key_app_id k
    /\ ctx = mkAuthContext (key_app_id k) (key_id k) (app_name a)
    /\ store w' = store w /\ txn w' = txn w
    /\ clock w' = clock w /\ clock_reads w' = S (clock_reads w)
    /\ db_fault w' = db_fault w /\ db_calls w' = S (S (db_calls w)).
Proof.
  rewrite apiKeyAuth_run.
  destruct (truthy_param (headers req !! "x-api-key")) eqn:Hh; cbn [negb]; [|discriminate].
  apply truthy_param_true in Hh as (apiKey & Hh & Hne). rewrite Hh.
  change (default "" (Some apiKey)) with apiKey.
  destruct (db_fault w (db_calls w)); [discriminate|].
  destruct (db_fault w (S (db_calls w))); [discriminate|].
  destruct (Sql.select_valid_key apiKey _ (store w)) as [|row rest] eqn:Hrows; [discriminate|].
  intros [= <- <-].
  assert (Hin : In row (Sql.select_valid_key apiKey (clock w (clock_reads w)) (store w)))
    by (rewrite Hrows; left; reflexivity).
  apply select_valid_key_In in Hin as (k & a & Hk & Hv & Ha & Hj & ->).
  unfold valid_key_row in Hv. apply andb_true_iff in Hv as [Hv Hexp].
  apply andb_true_iff in Hv as [Hsec Hrev]. apply str_eqb_eq in Hsec.
  apply negb_true_iff in Hrev.
  exists apiKey, k, a. unfold presents, context_of. cbn.
  repeat split; auto.
Qed.

(** X2: a request passes the middleware only with a secret that a row of
    [api_keys] holds, a row that is neither revoked nor expired when the
    statement runs; the context attached to the request is the id of that
    row with the id and name of the application that owns it.  The tables
    are left as they were. *)
Theorem apiKeyAuth_sound (req : Request) (w w' : World) (ctx : AuthContext) :
  apiKeyAuth req w = (Ok (inr ctx), w') ->
  exists apiKey k a,
    presents apiKey req
    /\ In k (api_keys (store w)) /\ key_api_key k = apiKey
    /\ key_is_revoked k = false
    /\ Sql.not_expired (clock w (clock_reads w)) k = true
    /\ In a (apps (store w)) /\ app_id a = key_app_id k
    /\ ctx = mkAuthContext (key_app_id k) (key_id k) (app_name a)
    /\ store w' = store w.
Proof.
  intros Hrun.
  destruct (apiKeyAuth_accepted req w w' ctx Hrun)
    as (apiKey & k & a & Hp & Hk & Hsec & Hrev & Hexp & Ha & Hj & Hctx & Hs & _).
  exists apiKey, k, a. repeat split; try assumption; apply Hp.
Qed.

Lemma apiKeyAuth_sound_witness :
  exists k,
    In k (api_keys sample_store) /\ key_api_key k = sample_secret
    /\ key_is_revoked k = false
    /\ fst (apiKeyAuth collect_plain sample_w)
       = Ok (inr (mkAuthContext (key_app_id k) (key_id k) "Demo")).
Proof.
  destruct (apiKeyAuth_sound collect_plain sample_w
              (world_after (apiKeyAuth collect_plain) sample_w) sample_ctx)
    as (apiKey & k & a & [Hh _] & Hk & Hsec & Hrev & _ & _ & _ & Hctx & _);
    [vm_compute; reflexivity|].
  exists k. split; [exact Hk|].
  assert (Hs : apiKey = sample_secret).
  { assert (Hh' : headers collect_plain !! "x-api-key" = Some sample_secret)
      by (vm_compute; reflexivity).
    rewrite Hh' in Hh. injection Hh as Hh. symmetry. exact Hh. }
  split; [congruence|]. split; [exact Hrev|].
  injection Hctx as H1 H2 _. rewrite <- H1, <- H2. vm_compute. reflexivity.
Defined.

Lemma select_valid_key_none (apiKey : string) (now : Z) (s : Store) :
  (forall k, In k (api_keys s) -> valid_key_row apiKey now k = false) ->
  Sql.select_valid_key apiKey now s = [].
Proof.
  intros H. unfold Sql.select_valid_key.
  rewrite (filter_none _ (api_keys s)); [reflexivity|].
  intros k Hk. apply (H k Hk).
Qed.

Lemma apiKeyAuth_no_valid_row (req : Request) (w : World) (apiKey : string) :
  presents apiKey req ->
  db_fault w (db_calls w) = false ->
  db_fault w (S (db_calls w)) = false ->
  (forall k, In k (api_keys (store w)) ->
             valid_key_row apiKey (clock w (clock_reads w)) k = false) ->
  exists w', apiKeyAuth req w = (Ok (inl unauthorized_invalid), w') /\ store w' = store w.
Proof.
  intros [Hh Hne] F0 F1 Hnone. rewrite apiKeyAuth_run, Hh, F0, F1.
  cbn [truthy_param]. destruct (String.eqb_spec apiKey ""); [contradiction|]. cbn [negb].
  change (default "" (Some apiKey)) with apiKey.
  rewrite select_valid_key_none by exact Hnone.
  eexists. split; reflexivity.
Qed.

(** X3: a secret is refused with 401 when every row that holds it is
    revoked or has expired (and so when no row holds it), provided the two
    database calls of the middleware succeed. *)
Theorem apiKeyAuth_rejects_revoked_and_expired (req : Request) (w : World)
    (apiKey : string) :
  presents apiKey req ->
  db_fault w (db_calls w) = false ->
  db_fault w (S (db_calls w)) = false ->
  (forall k,
     In k (api_keys (store w)) -> key_api_key k = apiKey ->
     key_is_revoked k = true
     \/ exists t, key_expires_at k = Some t /\ t <= clock w (clock_reads w)) ->
  exists w', apiKeyAuth req w = (Ok (inl unauthorized_invalid), w') /\ store w' = store w.
Proof.
  intros Hp F0 F1 Hrows. apply (apiKeyAuth_no_valid_row req w apiKey Hp F0 F1).
  intros k Hk. unfold valid_key_row.
  destruct (Sql.str_eqb (key_api_key k) apiKey) eqn:E; [|reflexivity].
  apply str_eqb_eq in E. destruct (Hrows k Hk E) as [Hrev | (t & Ht & Hle)].
  - rewrite Hrev. reflexivity.
  - unfold Sql.not_expired. rewrite Ht.
    destruct (key_is_revoked k); [reflexivity|]. cbn [negb andb].
    apply Z.ltb_ge. exact Hle.
Qed.

Lemma apiKeyAuth_rejects_revoked_and_expired_witness :
  fst (apiKeyAuth collect_plain (sample_world revoked_store None))
  = Ok (inl unauthorized_invalid).
Proof.
  destruct (apiKeyAuth_rejects_revoked_and_expired collect_plain
              (sample_world revoked_store None) sample_secret)
    as (w' & -> & _); [split; [reflexivity | discriminate] | reflexivity | reflexivity | |].
  - intros k [<- | []] _. left. reflexivity.
  - reflexivity.
Defined.

(** X4: the middleware always answers: it never throws, it never changes
    the tables, its own responses are 401 or 500, and it answers 500 only
    when one of its two database calls failed. *)
Theorem apiKeyAuth_always_answers (req : Request) (w : World) :
  exists r w',
    apiKeyAuth req w = (Ok r, w')
    /\ store w' = store w /\ txn w' = txn w
    /\ match r with
       | inl resp =>
           resp = unauthorized_missing /\ truthy_param (headers req !! "x-api-key") = false
           /\ w' = w
           \/ resp = unauthorized_invalid
           \/ resp = auth_failed
              /\ (db_fault w (db_calls w) = true \/ db_fault w (S (db_calls w)) = true)
       | inr _ => True
       end.
Proof.
  rewrite apiKeyAuth_run.
  destruct (truthy_param (headers req !! "x-api-key")); cbn [negb].
  2:{ do 2 eexists. split; [reflexivity|]. repeat split. left. repeat split. }
  destruct (db_fault w (db_calls w)) eqn:F0.
  { do 2 eexists. split; [reflexivity|]. repeat split. right. right. auto. }
  destruct (db_fault w (S (db_calls w))) eqn:F1.
  { do 2 eexists. split; [reflexivity|]. repeat split. right. right. auto. }
  destruct (Sql.select_valid_key _ _ _); do 2 eexists; (split; [reflexivity|]);
    repeat split. right. left. reflexivity.
Qed.

(** ** Credentials: revoke, register, regenerate *)

(** What a revoke call that is answered 200 did to the tables. *)
Lemma revokeKey_revoked (req : Request) (w w' : World) (resp : Response) :
  revokeKey req w = (Ok resp, w') ->
  status resp = 200 ->
  store w'
  = snd (Sql.revoke_by_id (str_of (body req !! "api_key_id")) (clock w (clock_reads w))
           (store w)).
Proof.
  unfold revokeKey. unfold try_catch at 1.
  destruct (negb _); [intros [= <- <-]; discriminate|].
  unfold bind at 1. unfold getPool, db_call at 1.
  destruct (db_fault w (db_calls w)); [intros [= <- <-]; discriminate|].
  unfold bind at 1. rewrite execute_run. world_simpl.
  destruct (db_fault w (S (db_calls w))); [intros [= <- <-]; discriminate|].
  destruct (Sql.revoke_by_id _ _ _) as [n s'] eqn:E. world_simpl.
  destruct (n =? 0)%nat; intros [= <- <-]; [discriminate|]. intros _. reflexivity.
Qed.

(** X5: once a revoke call for a credential has been answered 200, a
    request that presents the secret of that credential is refused with 401
    (the secret being held by no row with another id, as the unique index
    of the schema has it). *)
Theorem revoked_credential_is_rejected (req : Request) (w w' : World) (resp : Response)
    (id : string) (k : ApiKey) (req2 : Request) (w2 : World) :
  body req !! "api_key_id" = Some (JStr id) ->
  revokeKey req w = (Ok resp, w') ->
  status resp = 200 ->
  In k (api_keys (store w)) ->
  key_id k = id ->
  (forall k', In k' (api_keys (store w)) -> key_api_key k' = key_api_key k -> key_id k' = id) ->
  presents (key_api_key k) req2 ->
  store w2 = store w' ->
  db_fault w2 (db_calls w2) = false ->
  db_fault w2 (S (db_calls w2)) = false ->
  exists w3, apiKeyAuth req2 w2 = (Ok (inl unauthorized_invalid), w3).
Proof.
  intros Hbody Hrun Hst Hk Hid Huniq Hp Hs2 F0 F1.
  pose proof (revokeKey_revoked req w w' resp Hrun Hst) as Hstore.
  rewrite Hbody in Hstore. cbn [str_of sql_text] in Hstore.
  destruct (apiKeyAuth_no_valid_row req2 w2 (key_api_key k) Hp F0 F1) as (w3 & Hauth & _).
  - rewrite Hs2, Hstore. unfold Sql.revoke_by_id, Sql.update_keys. cbn [snd api_keys].
    intros k' Hk'. apply in_map_iff in Hk' as (k0 & <- & Hk0).
    unfold valid_key_row.
    destruct (Sql.str_eqb (key_id k0) id) eqn:E.
    + cbn [Sql.revoke_row key_is_revoked key_api_key negb].
      rewrite andb_false_r. reflexivity.
    + destruct (Sql.str_eqb (key_api_key k0) (key_api_key k)) eqn:E2; [|reflexivity].
      apply str_eqb_eq in E2. apply str_eqb_neq in E.
      exfalso. apply E. apply Huniq; assumption.
  - exists w3. exact Hauth.
Qed.

Lemma revoked_credential_is_rejected_witness :
  fst (apiKeyAuth collect_plain
         (world_after (revokeKey revoke_active_request)
            sample_w))
  = Ok (inl unauthorized_invalid).
Proof.
  set (req := revoke_active_request).
  destruct (revoked_credential_is_rejected req sample_w (world_after (revokeKey req) sample_w)
              (mkResponse 200 (MessageBody "API key revoked successfully."))
              "key-1" (mkApiKey "key-1" "app-1" sample_secret false None 1000 None)
              collect_plain (world_after (revokeKey req) sample_w))
    as (w3 & ->);
    [reflexivity | vm_compute; reflexivity | reflexivity | left; reflexivity | reflexivity
    | | split; [reflexivity | discriminate] | reflexivity | reflexivity | reflexivity |].
  - intros k' [<- | []] _. reflexivity.
  - reflexivity.
Defined.

(** The end of a failed transaction: the tables are those of the snapshot,
    and no transaction is left open. *)
Lemma rollback_throw_run {A : Type} (e : Exn) (w : World) :
  exists e' w',
    (rollback ;; throw (A := A) e)%io w = (Throw e', w')
    /\ store w' = default (store w) (txn w)
    /\ txn w' = None.
Proof.
  unfold bind, rollback, db_call, throw.
  destruct (txn w) as [s|] eqn:Ht; world_simpl;
    destruct (db_fault _ _); do 2 eexists; (split; [reflexivity|]); world_simpl;
    rewrite ?Ht; split; reflexivity.
Qed.

Ltac transaction_fails :=
  match goal with
  | |- context [(rollback ;; throw ?e)%io ?w0] =>
      let e' := fresh "e" in
      let w1 := fresh "w" in
      let Hr := fresh "Hr" in
      let Hs := fresh "Hs" in
      let Ht := fresh "Ht" in
      destruct (rollback_throw_run (A := Response) e w0) as (e' & w1 & Hr & Hs & Ht);
      rewrite Hr; world_simpl
  end.

(** [registerApp], outcome by outcome. *)
Lemma registerApp_cases (req : Request) (w : World) :
  exists resp w',
    registerApp req w = (Ok resp, w')
    /\ (status resp = 201
        /\ (let name := Str.trim (str_of (body req !! "name")) in
            let appId := Keygen.uuid_text (next_bytes 16 w) in
            let keyId := Keygen.uuid_text (next_bytes 16 (count_draw w)) in
            let apiKey := Encoding.hex (next_bytes 32 (count_draw (count_draw w))) in
            payload resp
            = RegisterBody appId apiKey
                "Application registered successfully. Save your API key securely."
            /\ store w'
               = mkStore
                   (apps (store w)
                    ++ [mkApp appId name (or_null (body req !! "description"))
                          (clock w (clock_reads w)) (clock w (clock_reads w))])
                   (api_keys (store w)
                    ++ [mkApiKey keyId appId apiKey false None (clock w (S (clock_reads w)))
                          None])
                   (events (store w)) (short_urls (store w))
            /\ Sql.has_app appId (store w) = false
            /\ existsb (fun k => Sql.str_eqb (key_api_key k) apiKey) (api_keys (store w))
               = false
            /\ txn w' = None)
        \/ status resp = 400 /\ w' = w
           /\ (negb (truthy_field (body req !! "name")) || negb (is_string (body req !! "name"))
               || (String.length (Str.trim (str_of (body req !! "name"))) =? 0)%nat) = true
        \/ status resp = 500
           /\ (txn w = None -> store w' = store w /\ txn w' = None)).
Proof.
  unfold registerApp. unfold try_catch at 1.
  destruct (_ || _ || _) eqn:Hvalid.
  { do 2 eexists. split; [reflexivity|]. right. left. auto. }
  unfold bind at 1. unfold getPool, db_call at 1.
  destruct (db_fault w (db_calls w)).
  { do 2 eexists. split; [reflexivity|]. right. right. world_simpl. auto. }
  unfold bind at 1. unfold getConnection, db_call at 1. world_simpl.
  destruct (db_fault w (S (db_calls w))).
  { do 2 eexists. split; [reflexivity|]. right. right. world_simpl. auto. }
  unfold try_catch at 1.
  unfold bind at 1. unfold beginTransaction at 1, bind at 1, db_call at 1. world_simpl.
  destruct (db_fault w (S (S (db_calls w)))).
  { transaction_fails. do 2 eexists. split; [reflexivity|]. right. right.
    split; [reflexivity|]. intros Hnone. rewrite Hnone in *. auto. }
  unfold bind at 1. rewrite genId_run. world_simpl.
  set (appId := Keygen.uuid_text _).
  unfold bind at 1. unfold insert_into at 1. rewrite execute_run. world_simpl.
  destruct (db_fault w (S (S (S (db_calls w))))).
  { transaction_fails. do 2 eexists. split; [reflexivity|]. right. right. auto. }
  unfold Sql.insert_app.
  destruct (negb (Sql.app_fits _ _ _)); cbn [option_map].
  { transaction_fails. do 2 eexists. split; [reflexivity|]. right. right. auto. }
  destruct (Sql.has_app appId (store w)) eqn:Hfresh; cbn [option_map].
  { transaction_fails. do 2 eexists. split; [reflexivity|]. right. right. auto. }
  world_simpl.
  unfold bind at 1. rewrite genId_run. world_simpl.
  unfold bind at 1. rewrite genApiKey_run. world_simpl.
  set (keyId := Keygen.uuid_text _).
  set (apiKey := Encoding.hex _).
  unfold bind at 1. unfold insert_into at 1. rewrite execute_run. world_simpl.
  destruct (db_fault w (S (S (S (S (db_calls w)))))).
  { transaction_fails. do 2 eexists. split; [reflexivity|]. right. right. auto. }
  unfold Sql.insert_api_key. cbn [api_keys apps events short_urls].
  destruct (negb (Sql.api_key_fits _ _ _)); cbn [option_map].
  { transaction_fails. do 2 eexists. split; [reflexivity|]. right. right. auto. }
  destruct (existsb (fun k => Sql.str_eqb (key_id k) keyId) (api_keys (store w)));
    cbn [option_map].
  { transaction_fails. do 2 eexists. split; [reflexivity|]. right. right. auto. }
  destruct (existsb (fun k => Sql.str_eqb (key_api_key k) apiKey) (api_keys (store w)))
    eqn:Hsecret; cbn [option_map].
  { transaction_fails. do 2 eexists. split; [reflexivity|]. right. right. auto. }
  destruct (negb (Sql.has_app appId _)); cbn [option_map].
  { transaction_fails. do 2 eexists. split; [reflexivity|]. right. right. auto. }
  world_simpl.
  unfold bind at 1. unfold commit at 1, bind at 1, db_call at 1. world_simpl.
  destruct (db_fault w (S (S (S (S (S (db_calls w))))))).
  { transaction_fails. do 2 eexists. split; [reflexivity|]. right. right. auto. }
  do 2 eexists. split; [reflexivity|]. left. world_simpl. cbn [status payload].
  repeat split; try reflexivity; try exact Hfresh; exact Hsecret.
Qed.

(** X6: registration is all or nothing.  The handler always answers, and
    leaves no transaction open; it answers 201 with one more application
    and one more credential, or it answers something else and the tables
    are exactly as before, whichever call failed. *)
Theorem registerApp_all_or_nothing (req : Request) (w : World) :
  txn w = None ->
  exists resp w',
    registerApp req w = (Ok resp, w')
    /\ txn w' = None
    /\ (status resp = 201
        /\ List.length (apps (store w')) = S (List.length (apps (store w)))
        /\ List.length (api_keys (store w')) = S (List.length (api_keys (store w)))
        /\ events (store w') = events (store w)
        /\ short_urls (store w') = short_urls (store w)
        \/ status resp <> 201 /\ store w' = store w).
Proof.
  intros Hnone.
  destruct (registerApp_cases req w)
    as (resp & w' & Hrun & [(Hst & _ & Hs & _ & _ & Ht) | [(Hst & -> & _) | (Hst & Hs)]]).
  - exists resp, w'. split; [exact Hrun|]. split; [exact Ht|]. left.
    rewrite Hs. cbn [apps api_keys events short_urls]. rewrite !length_app. simpl.
    split; [exact Hst|]. repeat split; lia.
  - exists resp, w. split; [exact Hrun|]. split; [exact Hnone|]. right.
    split; [rewrite Hst; discriminate | reflexivity].
  - destruct (Hs Hnone) as [Hs' Ht]. exists resp, w'. split; [exact Hrun|].
    split; [exact Ht|]. right. split; [rewrite Hst; discriminate | exact Hs'].
Qed.

Lemma registerApp_all_or_nothing_witness :
  exists resp w',
    registerApp register_request
      (failing_world 4)
    = (Ok resp, w')
    /\ status resp = 500 /\ store w' = sample_store.
Proof.
  destruct (registerApp_all_or_nothing
              register_request
              (failing_world 4))
    as (resp & w' & Hrun & _ & H); [reflexivity|].
  exists resp, w'. split; [exact Hrun|].
  assert (Hst : status resp = 500).
  { assert (E : fst (registerApp
                       register_request
                       (failing_world 4))
                = Ok (mkResponse 500
                        (ErrorBody "Internal Server Error" "Failed to register application.")))
      by (vm_compute; reflexivity).
    rewrite Hrun in E. cbn [fst] in E. injection E as ->. reflexivity. }
  split; [exact Hst|].
  destruct H as [(H201 & _) | (_ & Hs)]; [rewrite Hst in H201; discriminate | exact Hs].
Defined.

(** The authentication query on a store that has just received an
    application and a credential for it. *)
Lemma select_valid_key_appended (s : Store) (a : App) (k : ApiKey) (now : Z)
    (ev : list Event) (su : list ShortUrl) :
  Sql.has_app (app_id a) s = false ->
  existsb (fun k' => Sql.str_eqb (key_api_key k') (key_api_key k)) (api_keys s) = false ->
  key_app_id k = app_id a ->
  key_is_revoked k = false ->
  key_expires_at k = None ->
  Sql.select_valid_key (key_api_key k) now (mkStore (apps s ++ [a]) (api_keys s ++ [k]) ev su)
  = [Sql.mkAuthRow (key_id k) (key_app_id k) (key_api_key k) false None (app_name a)].
Proof.
  intros Hfresh Hsecret Hown Hrev Hexp.
  unfold Sql.select_valid_key. cbn [apps api_keys].
  rewrite List.filter_app.
  rewrite (filter_none _ (api_keys s)).
  2:{ intros k' Hk'. rewrite existsb_false in Hsecret. rewrite (Hsecret k' Hk'). reflexivity. }
  cbn [List.filter Datatypes.app]. rewrite (proj2 (str_eqb_eq _ _) eq_refl), Hrev.
  unfold Sql.not_expired. rewrite Hexp. cbn [negb andb flat_map]. rewrite app_nil_r.
  rewrite List.filter_app.
  rewrite (filter_none _ (apps s)).
  2:{ intros a' Ha'. unfold Sql.has_app in Hfresh. rewrite existsb_false in Hfresh.
      specialize (Hfresh a' Ha'). apply str_eqb_neq in Hfresh. apply str_eqb_neq.
      rewrite Hown. congruence. }
  cbn [List.filter Datatypes.app]. rewrite (proj2 (str_eqb_eq _ _) Hown).
  cbn [List.map]. rewrite Hexp, Hrev. reflexivity.
Qed.

(** X7: a registration answered 201 has stored one application, under the
    trimmed name and an id no application had, and one active credential
    for it without expiry; the response carries that id and the 64
    characters of the secret, and a request that presents the secret passes
    the middleware as that application. *)
Theorem registered_key_authenticates (req : Request) (w w' : World) (resp : Response) :
  registerApp req w = (Ok resp, w') ->
  status resp = 201 ->
  exists appId apiKey message a k,
    payload resp = RegisterBody appId apiKey message
    /\ String.length apiKey = 64%nat
    /\ apps (store w') = (apps (store w) ++ [a])%list
    /\ app_id a = appId
    /\ app_name a = Str.trim (str_of (body req !! "name"))
    /\ (forall a0, In a0 (apps (store w)) -> app_id a0 <> appId)
    /\ api_keys (store w') = (api_keys (store w) ++ [k])%list
    /\ key_app_id k = appId /\ key_api_key k = apiKey
    /\ key_is_revoked k = false /\ key_expires_at k = None
    /\ (forall req2 w2,
          store w2 = store w' ->
          presents apiKey req2 ->
          db_fault w2 (db_calls w2) = false ->
          db_fault w2 (S (db_calls w2)) = false ->
          exists w3,
            apiKeyAuth req2 w2
            = (Ok (inr (mkAuthContext appId (key_id k)
                          (Str.trim (str_of (body req !! "name"))))), w3)).
Proof.
  intros Hrun Hst.
  destruct (registerApp_cases req w)
    as (resp0 & w0 & Hrun0 & [(_ & Hpay & Hs & Hfresh & Hsecret & _) | [(H & _) | (H & _)]]);
    rewrite Hrun in Hrun0; injection Hrun0 as <- <-;
    try (rewrite Hst in H; discriminate).
  cbv zeta in *.
  set (name := Str.trim (str_of (body req !! "name"))) in *.
  set (appId := Keygen.uuid_text (next_bytes 16 w)) in *.
  set (keyId := Keygen.uuid_text (next_bytes 16 (count_draw w))) in *.
  set (apiKey := Encoding.hex (next_bytes 32 (count_draw (count_draw w)))) in *.
  set (a := mkApp appId name (or_null (body req !! "description")) (clock w (clock_reads w))
              (clock w (clock_reads w))) in *.
  set (k := mkApiKey keyId appId apiKey false None (clock w (S (clock_reads w))) None) in *.
  exists appId, apiKey,
    "Application registered successfully. Save your API key securely.", a, k.
  split; [exact Hpay|].
  split; [unfold apiKey; rewrite hex_length, randomBytes_length; reflexivity|].
  rewrite Hs. cbn [apps api_keys].
  repeat split.
  - intros a0 Ha0. unfold Sql.has_app in Hfresh. rewrite existsb_false in Hfresh.
    apply str_eqb_neq. apply Hfresh. exact Ha0.
  - intros req2 w2 Hs2 [Hh Hne] F0 F1.
    rewrite apiKeyAuth_run, Hh, F0, F1. cbn [truthy_param].
    destruct (String.eqb_spec apiKey ""); [contradiction|]. cbn [negb].
    change (default "" (Some apiKey)) with apiKey.
    rewrite Hs2.
    rewrite (select_valid_key_appended (store w) a k); try reflexivity; try assumption.
    eexists. reflexivity.
Qed.

Lemma registered_key_authenticates_witness :
  exists appId apiKey message,
    option_map payload
      (response_of
         (registerApp register_request)
         sample_w)
    = Some (RegisterBody appId apiKey message)
    /\ String.length apiKey = 64%nat.
Proof.
  destruct (registered_key_authenticates
              register_request
              sample_w
              (world_after
                 (registerApp
                    register_request)
                 sample_w)
              (mkResponse 201
                 (RegisterBody "00010203-0405-4607-8809-0a0b0c0d0e0f"
                    "02030405060708090a0b0c0d0e0f101112131415161718191a1b1c1d1e1f2021"
                    "Application registered successfully. Save your API key securely.")))
    as (appId & apiKey & message & a & k & Hpay & Hlen & _);
    [vm_compute; reflexivity | reflexivity |].
  exists appId, apiKey, message. split; [|exact Hlen].
  cbn [payload] in Hpay. rewrite <- Hpay. vm_compute. reflexivity.
Defined.

(** [regenerateKey], outcome by outcome. *)
Lemma regenerateKey_cases (req : Request) (w : World) :
  exists resp w',
    regenerateKey req w = (Ok resp, w')
    /\ (status resp = 200 /\ txn w' = None
        \/ status resp = 400 /\ w' = w /\ truthy_field (body req !! "app_id") = false
        \/ resp = mkResponse 500
                    (ErrorBody "Internal Server Error" "Failed to regenerate API key.")
           /\ (txn w = None -> store w' = store w /\ txn w' = None)).
Proof.
  unfold regenerateKey. unfold try_catch at 1.
  destruct (truthy_field (body req !! "app_id")) eqn:Hvalid; cbn [negb].
  2:{ do 2 eexists. split; [reflexivity|]. right. left. auto. }
  unfold bind at 1. unfold getPool, db_call at 1.
  destruct (db_fault w (db_calls w)).
  { do 2 eexists. split; [reflexivity|]. right. right. world_simpl. auto. }
  unfold bind at 1. unfold getConnection, db_call at 1. world_simpl.
  destruct (db_fault w (S (db_calls w))).
  { do 2 eexists. split; [reflexivity|]. right. right. world_simpl. auto. }
  unfold try_catch at 1.
  unfold bind at 1. unfold beginTransaction at 1, bind at 1, db_call at 1. world_simpl.
  destruct (db_fault w (S (S (db_calls w)))).
  { transaction_fails. do 2 eexists. split; [reflexivity|]. right. right.
    split; [reflexivity|]. intros Hnone. rewrite Hnone in *. auto. }
  unfold bind at 1. rewrite execute_run. world_simpl.
  destruct (db_fault w (S (S (S (db_calls w))))).
  { transaction_fails. do 2 eexists. split; [reflexivity|]. right. right. auto. }
  destruct (Sql.revoke_active_of_app _ _ _) as [n s1] eqn:Hupd. world_simpl.
  unfold bind at 1. rewrite genId_run.
  unfold bind at 1. rewrite genApiKey_run. world_simpl.
  unfold bind at 1. unfold insert_into. rewrite execute_run. world_simpl.
  destruct (db_fault w (S (S (S (S (db_calls w)))))).
  { transaction_fails. do 2 eexists. split; [reflexivity|]. right. right. auto. }
  destruct (Sql.insert_api_key _ _ _ _ s1) as [s2|]; cbn [option_map].
  2:{ transaction_fails. do 2 eexists. split; [reflexivity|]. right. right. auto. }
  world_simpl.
  unfold bind at 1. unfold commit at 1, bind at 1, db_call at 1. world_simpl.
  destruct (db_fault w (S (S (S (S (S (db_calls w))))))).
  { transaction_fails. do 2 eexists. split; [reflexivity|]. right. right. auto. }
  do 2 eexists. split; [reflexivity|]. left. split; reflexivity.
Qed.

(** X8: regeneration is all or nothing.  The handler always answers and
    leaves no transaction open; it answers 200 with exactly one more
    credential row, or it answers something else and the tables are exactly
    as before: a revocation whose insertion or commit failed is undone. *)
Theorem regenerateKey_all_or_nothing (req : Request) (w : World) :
  txn w = None ->
  exists resp w',
    regenerateKey req w = (Ok resp, w')
    /\ txn w' = None
    /\ (status resp = 200
        /\ List.length (api_keys (store w')) = S (List.length (api_keys (store w)))
        /\ apps (store w') = apps (store w)
        \/ status resp <> 200 /\ store w' = store w).
Proof.
  intros Hnone.
  destruct (regenerateKey_cases req w)
    as (resp & w' & Hrun & [(Hst & Ht) | [(Hst & -> & _) | (-> & Hs)]]).
  - exists resp, w'. split; [exact Hrun|]. split; [exact Ht|]. left.
    destruct (regenerateKey_committed req w w' resp Hrun Hst)
      as (newId & tInsert & _ & Hkeys & Happs & _).
    cbv zeta in Hkeys. rewrite Hkeys, length_app, length_map. simpl.
    repeat split; [exact Hst | lia | exact Happs].
  - exists resp, w. split; [exact Hrun|]. split; [exact Hnone|]. right.
    split; [rewrite Hst; discriminate | reflexivity].
  - destruct (Hs Hnone) as [Hs' Ht]. eexists _, w'. split; [exact Hrun|].
    split; [exact Ht|]. right. split; [discriminate | exact Hs'].
Qed.

Lemma regenerateKey_all_or_nothing_witness :
  exists resp w',
    regenerateKey regenerate_request
      (failing_world 5)
    = (Ok resp, w')
    /\ status resp = 500 /\ store w' = sample_store.
Proof.
  destruct (regenerateKey_all_or_nothing regenerate_request
              (failing_world 5))
    as (resp & w' & Hrun & _ & H); [reflexivity|].
  exists resp, w'. split; [exact Hrun|].
  assert (Hst : status resp = 500).
  { assert (E : fst (regenerateKey regenerate_request
                       (failing_world 5))
                = Ok (mkResponse 500
                        (ErrorBody "Internal Server Error" "Failed to regenerate API key.")))
      by (vm_compute; reflexivity).
    rewrite Hrun in E. cbn [fst] in E. injection E as ->. reflexivity. }
  split; [exact Hst|].
  destruct H as [(H200 & _) | (_ & Hs)]; [rewrite Hst in H200; discriminate | exact Hs].
Defined.

(** X9: regenerating the key of an application that does not exist is
    answered 500, never 404 or 200, and changes nothing: the foreign key of
    [api_keys] rejects the insertion and the transaction is rolled back. *)
Theorem regenerateKey_unknown_app (req : Request) (w : World) (a : string) :
  body req !! "app_id" = Some (JStr a) ->
  a <> "" ->
  (forall x, In x (apps (store w)) -> app_id x <> a) ->
  txn w = None ->
  exists w',
    regenerateKey req w
    = (Ok (mkResponse 500
             (ErrorBody "Internal Server Error" "Failed to regenerate API key.")), w')
    /\ store w' = store w.
Proof.
  intros Hbody Hne Hnoapp Hnone.
  destruct (regenerateKey_cases req w)
    as (resp & w' & Hrun & [(Hst & _) | [(_ & _ & Hf) | (-> & Hs)]]).
  - exfalso.
    destruct (regenerateKey_committed req w w' resp Hrun Hst)
      as (newId & tInsert & _ & _ & _ & _ & Happ).
    cbv zeta in Happ. rewrite Hbody in Happ. cbn [str_of sql_text] in Happ.
    unfold Sql.has_app in Happ. apply existsb_exists in Happ as (ap & Hap & E).
    apply str_eqb_eq in E. exact (Hnoapp ap Hap E).
  - exfalso. rewrite Hbody in Hf. cbn [truthy_field truthy] in Hf.
    destruct (String.eqb_spec a ""); [contradiction | discriminate].
  - exists w'. split; [exact Hrun | apply Hs; exact Hnone].
Qed.

Lemma regenerateKey_unknown_app_witness :
  exists w',
    regenerateKey regenerate_unknown_request
      sample_w
    = (Ok (mkResponse 500
             (ErrorBody "Internal Server Error" "Failed to regenerate API key.")), w')
    /\ store w' = sample_store.
Proof.
  apply (regenerateKey_unknown_app
           regenerate_unknown_request
           sample_w "app-9"); [reflexivity | discriminate | | reflexivity].
  intros x [<- | []]. discriminate.
Defined.

(** ** Event ingestion, and the routes behind the middleware *)

(** What a collect call that is answered 201 stored. *)
Lemma collectEvent_stored (rt : Runtime) (req : Request) (ctx : AuthContext)
    (w w' : World) (resp : Response) :
  collectEvent rt req ctx w = (Ok resp, w') ->
  status resp = 201 ->
  exists e,
    store w'
    = mkStore (apps (store w)) (api_keys (store w)) (events (store w) ++ [e])
        (short_urls (store w))
    /\ payload resp = CollectBody (ev_id e) "Event collected successfully."
    /\ ev_app_id e = ctx_id ctx /\ ev_api_key_id e = ctx_apiKeyId ctx
    /\ ev_event_name e = Str.trim (str_of (body req !! "event_name"))
    /\ ev_user_id e = Str.trim (str_of (body req !! "user_id"))
    /\ ev_timestamp e = clock w (clock_reads w)
    /\ Sql.has_app (ctx_id ctx) (store w) = true
    /\ Sql.has_key_id (ctx_apiKeyId ctx) (store w) = true
    /\ (forall x, In x (events (store w)) -> ev_id x <> ev_id e).
Proof.
  unfold collectEvent. unfold try_catch at 1.
  destruct (_ || _ || _).
  { intros [= <- <-]. discriminate. }
  destruct (_ || _ || _).
  { intros [= <- <-]. discriminate. }
  unfold bind at 1. unfold getPool, db_call at 1.
  destruct (db_fault w (db_calls w)).
  { intros [= <- <-]. discriminate. }
  unfold bind at 1. unfold Keygen.genId at 1, bind at 1, randomBytes, ret at 1.
  unfold bind at 1. unfold getter at 1.
  destruct (ip req) as [address|err]; [|intros [= <- <-]; discriminate].
  unfold bind at 1. unfold insert_into. rewrite execute_run. world_simpl.
  destruct (db_fault w (S (db_calls w))).
  { intros [= <- <-]. discriminate. }
  match goal with
  | |- context [Sql.insert_event ?e ?s] =>
      unfold Sql.insert_event at 1; set (ev := e)
  end.
  destruct (negb (Sql.event_fits ev)); [intros [= <- <-]; discriminate|].
  destruct (existsb _ _) eqn:Hid; [intros [= <- <-]; discriminate|].
  destruct (Sql.has_app _ _) eqn:Happ; cbn [negb]; [|intros [= <- <-]; discriminate].
  destruct (Sql.has_key_id _ _) eqn:Hkey; cbn [negb]; [|intros [= <- <-]; discriminate].
  cbn [option_map]. unfold json, ret. intros [= <- <-] _.
  exists ev. world_simpl. repeat split; try assumption.
  intros x Hx. rewrite existsb_false in Hid. apply str_eqb_neq. apply Hid. exact Hx.
Qed.

(** X10: the application and the credential under which an event is stored
    are those of the authenticated key, and the event is the only row
    added; the handler reads ten fields of the body and no other, so an
    [app_id] or [api_key_id] sent in the body has no effect. *)
Theorem collected_event_is_attributed_to_credential (rt : Runtime) (req : Request)
    (ctx : AuthContext) (w : World) :
  (forall (f : string) (v : JsVal),
     ~ In f collect_fields ->
     collectEvent rt (set_body (<[ f := v ]> (body req)) req) ctx w
     = collectEvent rt req ctx w)
  /\ (forall resp w',
        collectEvent rt req ctx w = (Ok resp, w') ->
        status resp = 201 ->
        exists e,
          store w'
          = mkStore (apps (store w)) (api_keys (store w)) (events (store w) ++ [e])
              (short_urls (store w))
          /\ payload resp = CollectBody (ev_id e) "Event collected successfully."
          /\ ev_app_id e = ctx_id ctx /\ ev_api_key_id e = ctx_apiKeyId ctx
          /\ (forall x, In x (events (store w)) -> ev_id x <> ev_id e)).
Proof.
  split.
  - intros f v Hf. unfold collect_fields in Hf. cbn [In] in Hf.
    unfold collectEvent, set_body. cbn [body headers ip remoteAddress].
    rewrite !lookup_insert_ne by (intros E; apply Hf; subst f; auto 15). reflexivity.
  - intros resp w' Hrun Hst.
    destruct (collectEvent_stored rt req ctx w w' resp Hrun Hst)
      as (e & Hs & Hp & Ha & Hk & _ & _ & _ & _ & _ & Hfresh).
    exists e. auto.
Qed.

Lemma collected_event_is_attributed_to_credential_witness :
  collectEvent sample_rt
    (set_body (<[ "app_id" := JStr "app-2" ]> (body collect_plain)) collect_plain)
    sample_ctx sample_w
  = collectEvent sample_rt collect_plain sample_ctx sample_w
  /\ exists e,
       store (world_after (collectEvent sample_rt collect_plain sample_ctx) sample_w)
       = mkStore (apps sample_store) (api_keys sample_store) (events sample_store ++ [e]) []
       /\ ev_app_id e = "app-1" /\ ev_api_key_id e = "key-1".
Proof.
  destruct (collected_event_is_attributed_to_credential sample_rt collect_plain sample_ctx
              sample_w) as [Hbody Hstored].
  split.
  - apply Hbody. vm_compute. intuition discriminate.
  - destruct (Hstored
                (mkResponse 201
                   (CollectBody "00010203-0405-4607-8809-0a0b0c0d0e0f"
                      "Event collected successfully."))
                (world_after (collectEvent sample_rt collect_plain sample_ctx) sample_w))
      as (e & Hs & _ & Ha & Hk & _); [vm_compute; reflexivity | reflexivity |].
    exists e. split; [exact Hs|]. split; [exact Ha | exact Hk].
Defined.

Lemma filter_snoc {A : Type} (f : A -> bool) (l : list A) (x : A) :
  List.filter f (l ++ [x]) = (List.filter f l ++ if f x then [x] else [])%list.
Proof. rewrite List.filter_app. reflexivity. Qed.

(** X11: an event that has been collected is counted.  After a collect
    call answered 201, an aggregation over the name of the event (trimmed),
    all applications or the one of the credential, and a range that holds
    the insertion time, computes a total one higher than before; the counts
    of [device_breakdown] add up to one more as well. *)
Theorem collected_event_is_counted (rt : Runtime) (req : Request) (ctx : AuthContext)
    (w w' : World) (resp : Response) (sreq : Request) (start end_ : Z) :
  collectEvent rt req ctx w = (Ok resp, w') ->
  status resp = 201 ->
  default "" (query sreq !! "event") = Str.trim (str_of (body req !! "event_name")) ->
  param_or_null (query sreq !! "app_id") = None
  \/ param_or_null (query sreq !! "app_id") = Some (ctx_id ctx) ->
  start <= clock w (clock_reads w) <= end_ ->
  sum_total_count (fresh_summary rt sreq start end_ (store w'))
  = sum_total_count (fresh_summary rt sreq start end_ (store w)) + 1
  /\ Zsum (List.map dc_count (sum_device_breakdown (fresh_summary rt sreq start end_ (store w'))))
     = Zsum (List.map dc_count
               (sum_device_breakdown (fresh_summary rt sreq start end_ (store w)))) + 1.
Proof.
  intros Hrun Hst Hname Happ Hrange.
  destruct (collectEvent_stored rt req ctx w w' resp Hrun Hst)
    as (e & Hs & _ & Ha & _ & Hn & _ & Ht & _).
  destruct (fresh_summary_counts rt sreq start end_ (store w')) as (Ht' & _ & Hd').
  destruct (fresh_summary_counts rt sreq start end_ (store w)) as (Ht0 & _ & Hd0).
  cbv zeta in *.
  assert (Hlen : Z.of_nat (List.length (summary_events sreq start end_ (store w')))
                 = Z.of_nat (List.length (summary_events sreq start end_ (store w))) + 1).
  { unfold summary_events. rewrite Hs. cbn [events]. rewrite filter_snoc, length_app.
    assert (Hm : Sql.summary_where (default "" (query sreq !! "event"))
                   (param_or_null (query sreq !! "app_id")) start end_ e = true).
    { unfold Sql.summary_where. rewrite Hname, Hn, Ht, Ha.
      rewrite (proj2 (str_eqb_eq _ _) eq_refl).
      destruct Happ as [-> | ->]; [|rewrite (proj2 (str_eqb_eq _ _) eq_refl)];
        cbn [andb]; apply andb_true_iff; split; apply Z.leb_le; lia. }
    rewrite Hm. simpl. lia. }
  rewrite Ht', Hd', Ht0, Hd0. split; exact Hlen.
Qed.

Lemma collected_event_is_counted_witness :
  sum_total_count
    (fresh_summary sample_rt page_view_summary 0 1704100000000
       (store (world_after (collectEvent sample_rt collect_plain sample_ctx) sample_w)))
  = sum_total_count (fresh_summary sample_rt page_view_summary 0 1704100000000 sample_store)
    + 1.
Proof.
  apply (collected_event_is_counted sample_rt collect_plain sample_ctx sample_w
           (world_after (collectEvent sample_rt collect_plain sample_ctx) sample_w)
           (mkResponse 201
              (CollectBody "00010203-0405-4607-8809-0a0b0c0d0e0f"
                 "Event collected successfully."))
           page_view_summary 0 1704100000000);
    [vm_compute; reflexivity | reflexivity | reflexivity | left; reflexivity
    | vm_compute; split; discriminate].
Defined.

Lemma app_collect (rt : Runtime) (req : Request) :
  method req = POST ->
  path req = ["api"; "analytics"; "collect"] ->
  app rt req = protected req (collectEvent rt).
Proof.
  destruct req as [m p h q b i ra pr]. cbn [method path]. intros -> ->. reflexivity.
Qed.

Lemma app_shorten (rt : Runtime) (req : Request) :
  method req = POST ->
  path req = ["api"; "shorten"] \/ path req = ["s"; "shorten"] ->
  app rt req = protected req (createShortUrl rt).
Proof.
  destruct req as [m p h q b i ra pr]. cbn [method path]. intros -> [-> | ->]; reflexivity.
Qed.

(** X12: the routes behind the middleware write nothing without a valid
    key.  A [POST] to [/api/analytics/collect], [/api/shorten] or
    [/s/shorten] whose [x-api-key] header is missing, or names no row of
    [api_keys] that is active and unexpired, is answered by the middleware
    (401, or 500 when the database fails) and leaves the tables as they
    were. *)
Theorem protected_routes_require_valid_key (rt : Runtime) (req : Request) (w : World) :
  method req = POST ->
  protected_path (path req) ->
  (forall k,
     In k (api_keys (store w)) ->
     valid_key_row (default "" (headers req !! "x-api-key")) (clock w (clock_reads w)) k
     = false) ->
  exists resp w',
    app rt req w = (Ok resp, w')
    /\ store w' = store w
    /\ (resp = unauthorized_missing \/ resp = unauthorized_invalid \/ resp = auth_failed).
Proof.
  intros Hm Hp Hnone.
  assert (Happ : exists handler, app rt req = protected req handler).
  { destruct Hp as [Hp | Hp].
    - eexists. apply app_collect; assumption.
    - eexists. apply app_shorten; assumption. }
  destruct Happ as (handler & ->).
  unfold protected, bind. rewrite apiKeyAuth_run.
  destruct (negb _).
  { do 2 eexists. split; [reflexivity|]. auto. }
  destruct (db_fault w (db_calls w)).
  { do 2 eexists. split; [reflexivity|]. auto. }
  destruct (db_fault w (S (db_calls w))).
  { do 2 eexists. split; [reflexivity|]. auto. }
  rewrite select_valid_key_none by exact Hnone.
  do 2 eexists. split; [reflexivity|]. auto.
Qed.

Lemma protected_routes_require_valid_key_witness :
  exists w',
    app sample_rt shorten_with_guess sample_w
    = (Ok unauthorized_invalid, w')
    /\ store w' = sample_store.
Proof.
  destruct (protected_routes_require_valid_key sample_rt
              shorten_with_guess sample_w)
    as (resp & w' & Hrun & Hs & _);
    [reflexivity | right; left; reflexivity | |].
  - intros k [<- | []]. reflexivity.
  - exists w'. split; [|exact Hs].
    assert (E : fst (app sample_rt
                       shorten_with_guess sample_w)
                = Ok unauthorized_invalid) by (vm_compute; reflexivity).
    rewrite Hrun in E. cbn [fst] in E. injection E as ->. exact Hrun.
Defined.

(** A body field that holds a string which is not blank passes the
    validation of the handlers. *)
Lemma non_blank_field_passes (f : option JsVal) (n : string) :
  f = Some (JStr n) ->
  Str.trim n <> "" ->
  negb (truthy_field f) || negb (is_string f)
  || (String.length (Str.trim (str_of f)) =? 0)%nat = false.
Proof.
  intros -> Hn. cbn [truthy_field truthy is_string str_of sql_text negb orb].
  destruct (String.eqb_spec n "") as [-> | _]; [exfalso; apply Hn; reflexivity|].
  cbn [negb orb]. destruct (Str.trim n); [contradiction | reflexivity].
Qed.

(** [collectEvent] on a request that has passed the middleware: the read of
    [req.ip] throws before the [INSERT]. *)
Lemma collectEvent_behind_middleware (rt : Runtime) (req : Request) (ctx : AuthContext)
    (w : World) :
  exists resp w',
    collectEvent rt (app_replaced req) ctx w = (Ok resp, w')
    /\ store w' = store w
    /\ (status resp = 400 \/ status resp = 500)
    /\ (forall n u,
          body req !! "event_name" = Some (JStr n) -> Str.trim n <> "" ->
          body req !! "user_id" = Some (JStr u) -> Str.trim u <> "" ->
          resp = mkResponse 500
                   (ErrorBody "Internal Server Error" "Failed to collect event.")).
Proof.
  unfold collectEvent. unfold try_catch at 1.
  cbn [app_replaced body headers ip remoteAddress].
  destruct (negb (truthy_field (body req !! "event_name")) || _ || _) eqn:Hname.
  { do 2 eexists. split; [reflexivity|]. split; [reflexivity|]. split; [left; reflexivity|].
    intros n u Hn Hn' _ _. rewrite (non_blank_field_passes _ n Hn Hn') in Hname.
    discriminate. }
  destruct (negb (truthy_field (body req !! "user_id")) || _ || _) eqn:Huser.
  { do 2 eexists. split; [reflexivity|]. split; [reflexivity|]. split; [left; reflexivity|].
    intros n u _ _ Hu Hu'. rewrite (non_blank_field_passes _ u Hu Hu') in Huser.
    discriminate. }
  unfold bind at 1. unfold getPool, db_call at 1.
  destruct (db_fault w (db_calls w)).
  { do 2 eexists. split; [reflexivity|]. world_simpl. auto. }
  unfold bind at 1. rewrite genId_run.
  unfold bind at 1. unfold getter at 1.
  do 2 eexists. split; [reflexivity|]. world_simpl. auto.
Qed.

(** X13: no event is stored through [POST /api/analytics/collect].  The
    middleware replaces [req.app], and the handler reads [req.ip] before its
    [INSERT]; on the request the middleware hands over, that read throws.
    Whatever the request carries and whatever the tables hold, the request
    is answered 400, 401 or 500, never 201, and the tables are left as they
    were; a request that passes the middleware with an [event_name] and a
    [user_id] that are not blank is answered 500. *)
Theorem collect_route_stores_nothing (rt : Runtime) (req : Request) (w : World) :
  method req = POST ->
  path req = ["api"; "analytics"; "collect"] ->
  exists resp w',
    app rt req w = (Ok resp, w')
    /\ store w' = store w
    /\ (status resp = 400 \/ status resp = 401 \/ status resp = 500)
    /\ (forall ctx w1 n u,
          apiKeyAuth req w = (Ok (inr ctx), w1) ->
          body req !! "event_name" = Some (JStr n) -> Str.trim n <> "" ->
          body req !! "user_id" = Some (JStr u) -> Str.trim u <> "" ->
          resp = mkResponse 500
                   (ErrorBody "Internal Server Error" "Failed to collect event.")).
Proof.
  intros Hm Hp. rewrite (app_collect rt req Hm Hp).
  unfold protected, bind. rewrite apiKeyAuth_run.
  destruct (negb _).
  { do 2 eexists. split; [reflexivity|]. split; [reflexivity|].
    split; [right; left; reflexivity | intros; discriminate]. }
  destruct (db_fault w (db_calls w)).
  { do 2 eexists. split; [reflexivity|]. split; [reflexivity|].
    split; [right; right; reflexivity | intros; discriminate]. }
  destruct (db_fault w (S (db_calls w))).
  { do 2 eexists. split; [reflexivity|]. split; [reflexivity|].
    split; [right; right; reflexivity | intros; discriminate]. }
  destruct (Sql.select_valid_key _ _ _) as [|keyData rows].
  { do 2 eexists. split; [reflexivity|]. split; [reflexivity|].
    split; [right; left; reflexivity | intros; discriminate]. }
  match goal with
  | |- context [collectEvent rt (app_replaced req) ?ctx ?w0] =>
      destruct (collectEvent_behind_middleware rt req ctx w0)
        as (resp & w' & Hrun & Hs & Hst & Hvalid)
  end.
  exists resp, w'. split; [exact Hrun|]. split; [rewrite Hs; reflexivity|].
  split; [destruct Hst; auto|].
  intros ctx w1 n u _. apply Hvalid.
Qed.

Lemma collect_route_stores_nothing_witness :
  exists ctx w1 w',
    apiKeyAuth collect_plain sample_w = (Ok (inr ctx), w1)
    /\ app sample_rt collect_plain sample_w
       = (Ok (mkResponse 500
                (ErrorBody "Internal Server Error" "Failed to collect event.")), w')
    /\ store w' = sample_store.
Proof.
  destruct (collect_route_stores_nothing sample_rt collect_plain sample_w)
    as (resp & w' & Hrun & Hs & _ & Hvalid); [reflexivity | reflexivity |].
  do 2 eexists. exists w'. split; [vm_compute; reflexivity|].
  split; [|exact Hs].
  rewrite Hrun. f_equal. f_equal.
  eapply (Hvalid _ _ "page_view" "u9");
    [vm_compute; reflexivity | reflexivity | discriminate | reflexivity | discriminate].
Defined.

(** ** The cache of the event summary *)

(** A range given by two valid dates does not depend on the clock. *)
Lemma resolved_range_explicit (rt : Runtime) (req : Request) (w : World)
    (s1 s2 : string) (start end_ : Z) :
  query req !! "startDate" = Some s1 -> s1 <> "" -> Date_parse rt s1 = Some start ->
  query req !! "endDate" = Some s2 -> s2 <> "" -> Date_parse rt s2 = Some end_ ->
  resolved_range rt req w = (Some start, Some end_).
Proof.
  intros H1 N1 P1 H2 N2 P2.
  unfold resolved_range, resolve_range, resolve_end, resolve_start, bind, ret.
  rewrite H1, H2. cbn [truthy_param].
  destruct (String.eqb_spec s1 ""); [contradiction|].
  destruct (String.eqb_spec s2 ""); [contradiction|]. cbn [negb].
  change (default "" (Some s1)) with s1. change (default "" (Some s2)) with s2.
  rewrite P1, P2. reflexivity.
Qed.

(** A request whose key is in the cache. *)
Lemma eventSummary_hit (rt : Runtime) (req : Request) (w : World) (start end_ : Z)
    (v : JsVal) :
  truthy_param (query req !! "event") = true ->
  resolved_range rt req w = (Some start, Some end_) ->
  cache_lookup rt (request_key rt req start end_) w = Some v ->
  exists w',
    eventSummary rt req w = (Ok (mkResponse 200 (SummaryBody (FromCache v) true)), w')
    /\ db_calls w' = db_calls w /\ store w' = store w /\ redis w' = redis w.
Proof.
  intros Hevent Hrange Hhit.
  unfold eventSummary, eventSummary_between. unfold try_catch at 1. rewrite Hevent. cbn [negb].
  unfold bind at 1. unfold resolved_range in Hrange.
  destruct (resolve_range_run rt req w) as (r & w1 & Hr & Hs1 & Hio1).
  rewrite Hr in *. subst r.
  fold (request_key rt req start end_).
  unfold bind at 1. unfold getRedis at 1.
  set (w2 := log_io IoRedisClient w1).
  assert (Hs2 : same_services w w2).
  { eapply same_services_trans; [exact Hs1|]. repeat split. }
  change (redis w1) with (redis w2).
  unfold bind at 1.
  destruct (read_cache_run rt (request_key rt req start end_) w2)
    as (w3 & Hread & Hst3 & Hr3 & Hf3 & Hc3 & He3).
  rewrite Hread. rewrite (cache_lookup_same rt _ w w2 Hs2), Hhit.
  eexists. split; [reflexivity|].
  split; [|split].
  - rewrite Hc3. unfold w2. world_simpl. apply Hio1.
  - rewrite Hst3. apply Hs2.
  - rewrite Hr3. apply Hs2.
Qed.

(** X14: a cache hit is answered from the cache alone.  When the key of the
    request is in the cache and its text parses, the response is the parsed
    text with [cached = true]; the database is not called, whether it is
    up or not, so the answer may be older than the tables. *)
Theorem cache_hit_skips_database (rt : Runtime) (req : Request) (w : World)
    (start end_ : Z) (v : JsVal) :
  truthy_param (query req !! "event") = true ->
  resolved_range rt req w = (Some start, Some end_) ->
  cache_lookup rt (request_key rt req start end_) w = Some v ->
  exists w',
    eventSummary rt req w = (Ok (mkResponse 200 (SummaryBody (FromCache v) true)), w')
    /\ db_calls w' = db_calls w /\ store w' = store w /\ redis w' = redis w.
Proof.
  intros Hevent Hrange Hhit.
  destruct (eventSummary_hit rt req w start end_ v Hevent Hrange Hhit)
    as (w' & Hrun & Hcalls & Hstore & Hredis).
  exists w'. repeat split; assumption.
Qed.

Lemma cache_hit_skips_database_witness :
  exists w',
    eventSummary sample_rt summary_january (failing_world_with_cache warm_cache)
    = (Ok (mkResponse 200 (SummaryBody (FromCache (JObj "stale")) true)), w')
    /\ db_calls w' = 0%nat.
Proof.
  destruct (cache_hit_skips_database sample_rt summary_january
              (failing_world_with_cache warm_cache) 1704067200000 1706659200000
              (JObj "stale"))
    as (w' & Hrun & Hc & _);
    [reflexivity | vm_compute; reflexivity | vm_compute; reflexivity |].
  exists w'. split; [exact Hrun | exact Hc].
Defined.

(** The cache write on a cache that works. *)
Lemma write_cache_stores (rt : Runtime) (key : string) (result : Summary) (w : World)
    (r : Redis) (t : Z) :
  redis w = Some r ->
  set_fault r = false ->
  ParseInt.parseInt10 (default "300" (param_or_null (env_CACHE_TTL_SEC w))) = Some t ->
  0 < t ->
  write_cache rt true key result w
  = (Ok tt,
     set_redis
       (Some (mkRedis (<[ key := JSON_stringify_summary rt result ]> (contents r))
                (get_fault r) (set_fault r)))
       (log_io (IoRedisSetEx key (Some t) (JSON_stringify_summary rt result)) w)).
Proof.
  intros Hr Hf Ht Hpos.
  unfold write_cache, try_catch, bind, getenv_CACHE_TTL_SEC, redis_setEx.
  rewrite Ht, Hr, Hf. cbn [orb].
  destruct (Z.leb_spec t 0); [lia|]. reflexivity.
Qed.

(** X15: a computed summary is cached and reused.  With a cache that works,
    a request with two valid dates that misses the cache is answered from
    the tables; the [JSON.stringify] text of the result is written under
    the key of the request with the time-to-live [CACHE_TTL_SEC] (300 when
    the variable is unset or empty), and the same request, sent again
    while the entry is there, is answered from the cache with
    [cached = true] and no call to the database. *)
Theorem computed_summary_is_cached_and_reused (rt : Runtime) (req : Request) (w : World)
    (r : Redis) (s1 s2 : string) (start end_ t : Z) (v : JsVal) :
  redis w = Some r -> get_fault r = false -> set_fault r = false ->
  truthy_param (query req !! "event") = true ->
  query req !! "startDate" = Some s1 -> s1 <> "" -> Date_parse rt s1 = Some start ->
  query req !! "endDate" = Some s2 -> s2 <> "" -> Date_parse rt s2 = Some end_ ->
  cache_lookup rt (request_key rt req start end_) w = None ->
  db_ok w ->
  ParseInt.parseInt10 (default "300" (param_or_null (env_CACHE_TTL_SEC w))) = Some t ->
  0 < t ->
  JSON_stringify_summary rt (fresh_summary rt req start end_ (store w)) <> "" ->
  JSON_parse rt (JSON_stringify_summary rt (fresh_summary rt req start end_ (store w)))
  = Some v ->
  exists w',
    eventSummary rt req w
    = (Ok (mkResponse 200
             (SummaryBody (Computed (fresh_summary rt req start end_ (store w))) false)),
       w')
    /\ redis w'
       = Some (mkRedis
                 (<[ request_key rt req start end_
                     := JSON_stringify_summary rt (fresh_summary rt req start end_ (store w)) ]>
                    (contents r))
                 false false)
    /\ In (IoRedisSetEx (request_key rt req start end_) (Some t)
             (JSON_stringify_summary rt (fresh_summary rt req start end_ (store w))))
         (io_log w')
    /\ forall w2,
         redis w2 = redis w' ->
         exists w3,
           eventSummary rt req w2
           = (Ok (mkResponse 200 (SummaryBody (FromCache v) true)), w3)
           /\ db_calls w3 = db_calls w2.
Proof.
  intros Hr Hg Hsf Hevent H1 N1 P1 H2 N2 P2 Hmiss Hok Ht Hpos Hne Hparse.
  set (result := fresh_summary rt req start end_ (store w)) in *.
  set (text := JSON_stringify_summary rt result) in *.
  set (key := request_key rt req start end_) in *.
  pose proof (resolved_range_explicit rt req w s1 s2 start end_ H1 N1 P1 H2 N2 P2) as Hrange.
  assert (Hrun : exists w',
             eventSummary rt req w
             = (Ok (mkResponse 200 (SummaryBody (Computed result) false)), w')
             /\ redis w'
                = Some (mkRedis (<[ key := text ]> (contents r)) (get_fault r) (set_fault r))
             /\ In (IoRedisSetEx key (Some t) text) (io_log w')).
  { unfold eventSummary, eventSummary_between. unfold try_catch at 1. rewrite Hevent. cbn [negb].
    unfold bind at 1. unfold resolved_range in Hrange.
    destruct (resolve_range_run rt req w) as (rg & w1 & Hrg & Hs1 & Hio1).
    rewrite Hrg in *. subst rg.
    fold (request_key rt req start end_). fold key.
    unfold bind at 1. unfold getRedis at 1.
    set (w2 := log_io IoRedisClient w1).
    assert (Hs2 : same_services w w2).
    { eapply same_services_trans; [exact Hs1|]. repeat split. }
    change (redis w1) with (redis w2).
    unfold bind at 1.
    destruct (read_cache_run rt key w2) as (w3 & Hread & Hst3 & Hr3 & Hf3 & Hc3 & He3).
    rewrite Hread. rewrite (cache_lookup_same rt _ w w2 Hs2), Hmiss.
    assert (Hfault : db_fault w3 = db_fault w) by (rewrite Hf3; apply Hs2).
    assert (Hstore : store w3 = store w) by (rewrite Hst3; apply Hs2).
    assert (Hredis : redis w3 = Some r).
    { rewrite Hr3. destruct Hs2 as (_ & -> & _). exact Hr. }
    assert (Henv : env_CACHE_TTL_SEC w3 = env_CACHE_TTL_SEC w) by (rewrite He3; apply Hs2).
    assert (Hok3 : forall n, db_fault w3 n = false) by (intros n; rewrite Hfault; apply Hok).
    unfold bind at 1. unfold getPool. rewrite db_call_ok by apply Hok3.
    unfold bind at 1. rewrite select_ok by (world_simpl; apply Hok3).
    unfold bind at 1. unfold others_write at 1.
    unfold bind at 1. rewrite select_ok by (world_simpl; apply Hok3).
    unfold bind at 1. world_simpl.
    assert (Hb : bool_decide (is_Some (redis w2)) = true).
    { apply bool_decide_eq_true_2. destruct Hs2 as (_ & -> & _). rewrite Hr. eauto. }
    rewrite Hb, Hstore.
    change (summary_result rt (default "" (query req !! "event")) (query req !! "app_id")
              start end_
              (Sql.select_summary (default "" (query req !! "event"))
                 (param_or_null (query req !! "app_id")) start end_ (store w))
              (Sql.select_unique_users (default "" (query req !! "event"))
                 (param_or_null (query req !! "app_id")) start end_ (store w)))
      with result.
    erewrite write_cache_stores;
      [| world_simpl; exact Hredis | exact Hsf | world_simpl; rewrite Henv; exact Ht
       | exact Hpos].
    eexists. split; [reflexivity|]. world_simpl. split; [reflexivity|].
    left. reflexivity. }
  destruct Hrun as (w' & Hrun & Hr' & Hlog).
  rewrite Hg, Hsf in Hr'.
  exists w'. split; [exact Hrun|]. split; [exact Hr'|]. split; [exact Hlog|].
  intros w2 Hr2.
  destruct (eventSummary_hit rt req w2 start end_ v) as (w3 & Hrun2 & Hc & _).
  - exact Hevent.
  - apply (resolved_range_explicit rt req w2 s1 s2); assumption.
  - unfold cache_lookup. rewrite Hr2, Hr'. cbn [get_fault contents].
    fold key. rewrite lookup_insert_eq. unfold param_or_null.
    destruct (String.eqb_spec text ""); [contradiction|]. exact Hparse.
  - exists w3. split; [exact Hrun2 | exact Hc].
Qed.

Lemma computed_summary_is_cached_and_reused_witness :
  exists w' w3,
    eventSummary sample_rt summary_january (sample_world sample_store (Some working_cache))
    = (Ok (mkResponse 200
             (SummaryBody
                (Computed (fresh_summary sample_rt summary_january 1704067200000
                             1706659200000 sample_store))
                false)), w')
    /\ eventSummary sample_rt summary_january w'
       = (Ok (mkResponse 200 (SummaryBody (FromCache (JObj "summary:page_view:3")) true)), w3)
    /\ db_calls w3 = db_calls w'.
Proof.
  destruct (computed_summary_is_cached_and_reused sample_rt summary_january
              (sample_world sample_store (Some working_cache)) working_cache
              "2024-01-01" "2024-01-31" 1704067200000 1706659200000 300
              (JObj "summary:page_view:3"))
    as (w' & Hrun & _ & _ & Hagain);
    [reflexivity | reflexivity | reflexivity | reflexivity | reflexivity | discriminate
    | reflexivity | reflexivity | discriminate | reflexivity | reflexivity
    | intros n; reflexivity | reflexivity | lia | vm_compute; discriminate
    | vm_compute; reflexivity |].
  destruct (Hagain w' eq_refl) as (w3 & Hrun2 & Hc).
  exists w', w3. split; [exact Hrun|]. split; [exact Hrun2 | exact Hc].
Defined.

Lemma summary_where_reversed (event : string) (appId : option string) (start end_ : Z)
    (l : list Event) :
  end_ < start -> List.filter (Sql.summary_where event appId start end_) l = [].
Proof.
  intros Hlt. apply filter_none. intros e _. unfold Sql.summary_where.
  destruct (Z.leb_spec start (ev_timestamp e)); [|rewrite andb_false_r; reflexivity].
  destruct (Z.leb_spec (ev_timestamp e) end_); [lia|]. apply andb_false_r.
Qed.

(** X16: the order of the two dates is not checked.  A request whose range
    ends before it starts is not refused: on a cache miss it is answered
    200 with zero totals and an empty breakdown, whatever the tables
    hold. *)
Theorem reversed_range_is_empty_success (rt : Runtime) (req : Request) (w : World)
    (start end_ : Z) :
  truthy_param (query req !! "event") = true ->
  resolved_range rt req w = (Some start, Some end_) ->
  end_ < start ->
  cache_lookup rt (request_key rt req start end_) w = None ->
  db_ok w ->
  response_of (eventSummary rt req) w
  = Some (mkResponse 200
            (SummaryBody
               (Computed
                  (mkSummary (default "" (query req !! "event"))
                     (param_or_null (query req !! "app_id"))
                     (toISOString rt start) (toISOString rt end_) 0 0 []))
               false)).
Proof.
  intros Hevent Hrange Hlt Hmiss Hok.
  rewrite eventSummary_response_of. unfold eventSummary_response.
  rewrite Hevent, Hrange, Hmiss, !Hok. cbn [negb orb].
  unfold fresh_summary, Sql.select_summary, Sql.select_unique_users.
  rewrite summary_where_reversed by exact Hlt. reflexivity.
Qed.

Lemma reversed_range_is_empty_success_witness :
  response_of (eventSummary sample_rt summary_reversed_range) sample_w
  = Some (mkResponse 200
            (SummaryBody
               (Computed
                  (mkSummary "page_view" None "T1706659200000" "T1704067200000" 0 0 []))
               false)).
Proof.
  apply (reversed_range_is_empty_success sample_rt summary_reversed_range sample_w
           1706659200000 1704067200000);
    [reflexivity | vm_compute; reflexivity | lia | reflexivity | intros n; reflexivity].
Defined.

(** ** The query handlers *)

Lemma getApiKey_run (req : Request) (w : World) :
  exists resp w',
    getApiKey req w = (Ok resp, w') /\ store w' = store w
    /\ (forall a,
          query req !! "app_id" = Some a -> a <> "" ->
          db_fault w (db_calls w) = false -> db_fault w (S (db_calls w)) = false ->
          resp = mkResponse 200
                   (KeyListBody (List.map mask_key (Sql.select_keys_of_app a (store w))))).
Proof.
  unfold getApiKey. unfold try_catch at 1.
  destruct (truthy_param (query req !! "app_id")) eqn:Hq; cbn [negb].
  2:{ do 2 eexists. split; [reflexivity|]. split; [reflexivity|].
      intros a Ha Hne. rewrite Ha in Hq. cbn in Hq.
      destruct (String.eqb_spec a ""); [contradiction | discriminate]. }
  unfold bind at 1. unfold getPool, db_call at 1.
  destruct (db_fault w (db_calls w)).
  { do 2 eexists. split; [reflexivity|]. split; [reflexivity|]. intros; discriminate. }
  unfold bind at 1. rewrite select_run. world_simpl.
  destruct (db_fault w (S (db_calls w))).
  { do 2 eexists. split; [reflexivity|]. split; [reflexivity|]. intros; discriminate. }
  do 2 eexists. split; [reflexivity|]. split; [reflexivity|].
  intros a Ha _ _ _. rewrite Ha. reflexivity.
Qed.

(** One entry of [recent_events]: the entry [recent_entry] describes, or a
    [SyntaxError], and no effect. *)
Lemma recent_entry_run (rt : Runtime) (event : Sql.RecentRow) (w : World) :
  (properties <- delivered_properties rt (Sql.rr_properties event) ;;
   if truthy properties then
     match JSON_parse_value rt properties with
     | Some v => ret (mkRecentEvent (Sql.rr_event_name event) (Sql.rr_timestamp event) v)
     | None => throw SyntaxError
     end
   else ret (mkRecentEvent (Sql.rr_event_name event) (Sql.rr_timestamp event) JNull))%io w
  = (match reported_properties rt (Sql.rr_properties event) with
     | Some v => Ok (mkRecentEvent (Sql.rr_event_name event) (Sql.rr_timestamp event) v)
     | None => Throw SyntaxError
     end, w).
Proof.
  unfold bind, delivered_properties, reported_properties, ret, throw.
  destruct (Sql.rr_properties event) as [text|]; [|reflexivity].
  destruct (JSON_parse rt text) as [v|]; [|reflexivity].
  destruct (truthy v); [|reflexivity].
  destruct (JSON_parse_value rt v); reflexivity.
Qed.

(** The entries of [recent_events]: all of them, or a [SyntaxError] at the
    first row whose [properties] the handler cannot report. *)
Lemma recent_events_run (rt : Runtime) (rows : list Sql.RecentRow) (w : World) :
  mapM
    (fun event =>
       properties <- delivered_properties rt (Sql.rr_properties event) ;;
       if truthy properties then
         match JSON_parse_value rt properties with
         | Some v => ret (mkRecentEvent (Sql.rr_event_name event) (Sql.rr_timestamp event) v)
         | None => throw SyntaxError
         end
       else ret (mkRecentEvent (Sql.rr_event_name event) (Sql.rr_timestamp event) JNull))
    rows w
  = (if forallb (row_readable rt) rows then Ok (List.map (recent_entry rt) rows)
     else Throw SyntaxError, w).
Proof.
  induction rows as [|r rows IH]; cbn [mapM forallb List.map]; [reflexivity|].
  unfold bind at 1. rewrite recent_entry_run.
  unfold row_readable at 1, recent_entry at 1.
  destruct (reported_properties rt (Sql.rr_properties r)) as [v|].
  - rewrite bool_decide_eq_true_2 by eauto. cbn [andb default].
    unfold bind at 1. rewrite IH. destruct (forallb _ rows); reflexivity.
  - rewrite bool_decide_eq_false_2 by (intros [? ?]; discriminate). reflexivity.
Qed.

(** The handler always answers, with the response [userStats_response]
    describes; the tables are left as they are, but for what the other
    requests wrote. *)
Lemma userStats_run (between : Store -> Store) (rt : Runtime) (req : Request) (w : World) :
  exists w',
    userStats_between between rt req w = (Ok (userStats_response between rt req w), w')
    /\ (store w' = store w \/ store w' = between (store w)).
Proof.
  unfold userStats_between, userStats_response, user_stats_failed, recent_rows.
  unfold try_catch at 1.
  destruct (negb _); [eexists; split; [reflexivity | left; reflexivity]|].
  unfold bind at 1. unfold getPool, db_call at 1.
  destruct (db_fault w (db_calls w)); [eexists; split; [reflexivity | left; reflexivity]|].
  unfold bind at 1. rewrite select_run. world_simpl.
  destruct (db_fault w (S (db_calls w))); [eexists; split; [reflexivity | left; reflexivity]|].
  cbn [orb].
  destruct (Sql.select_user_stats _ _ _) as [|stats rest];
    [eexists; split; [reflexivity | left; reflexivity]|].
  unfold bind at 1. unfold others_write at 1.
  unfold bind at 1. rewrite select_run. world_simpl.
  destruct (db_fault w (S (S (db_calls w)))); [eexists; split; [reflexivity | right; reflexivity]|].
  unfold bind at 1. rewrite recent_events_run.
  destruct (forallb _ _); eexists; (split; [reflexivity | right; reflexivity]).
Qed.

Lemma userStats_read_only (rt : Runtime) (req : Request) (w : World) :
  exists resp w', userStats rt req w = (Ok resp, w') /\ store w' = store w.
Proof.
  destruct (userStats_run (fun s => s) rt req w) as (w' & Hrun & Hs).
  do 2 eexists. split; [exact Hrun | destruct Hs; assumption].
Qed.

(** X17: the three query handlers, [getApiKey], [eventSummary] and
    [userStats], always answer and never change the tables, whatever the
    request and whichever call to the database or the cache fails. *)
Theorem query_handlers_are_read_only (rt : Runtime) (req : Request) (w : World) :
  (exists resp w', getApiKey req w = (Ok resp, w') /\ store w' = store w)
  /\ (exists resp w', eventSummary rt req w = (Ok resp, w') /\ store w' = store w)
  /\ (exists resp w', userStats rt req w = (Ok resp, w') /\ store w' = store w).
Proof.
  split; [|split].
  - destruct (getApiKey_run req w) as (resp & w' & Hrun & Hs & _). eauto.
  - destruct (eventSummary_run rt req w) as (w' & Hrun & Hs). eauto.
  - apply userStats_read_only.
Qed.

(** X18: the credential list of an application that has no credential, and
    so of an application that does not exist, is a success with an empty
    list, not a 404. *)
Theorem credential_list_of_unknown_app_is_empty (req : Request) (w : World) (a : string) :
  query req !! "app_id" = Some a ->
  a <> "" ->
  db_fault w (db_calls w) = false ->
  db_fault w (S (db_calls w)) = false ->
  (forall k, In k (api_keys (store w)) -> key_app_id k <> a) ->
  exists w', getApiKey req w = (Ok (mkResponse 200 (KeyListBody [])), w').
Proof.
  intros Hq Hne F0 F1 Hnone.
  destruct (getApiKey_run req w) as (resp & w' & Hrun & _ & Hresp).
  rewrite (Hresp a Hq Hne F0 F1) in Hrun. exists w'. rewrite Hrun.
  unfold Sql.select_keys_of_app.
  rewrite (filter_none _ (api_keys (store w))); [reflexivity|].
  intros k Hk. apply str_eqb_neq. apply Hnone. exact Hk.
Qed.

Lemma credential_list_of_unknown_app_is_empty_witness :
  exists w', getApiKey list_unknown_request sample_w
             = (Ok (mkResponse 200 (KeyListBody [])), w').
Proof.
  apply (credential_list_of_unknown_app_is_empty list_unknown_request sample_w "app-9");
    [reflexivity | discriminate | reflexivity | reflexivity |].
  intros k [<- | []]. discriminate.
Defined.

(** ** The handler [userStats] *)

Lemma max_of_spec (t : Z) (ts : list Z) :
  In (Sql.max_of t ts) (t :: ts) /\ forall x, In x (t :: ts) -> x <= Sql.max_of t ts.
Proof.
  unfold Sql.max_of. induction ts as [|y ts [IHin IHle]]; cbn [foldr].
  - split; [left; reflexivity | intros x [<- | []]; lia].
  - split.
    + destruct (Z.max_spec y (foldr Z.max t ts)) as [[_ ->] | [_ ->]].
      * destruct IHin as [<- | Hin]; [left; reflexivity | right; right; exact Hin].
      * right; left; reflexivity.
    + intros x [<- | [<- | Hx]].
      * specialize (IHle t (or_introl eq_refl)). lia.
      * lia.
      * specialize (IHle x (or_intror Hx)). lia.
Qed.

Lemma min_of_spec (t : Z) (ts : list Z) :
  In (Sql.min_of t ts) (t :: ts) /\ forall x, In x (t :: ts) -> Sql.min_of t ts <= x.
Proof.
  unfold Sql.min_of. induction ts as [|y ts [IHin IHle]]; cbn [foldr].
  - split; [left; reflexivity | intros x [<- | []]; lia].
  - split.
    + destruct (Z.min_spec y (foldr Z.min t ts)) as [[_ ->] | [_ ->]].
      * right; left; reflexivity.
      * destruct IHin as [<- | Hin]; [left; reflexivity | right; right; exact Hin].
    + intros x [<- | [<- | Hx]].
      * specialize (IHle t (or_introl eq_refl)). lia.
      * lia.
      * specialize (IHle x (or_intror Hx)). lia.
Qed.

(** The rows of [GROUP BY ip_address]: one per address, with the count, the
    first and the last timestamp of the events from that address. *)
Lemma group_by_ip_In (l : list Event) (g : Sql.UserGroupRow) :
  In g (Sql.group_by_ip l)
  <-> exists t ts,
        List.map ev_timestamp (from_address (Sql.ug_ip_address g) l) = t :: ts
        /\ g = Sql.mkUserGroupRow (Z.of_nat (S (List.length ts))) (Sql.min_of t ts)
                 (Sql.max_of t ts) (Sql.ug_ip_address g).
Proof.
  unfold Sql.group_by_ip, from_address. rewrite in_flat_map. split.
  - intros (ip & _ & Hg).
    destruct (List.map ev_timestamp (List.filter _ l)) as [|t ts] eqn:E; [destruct Hg|].
    destruct Hg as [<- | []]. cbn [Sql.ug_ip_address]. exists t, ts. split; [exact E | reflexivity].
  - intros (t & ts & E & Hg). exists (Sql.ug_ip_address g). split.
    + apply list_elem_of_In. apply elem_of_remove_dups.
      destruct (List.filter _ l) as [|e rest] eqn:Hf; [discriminate E|].
      assert (He : In e (List.filter
                          (fun e => bool_decide (ev_ip_address e = Sql.ug_ip_address g)) l))
        by (rewrite Hf; left; reflexivity).
      apply filter_In in He as [He Hip]. apply bool_decide_eq_true in Hip.
      rewrite <- Hip. apply list_elem_of_In. apply in_map. exact He.
    + rewrite E. left. symmetry. exact Hg.
Qed.

Lemma sorted_head_max {A : Type} (key : A -> Z) (x : A) (rest : list A) :
  StronglySorted (descending key) (x :: rest) ->
  forall y, In y (x :: rest) -> key y <= key x.
Proof.
  intros Hs y [<- | Hy]; [lia|].
  apply StronglySorted_inv in Hs as [_ Hx]. rewrite Forall_forall in Hx.
  apply Hx. apply list_elem_of_In. exact Hy.
Qed.

(** The row that [ORDER BY last_seen DESC LIMIT 1] keeps. *)
Lemma select_user_stats_row (l : list Event) :
  l <> [] ->
  exists stats rest,
    Sql.limit 1 (Sql.order_by_desc Sql.ug_last_seen (Sql.group_by_ip l)) = [stats]
    /\ Sql.order_by_desc Sql.ug_last_seen (Sql.group_by_ip l) = stats :: rest
    /\ Sql.ug_total_events stats
       = Z.of_nat (List.length (from_address (Sql.ug_ip_address stats) l))
    /\ (exists e, In e l /\ ev_ip_address e = Sql.ug_ip_address stats
                  /\ ev_timestamp e = Sql.ug_last_seen stats)
    /\ (forall e, In e l -> ev_timestamp e <= Sql.ug_last_seen stats)
    /\ (exists e, In e l /\ ev_ip_address e = Sql.ug_ip_address stats
                  /\ ev_timestamp e = Sql.ug_first_seen stats)
    /\ (forall e, In e l -> ev_ip_address e = Sql.ug_ip_address stats ->
                  Sql.ug_first_seen stats <= ev_timestamp e).
Proof.
  intros Hl.
  destruct (Sql.order_by_desc Sql.ug_last_seen (Sql.group_by_ip l)) as [|stats rest] eqn:Eg.
  { exfalso. apply (order_by_desc_nonempty Sql.ug_last_seen (Sql.group_by_ip l));
      [apply group_by_ip_nonempty; exact Hl | exact Eg]. }
  exists stats, rest. split; [reflexivity|]. split; [reflexivity|].
  assert (Hperm : Permutation (stats :: rest) (Sql.group_by_ip l))
    by (rewrite <- Eg; apply order_by_desc_perm).
  assert (Hsorted : StronglySorted (descending Sql.ug_last_seen) (stats :: rest))
    by (rewrite <- Eg; apply order_by_desc_sorted).
  assert (Hstats : In stats (Sql.group_by_ip l))
    by (apply (Permutation_in _ Hperm); left; reflexivity).
  apply group_by_ip_In in Hstats as (t & ts & E & Hrow).
  set (ip := Sql.ug_ip_address stats) in *.
  assert (Htotal : Sql.ug_total_events stats = Z.of_nat (List.length (from_address ip l))).
  { rewrite Hrow. cbn [Sql.ug_total_events].
    rewrite <- (length_map ev_timestamp), E. reflexivity. }
  assert (Hlast : Sql.ug_last_seen stats = Sql.max_of t ts) by (rewrite Hrow; reflexivity).
  assert (Hfirst : Sql.ug_first_seen stats = Sql.min_of t ts) by (rewrite Hrow; reflexivity).
  assert (Hmem : forall x, In x (t :: ts) ->
                   exists e, In e l /\ ev_ip_address e = ip /\ ev_timestamp e = x).
  { intros x Hx. rewrite <- E in Hx. apply in_map_iff in Hx as (e & <- & He).
    apply filter_In in He as [He Hip]. apply bool_decide_eq_true in Hip. eauto. }
  split; [exact Htotal|]. split; [|split; [|split]].
  - rewrite Hlast. apply Hmem. apply max_of_spec.
  - intros e He.
    (* the group of [e] is a row, no later than the first one *)
    destruct (List.map ev_timestamp (from_address (ev_ip_address e) l)) as [|t' ts'] eqn:E'.
    { exfalso. unfold from_address in E'.
      assert (Hin : In e (List.filter
                           (fun x => bool_decide (ev_ip_address x = ev_ip_address e)) l)).
      { apply filter_In. split; [exact He|]. apply bool_decide_eq_true. reflexivity. }
      destruct (List.filter _ l); [destruct Hin | discriminate E']. }
    set (g := Sql.mkUserGroupRow (Z.of_nat (S (List.length ts'))) (Sql.min_of t' ts')
                (Sql.max_of t' ts') (ev_ip_address e)).
    assert (Hg : In g (Sql.group_by_ip l)).
    { apply group_by_ip_In. exists t', ts'. split; [exact E' | reflexivity]. }
    apply (Permutation_in _ (Permutation_sym Hperm)) in Hg.
    pose proof (sorted_head_max Sql.ug_last_seen stats rest Hsorted g Hg) as Hle.
    cbn [g Sql.ug_last_seen] in Hle.
    assert (Hts : In (ev_timestamp e) (t' :: ts')).
    { rewrite <- E'. apply in_map. unfold from_address. apply filter_In.
      split; [exact He|]. apply bool_decide_eq_true. reflexivity. }
    pose proof (proj2 (max_of_spec t' ts') _ Hts). lia.
  - rewrite Hfirst. apply Hmem. apply min_of_spec.
  - intros e He Hip. rewrite Hfirst. apply min_of_spec. rewrite <- E.
    apply in_map. unfold from_address. apply filter_In. split; [exact He|].
    apply bool_decide_eq_true. exact Hip.
Qed.

Lemma select_user_stats_nonempty (req : Request) (s : Store) :
  Sql.select_user_stats (default "" (query req !! "user_id"))
    (param_or_null (query req !! "app_id")) s = []
  <-> user_events req s = [].
Proof.
  unfold Sql.select_user_stats. fold (user_events req s).
  destruct (user_events req s) as [|e l] eqn:El.
  - split; reflexivity.
  - destruct (select_user_stats_row (e :: l)) as (stats & rest & -> & _); [discriminate|].
    split; discriminate.
Qed.

Lemma forallb_row_readable (rt : Runtime) (rows : list Sql.RecentRow) :
  forallb (row_readable rt) rows = true
  <-> Forall (fun r => reported_properties rt (Sql.rr_properties r) <> None) rows.
Proof.
  rewrite forallb_forall, Forall_forall. unfold row_readable.
  split; intros H r Hr.
  - apply list_elem_of_In in Hr. specialize (H r Hr). apply bool_decide_eq_true in H.
    destruct H as [v ->]. discriminate.
  - apply list_elem_of_In in Hr. specialize (H r Hr). apply bool_decide_eq_true.
    destruct (reported_properties rt (Sql.rr_properties r)); [eauto | contradiction].
Qed.

(** X19: the answer of [userStats] on a database that answers, whatever the
    other requests write between its two queries.  It is 404 exactly when
    the first query finds no event for the user id (and the application id,
    when one is given).  Otherwise it is 200 exactly when the handler can
    report the [properties] of each row of the second query, the ten most
    recent events of the user: the column is [NULL], or the value the driver
    delivers is falsy, or [JSON.parse] accepts the string form of that
    value; in the remaining case it is 500.  The driver delivers an object
    for an object, so the answer is 500 as soon as one of those events has
    an object for its [properties], the string form of an object not being
    JSON. *)
Theorem userStats_answer_by_case (between : Store -> Store) (rt : Runtime) (req : Request)
    (w : World) :
  truthy_param (query req !! "user_id") = true ->
  db_ok w ->
  exists resp w',
    userStats_between between rt req w = (Ok resp, w')
    /\ (status resp = 404 <-> user_events req (store w) = [])
    /\ (status resp = 200
        <-> user_events req (store w) <> []
            /\ Forall (fun r => reported_properties rt (Sql.rr_properties r) <> None)
                 (recent_rows req (between (store w))))
    /\ (status resp = 404 \/ status resp = 200 \/ resp = user_stats_failed)
    /\ (forall r text o,
          user_events req (store w) <> [] ->
          In r (recent_rows req (between (store w))) ->
          Sql.rr_properties r = Some text ->
          JSON_parse rt text = Some (JObj o) ->
          JSON_parse rt (String_object rt o) = None ->
          resp = user_stats_failed).
Proof.
  intros Hu Hok. destruct (userStats_run between rt req w) as (w' & Hrun & _).
  exists (userStats_response between rt req w), w'. split; [exact Hrun|].
  unfold userStats_response. rewrite Hu, !Hok. cbn [negb orb].
  pose proof (select_user_stats_nonempty req (store w)) as Hnone.
  pose proof (forallb_row_readable rt (recent_rows req (between (store w)))) as Hread.
  assert (Hobj : forall r text o,
            In r (recent_rows req (between (store w))) ->
            Sql.rr_properties r = Some text ->
            JSON_parse rt text = Some (JObj o) ->
            JSON_parse rt (String_object rt o) = None ->
            forallb (row_readable rt) (recent_rows req (between (store w))) = false).
  { intros r text o Hr Hp Hdel Hstr.
    destruct (forallb _ _) eqn:E; [|reflexivity].
    rewrite forallb_forall in E. specialize (E r Hr).
    unfold row_readable, reported_properties in E. rewrite Hp, Hdel in E.
    cbn [truthy] in E. unfold JSON_parse_value in E. cbn [to_String] in E.
    rewrite Hstr in E. apply bool_decide_eq_true in E. destruct E as [? E]. discriminate E. }
  destruct (Sql.select_user_stats _ _ _) as [|stats rest].
  - assert (Hnil : user_events req (store w) = []) by (apply Hnone; reflexivity).
    cbn [status]. split; [tauto|]. split; [|split; [left; reflexivity|]].
    + split; [discriminate | intros [H _]; contradiction].
    + intros r text o Hsome. contradiction.
  - assert (Hsome : user_events req (store w) <> []).
    { intros E. apply Hnone in E. discriminate E. }
    destruct (forallb _ _) eqn:E; cbn [status].
    + split; [split; [discriminate | contradiction]|].
      split; [split; [intros _; split; [exact Hsome | apply Hread; reflexivity]
                     | reflexivity]|].
      split; [right; left; reflexivity|].
      intros r text o _ Hr Hp Hdel Hstr. discriminate (Hobj r text o Hr Hp Hdel Hstr).
    + unfold user_stats_failed. cbn [status].
      split; [split; [discriminate | contradiction]|].
      split; [split; [discriminate|]|].
      { intros [_ H]. apply Hread in H. discriminate H. }
      split; [right; right; reflexivity | reflexivity].
Qed.

Lemma userStats_answer_by_case_witness :
  let stored := world_after (collectEvent object_rt collect_with_properties sample_ctx) sample_w in
  (exists resp w',
     userStats sample_rt user_stats_unknown_request sample_w = (Ok resp, w')
     /\ status resp = 404)
  /\ List.map ev_properties (user_events user_stats_u9_request (store stored))
     = [Some plan_pro]
  /\ exists w', userStats object_rt user_stats_u9_request stored = (Ok user_stats_failed, w').
Proof.
  cbv zeta. split.
  { destruct (userStats_answer_by_case (fun s => s) sample_rt user_stats_unknown_request
                sample_w)
      as (resp & w' & Hrun & Hiff & _); [reflexivity | intros n; reflexivity |].
    exists resp, w'. split; [exact Hrun|]. apply Hiff. reflexivity. }
  split; [vm_compute; reflexivity|].
  destruct (userStats_answer_by_case (fun s => s) object_rt user_stats_u9_request
              (world_after (collectEvent object_rt collect_with_properties sample_ctx)
                 sample_w))
    as (resp & w' & Hrun & _ & _ & _ & Hobj);
    [reflexivity | intros n; vm_compute; reflexivity |].
  exists w'. unfold userStats. rewrite Hrun. f_equal. f_equal.
  apply (Hobj (Sql.mkRecentRow "signup" 1704100000000 (Some plan_pro)) plan_pro plan_pro);
    [vm_compute; discriminate | vm_compute; left; reflexivity | reflexivity | reflexivity
    | reflexivity].
Defined.

(** X20: what a 200 of [userStats] reports.  [total_events] is not the
    number of the user's events but the number of those sent from one
    address, [ip_address]: the address of the user's most recent event (one
    of them, when several events share that instant).  [last_seen] is the
    time of the user's most recent event, [first_seen] the time of the
    earliest event from that address; these four come from the first query.
    [recent_events] comes from the second query and holds the ten most
    recent events of the user at that moment, or all of them if there are
    fewer, newest first. *)
Theorem userStats_reports_latest_address (between : Store -> Store) (rt : Runtime)
    (req : Request) (w w' : World) (resp : Response) :
  userStats_between between rt req w = (Ok resp, w') ->
  status resp = 200 ->
  exists stats,
    payload resp = UserStatsBody stats
    /\ user_events req (store w) <> []
    /\ us_total_events stats
       = Z.of_nat (List.length (from_address (us_ip_address stats) (user_events req (store w))))
    /\ (exists e, In e (user_events req (store w))
                  /\ ev_ip_address e = us_ip_address stats
                  /\ ev_timestamp e = us_last_seen stats)
    /\ (forall e, In e (user_events req (store w)) -> ev_timestamp e <= us_last_seen stats)
    /\ (exists e, In e (user_events req (store w))
                  /\ ev_ip_address e = us_ip_address stats
                  /\ ev_timestamp e = us_first_seen stats)
    /\ (forall e, In e (user_events req (store w)) ->
                  ev_ip_address e = us_ip_address stats ->
                  us_first_seen stats <= ev_timestamp e)
    /\ List.length (us_recent_events stats)
       = Nat.min 10 (List.length (user_events req (between (store w))))
    /\ StronglySorted (descending re_timestamp) (us_recent_events stats).
Proof.
  intros Hrun Hst.
  destruct (userStats_run between rt req w) as (w0 & Hrun0 & _).
  rewrite Hrun in Hrun0. injection Hrun0 as -> _. clear Hrun.
  unfold userStats_response, user_stats_failed in *.
  destruct (negb _); [discriminate Hst|].
  destruct (_ || _); [discriminate Hst|].
  pose proof (select_user_stats_nonempty req (store w)) as Hnone.
  unfold Sql.select_user_stats in *. fold (user_events req (store w)) in *.
  set (l := user_events req (store w)) in *.
  destruct (Sql.limit 1 _) as [|stats rest] eqn:Erow; [discriminate Hst|].
  assert (Hsome : l <> []) by (intros E; apply Hnone in E; discriminate E).
  destruct (db_fault w _); [discriminate Hst|].
  destruct (forallb _ _); [|discriminate Hst].
  destruct (select_user_stats_row l Hsome)
    as (row & rest' & Hrow & _ & Htotal & Hlast & Hmax & Hfirst & Hmin).
  rewrite Hrow in Erow. injection Erow as -> <-.
  eexists. split; [reflexivity|].
  cbn [us_total_events us_ip_address us_last_seen us_first_seen us_recent_events].
  split; [exact Hsome|].
  split; [rewrite parseInt_num_id by (rewrite Htotal; lia); exact Htotal|].
  split; [exact Hlast|]. split; [exact Hmax|]. split; [exact Hfirst|]. split; [exact Hmin|].
  unfold recent_rows, Sql.select_recent_events. fold (user_events req (between (store w))).
  split.
  - rewrite length_map. unfold Sql.limit. rewrite length_firstn.
    rewrite (Permutation_length (order_by_desc_perm Sql.rr_timestamp _)), length_map.
    reflexivity.
  - apply (sorted_map Sql.rr_timestamp); [reflexivity|].
    apply limit_sorted. apply order_by_desc_sorted.
Qed.

Lemma userStats_reports_latest_address_witness :
  exists stats,
    response_of (userStats sample_rt user_stats_request) sample_w
    = Some (mkResponse 200 (UserStatsBody stats))
    /\ List.length (user_events user_stats_request sample_store) = 2%nat
    /\ us_total_events stats
       = Z.of_nat (List.length (from_address (us_ip_address stats)
                                  (user_events user_stats_request sample_store))).
Proof.
  destruct (userStats_reports_latest_address (fun s => s) sample_rt user_stats_request
              sample_w
              (world_after (userStats sample_rt user_stats_request) sample_w)
              (mkResponse 200
                 (UserStatsBody
                    (mkUserStats "u1" None 1 1704095000000 1704095000000 (Some "10.0.0.2")
                       [mkRecentEvent "page_view" 1704095000000 JNull;
                        mkRecentEvent "page_view" 1704090000000 JNull]))))
    as (stats & Hpay & _ & Htotal & _);
    [vm_compute; reflexivity | reflexivity |].
  cbn [payload] in Hpay. injection Hpay as <-.
  eexists. split; [vm_compute; reflexivity|]. split; [reflexivity | exact Htotal].
Defined.

(** ** Short links *)

(** A [createShortUrl] call that changed the tables: it added one row, and
    its answer is written after the [INSERT], from [req.protocol]. *)
Lemma createShortUrl_inserted (rt : Runtime) (req : Request) (ctx : AuthContext)
    (w w' : World) (resp : Response) :
  createShortUrl rt req ctx w = (Ok resp, w') ->
  store w' <> store w ->
  exists id now,
    let url := Str.trim (str_of (body req !! "url")) in
    let slug := final_slug req w in
    store w'
    = mkStore (apps (store w)) (api_keys (store w)) (events (store w))
        (short_urls (store w) ++ [mkShortUrl id (ctx_id ctx) slug url 0 now now])
    /\ Sql.select_short_url slug (store w) = []
    /\ Sql.has_app (ctx_id ctx) (store w) = true
    /\ resp = match protocol req with
              | Ok scheme =>
                  mkResponse 201
                    (ShortUrlBody slug
                       (scheme ++ "://" ++ default "undefined" (headers req !! "host")
                        ++ "/s/" ++ slug)
                       url)
              | Throw _ =>
                  mkResponse 500
                    (ErrorBody "Internal Server Error" "Failed to create short URL.")
              end.
Proof.
  unfold createShortUrl. unfold try_catch at 1.
  destruct (_ || _ || _); [intros [= <- <-] Hne; contradiction|].
  destruct (negb (URL_ok rt _)); [intros [= <- <-] Hne; contradiction|].
  unfold bind at 1. unfold getPool, db_call at 1.
  destruct (db_fault w (db_calls w)); [intros [= <- <-] Hne; contradiction|].
  unfold bind at 1.
  assert (Hslug : exists w1,
             (if negb (truthy_field (body req !! "slug"))
              then bytes <- randomBytes 4;; ret (Str.substring0 8 (Encoding.base64url bytes))
              else ret (str_of (body req !! "slug")))
               (count_db_call (log_io IoPool w))
             = (Ok (final_slug req w), w1)
             /\ store w1 = store w /\ db_fault w1 = db_fault w
             /\ db_calls w1 = S (db_calls w) /\ clock w1 = clock w
             /\ clock_reads w1 = clock_reads w).
  { unfold final_slug. destruct (truthy_field (body req !! "slug")); cbn [negb].
    - eexists. split; [reflexivity|]. repeat split.
    - eexists. split; [reflexivity|]. repeat split. }
  destruct Hslug as (w1 & -> & Hs1 & Hf1 & Hc1 & Hk1 & Hr1).
  set (slug := final_slug req w).
  unfold bind at 1. rewrite select_run. rewrite Hf1, Hc1.
  destruct (db_fault w (S (db_calls w))).
  { intros [= <- <-] Hne. exfalso. apply Hne. world_simpl. exact Hs1. }
  rewrite Hs1.
  destruct (0 <? List.length (Sql.select_short_url slug (store w)))%nat eqn:Hex.
  { intros [= <- <-] Hne. exfalso. apply Hne. reflexivity. }
  unfold bind at 1. rewrite genId_run. world_simpl.
  unfold bind at 1. unfold insert_into. rewrite execute_run. world_simpl.
  rewrite Hf1, Hc1.
  destruct (db_fault w (S (S (db_calls w)))).
  { intros [= <- <-] Hne. exfalso. apply Hne. reflexivity. }
  unfold Sql.insert_short_url.
  destruct (negb (Sql.short_url_fits _ _ _ _)).
  { intros [= <- <-] Hne. exfalso. apply Hne. reflexivity. }
  destruct (existsb _ _); [intros [= <- <-] Hne; exfalso; apply Hne; reflexivity|].
  destruct (existsb _ _); [intros [= <- <-] Hne; exfalso; apply Hne; reflexivity|].
  destruct (Sql.has_app (ctx_id ctx) (store w)) eqn:Happ; cbn [negb];
    [|intros [= <- <-] Hne; exfalso; apply Hne; reflexivity].
  cbn [option_map]. unfold bind at 1. unfold getter at 1.
  assert (Hnone : Sql.select_short_url slug (store w) = []).
  { destruct (Sql.select_short_url slug (store w)); [reflexivity | discriminate Hex]. }
  destruct (protocol req) as [scheme | err]; unfold json, ret, internal_error;
    intros [= <- <-] _; do 2 eexists; world_simpl; repeat split; assumption.
Qed.

(** The guarded read of [req.ip] in [redirectShortUrl]. *)
Lemma guarded_ip_run (req : Request) (w : World) :
  try_catch (getter (ip req)) (fun _ => ret None) w
  = (Ok match ip req with
        | Ok address => address
        | Throw _ => None
        end, w).
Proof. unfold try_catch, getter, ret. destruct (ip req); reflexivity. Qed.

(** [redirectShortUrl] on a database that answers, outcome by outcome. *)
Lemma redirectShortUrl_run (rt : Runtime) (slug : string) (req : Request) (w : World) :
  db_ok w ->
  exists resp w',
    redirectShortUrl rt slug req w = (Ok resp, w')
    /\ (Sql.select_short_url slug (store w) = []
        /\ resp = mkResponse 404 (ErrorBody "Not Found" "Short URL not found.")
        /\ store w' = store w
        \/ exists u rest,
             Sql.select_short_url slug (store w) = u :: rest
             /\ let s1 := Sql.bump_click_count (su_id u) (clock w (S (clock_reads w)))
                            (store w) in
                (Sql.select_active_key_id (su_app_id u) s1 = []
                 /\ resp = mkResponse 302 (RedirectBody (su_original_url u))
                 /\ store w' = s1
                 \/ exists keyId others e,
                      Sql.select_active_key_id (su_app_id u) s1 = keyId :: others
                      /\ ev_id e = Keygen.uuid_text (next_bytes 16 w)
                      /\ ev_app_id e = su_app_id u /\ ev_api_key_id e = keyId
                      /\ ev_event_name e = "short_url_click"
                      /\ ev_user_id e = "anonymous_" ++ default "null" (ev_ip_address e)
                      /\ ev_timestamp e = clock w (S (S (S (clock_reads w))))
                      /\ (Sql.insert_event e s1 = Some (store w')
                          /\ resp = mkResponse 302 (RedirectBody (su_original_url u))
                          \/ Sql.insert_event e s1 = None
                             /\ resp = mkResponse 500
                                         (ErrorBody "Internal Server Error"
                                            "Failed to redirect short URL.")
                             /\ store w' = s1))).
Proof.
  intros Hok. unfold redirectShortUrl. unfold try_catch at 1.
  unfold bind at 1. unfold getPool. rewrite db_call_ok by apply Hok.
  unfold bind at 1. rewrite select_ok by apply Hok. world_simpl.
  destruct (Sql.select_short_url slug (store w)) as [|u rest] eqn:Hrows.
  { do 2 eexists. split; [reflexivity|]. left. auto. }
  unfold bind at 1. unfold bind at 1.
  erewrite execute_ok; [|apply Hok | reflexivity]. world_simpl.
  set (s1 := Sql.bump_click_count (su_id u) (clock w (S (clock_reads w))) (store w)).
  unfold bind at 1. rewrite select_ok by apply Hok. world_simpl.
  destruct (Sql.select_active_key_id (su_app_id u) s1) as [|keyId others] eqn:Hkeys.
  { do 2 eexists. split; [reflexivity|]. right. exists u, rest. split; [reflexivity|].
    cbv zeta. fold s1. rewrite Hkeys. left. auto. }
  unfold bind at 1. rewrite genId_run. world_simpl.
  unfold bind at 1. rewrite guarded_ip_run.
  unfold insert_into. rewrite execute_run. world_simpl. rewrite Hok.
  match goal with
  | |- context [Sql.insert_event ?e0 s1] => set (e := e0)
  end.
  destruct (Sql.insert_event e s1) as [s2|] eqn:Hins; cbn [option_map].
  - do 2 eexists. split; [reflexivity|]. right. exists u, rest. split; [reflexivity|].
    cbv zeta. fold s1. rewrite Hkeys. right. exists keyId, others, e.
    split; [reflexivity|]. repeat split; try reflexivity. left. world_simpl. auto.
  - do 2 eexists. split; [reflexivity|]. right. exists u, rest. split; [reflexivity|].
    cbv zeta. fold s1. rewrite Hkeys. right. exists keyId, others, e.
    split; [reflexivity|]. repeat split; try reflexivity. right. world_simpl. auto.
Qed.

Lemma select_short_url_In (slug : string) (s : Store) (u : ShortUrl) :
  In u (Sql.select_short_url slug s) <-> In u (short_urls s) /\ su_slug u = slug.
Proof.
  unfold Sql.select_short_url. rewrite filter_In. rewrite str_eqb_eq. reflexivity.
Qed.

(** X21: a slug that is taken is refused.  When a row of [short_urls]
    already has the slug that the request asks for, a valid request is
    answered 409 and no row is added or changed. *)
Theorem taken_slug_is_refused (rt : Runtime) (req : Request) (ctx : AuthContext)
    (w : World) (url slug : string) (u : ShortUrl) :
  body req !! "url" = Some (JStr url) ->
  Str.trim url <> "" ->
  URL_ok rt url = true ->
  body req !! "slug" = Some (JStr slug) ->
  slug <> "" ->
  In u (short_urls (store w)) ->
  su_slug u = slug ->
  db_fault w (db_calls w) = false ->
  db_fault w (S (db_calls w)) = false ->
  exists w',
    createShortUrl rt req ctx w
    = (Ok (mkResponse 409
             (ErrorBody "Conflict" "Slug already exists. Please choose a different slug.")),
       w')
    /\ store w' = store w.
Proof.
  intros Hurl Hblank Hok Hslug Hne Hu Hs F0 F1.
  assert (Hurl_ne : url <> "") by (intros ->; apply Hblank; reflexivity).
  unfold createShortUrl. unfold try_catch at 1. rewrite Hurl, Hslug.
  cbn [truthy_field truthy is_string str_of sql_text].
  destruct (String.eqb_spec url ""); [contradiction|].
  destruct (String.eqb_spec slug ""); [contradiction|]. cbn [negb orb].
  destruct (Nat.eqb_spec (String.length (Str.trim url)) 0) as [Hz | _].
  { exfalso. apply Hblank. destruct (Str.trim url); [reflexivity | discriminate Hz]. }
  rewrite Hok. cbn [negb].
  unfold bind at 1. unfold getPool. rewrite db_call_ok by exact F0.
  unfold bind at 1. unfold ret at 1.
  unfold bind at 1. rewrite select_ok by exact F1. world_simpl.
  destruct (Sql.select_short_url slug (store w)) as [|x rest] eqn:Hrows.
  { exfalso. assert (Hin : In u (Sql.select_short_url slug (store w)))
      by (apply select_short_url_In; split; assumption).
    rewrite Hrows in Hin. destruct Hin. }
  eexists. split; reflexivity.
Qed.

Lemma taken_slug_is_refused_witness :
  exists w',
    createShortUrl sample_rt shorten_promo_request sample_ctx
      (sample_world store_with_link None)
    = (Ok (mkResponse 409
             (ErrorBody "Conflict" "Slug already exists. Please choose a different slug.")),
       w')
    /\ store w' = store_with_link.
Proof.
  apply (taken_slug_is_refused sample_rt shorten_promo_request sample_ctx
           (sample_world store_with_link None) "https://example.com/other" "promo"
           sample_link);
    [reflexivity | vm_compute; discriminate | reflexivity | reflexivity | discriminate
    | left; reflexivity | reflexivity | reflexivity | reflexivity].
Defined.

Lemma select_active_key_id_exists (a : string) (s : Store) (keyId : string)
    (others : list string) :
  Sql.select_active_key_id a s = keyId :: others ->
  exists k, In k (api_keys s) /\ key_id k = keyId /\ active_of a k = true.
Proof.
  unfold Sql.select_active_key_id, Sql.limit. intros H.
  assert (Hin : In keyId
                  (List.map key_id
                     (List.filter
                        (fun k => Sql.str_eqb (key_app_id k) a && negb (key_is_revoked k))
                        (api_keys s)))).
  { destruct (List.map key_id _) as [|x l]; [discriminate H|].
    cbn [firstn] in H. injection H as -> _. left. reflexivity. }
  apply in_map_iff in Hin as (k & Hid & Hk). apply filter_In in Hk as [Hk Hact].
  exists k. repeat split; assumption.
Qed.

(** A redirect of a slug that one row holds: the click is counted, and the
    answer is the redirect, or 500 when the click event was refused. *)
Lemma redirect_of_held_slug (rt : Runtime) (slug : string) (req : Request) (w : World)
    (u : ShortUrl) :
  db_ok w ->
  Sql.select_short_url slug (store w) = [u] ->
  exists resp w',
    redirectShortUrl rt slug req w = (Ok resp, w')
    /\ In (clicked (clock w (S (clock_reads w))) u) (short_urls (store w'))
    /\ (resp = mkResponse 302 (RedirectBody (su_original_url u))
        \/ resp = mkResponse 500
                    (ErrorBody "Internal Server Error" "Failed to redirect short URL.")
           /\ events (store w') = events (store w)).
Proof.
  intros Hok Hrows.
  destruct (redirectShortUrl_run rt slug req w Hok)
    as (resp & w' & Hrun & [(Hn & _) | (u0 & rest & Hr & Hcase)]).
  { rewrite Hrows in Hn. discriminate Hn. }
  rewrite Hrows in Hr. injection Hr as <- <-. cbv zeta in Hcase.
  set (now := clock w (S (clock_reads w))) in *.
  set (s1 := Sql.bump_click_count (su_id u) now (store w)) in *.
  assert (Hu : In u (short_urls (store w))).
  { assert (Hin : In u (Sql.select_short_url slug (store w))) by (rewrite Hrows; left; reflexivity).
    apply select_short_url_In in Hin. apply Hin. }
  assert (Hclicked : In (clicked now u) (short_urls s1)).
  { unfold s1, Sql.bump_click_count. cbn [short_urls]. apply in_map_iff. exists u.
    split; [|exact Hu]. rewrite (proj2 (str_eqb_eq _ _) eq_refl). reflexivity. }
  exists resp, w'. split; [exact Hrun|].
  destruct Hcase as [(_ & -> & Hs) | (keyId & others & e & _ & _ & _ & _ & _ & _ & _
                                       & [(Hins & ->) | (_ & -> & Hs)])].
  - rewrite Hs. split; [exact Hclicked | left; reflexivity].
  - split; [|left; reflexivity].
    unfold Sql.insert_event in Hins.
    destruct (negb (Sql.event_fits e)); [discriminate Hins|].
    destruct (existsb _ _); [discriminate Hins|].
    destruct (negb _); [discriminate Hins|].
    destruct (negb _); [discriminate Hins|].
    injection Hins as <-. exact Hclicked.
  - rewrite Hs. split; [exact Hclicked|]. right. split; reflexivity.
Qed.

(** X22: a short link that has been stored is found by the redirect.  A
    [createShortUrl] call that changed the tables added exactly one row: for
    the slug of the request (or the generated one), with the trimmed URL,
    the application of the credential and no click, and no row had that
    slug before.  Its answer is written after the [INSERT] from
    [req.protocol]: 201 with the slug when that read returns, and 500 when
    it throws, as it does on a request that came through the middleware;
    the row is stored either way.  A redirect of that slug, on a database
    that answers, then counts one click and answers 302 to that URL, or 500
    when the click event is refused (an address longer than its column,
    for one); it never answers 404. *)
Theorem created_short_url_redirects (rt : Runtime) (req : Request) (ctx : AuthContext)
    (w w' : World) (resp : Response) :
  createShortUrl rt req ctx w = (Ok resp, w') ->
  store w' <> store w ->
  exists u,
    store w'
    = mkStore (apps (store w)) (api_keys (store w)) (events (store w))
        (short_urls (store w) ++ [u])
    /\ su_slug u = final_slug req w
    /\ su_original_url u = Str.trim (str_of (body req !! "url"))
    /\ su_app_id u = ctx_id ctx
    /\ su_click_count u = 0
    /\ (forall x, In x (short_urls (store w)) -> su_slug x <> su_slug u)
    /\ resp = match protocol req with
              | Ok scheme =>
                  mkResponse 201
                    (ShortUrlBody (su_slug u)
                       (scheme ++ "://" ++ default "undefined" (headers req !! "host")
                        ++ "/s/" ++ su_slug u)
                       (su_original_url u))
              | Throw _ =>
                  mkResponse 500
                    (ErrorBody "Internal Server Error" "Failed to create short URL.")
              end
    /\ (forall req2 w2,
          store w2 = store w' ->
          db_ok w2 ->
          exists resp2 w3,
            redirectShortUrl rt (su_slug u) req2 w2 = (Ok resp2, w3)
            /\ In (clicked (clock w2 (S (clock_reads w2))) u) (short_urls (store w3))
            /\ (resp2 = mkResponse 302 (RedirectBody (su_original_url u))
                \/ resp2 = mkResponse 500
                             (ErrorBody "Internal Server Error"
                                "Failed to redirect short URL.")
                   /\ events (store w3) = events (store w2))).
Proof.
  intros Hrun Hne.
  destruct (createShortUrl_inserted rt req ctx w w' resp Hrun Hne)
    as (id & now & Hs & Hnone & Happ & Hresp).
  cbv zeta in *.
  set (slug := final_slug req w) in *.
  set (url := Str.trim (str_of (body req !! "url"))) in *.
  set (u := mkShortUrl id (ctx_id ctx) slug url 0 now now) in *.
  exists u. split; [exact Hs|].
  assert (Hfree : forall x, In x (short_urls (store w)) -> su_slug x <> slug).
  { intros x Hx E.
    assert (Hin : In x (Sql.select_short_url slug (store w)))
      by (apply select_short_url_In; split; assumption).
    rewrite Hnone in Hin. destruct Hin. }
  do 4 (split; [reflexivity|]). split; [exact Hfree|]. split; [exact Hresp|].
  intros req2 w2 Hs2 Hok.
  apply redirect_of_held_slug; [exact Hok|].
  rewrite Hs2, Hs. change (su_slug u) with slug.
  unfold Sql.select_short_url in *. cbn [short_urls].
  rewrite List.filter_app, Hnone.
  cbn [List.filter Datatypes.app su_slug u]. rewrite (proj2 (str_eqb_eq _ _) eq_refl).
  reflexivity.
Qed.

Lemma created_short_url_redirects_witness :
  let created := world_after (app sample_rt shorten_request) sample_w in
  fst (app sample_rt shorten_request sample_w)
  = Ok (mkResponse 500 (ErrorBody "Internal Server Error" "Failed to create short URL."))
  /\ List.map su_slug (short_urls (store created)) = ["AAECAw"]
  /\ exists u resp2 w3,
       short_urls (store created) = [u]
       /\ redirectShortUrl sample_rt "AAECAw" redirect_generated_request created
          = (Ok resp2, w3)
       /\ status resp2 = 302
       /\ In (clicked 1704100000004 u) (short_urls (store w3)).
Proof.
  cbv zeta. split; [vm_compute; reflexivity|]. split; [vm_compute; reflexivity|].
  destruct (created_short_url_redirects sample_rt (app_replaced shorten_request) sample_ctx
              (world_after (apiKeyAuth shorten_request) sample_w)
              (world_after (app sample_rt shorten_request) sample_w)
              (mkResponse 500
                 (ErrorBody "Internal Server Error" "Failed to create short URL.")))
    as (u & Hs & Hslug & _ & _ & _ & _ & _ & Hredirect).
  - vm_compute. reflexivity.
  - intros E. apply (f_equal short_urls) in E. vm_compute in E. discriminate E.
  - destruct (Hredirect redirect_generated_request
                (world_after (app sample_rt shorten_request) sample_w) eq_refl)
      as (resp2 & w3 & Hrun2 & Hclick & _); [intros n; vm_compute; reflexivity|].
    assert (E : su_slug u = "AAECAw") by (rewrite Hslug; vm_compute; reflexivity).
    rewrite E in Hrun2.
    exists u, resp2, w3. split; [rewrite Hs; reflexivity|]. split; [exact Hrun2|].
    split.
    2:{ assert (T : clock (world_after (app sample_rt shorten_request) sample_w)
                      (S (clock_reads (world_after (app sample_rt shorten_request) sample_w)))
                    = 1704100000004) by (vm_compute; reflexivity).
        rewrite T in Hclick. exact Hclick. }
    assert (R : option_map status
                  (response_of (redirectShortUrl sample_rt "AAECAw" redirect_generated_request)
                     (world_after (app sample_rt shorten_request) sample_w))
                = Some 302) by (vm_compute; reflexivity).
    unfold response_of in R. rewrite Hrun2 in R. injection R as R. exact R.
Defined.

(** X23: a redirect counts the click before it logs it, and not in one
    transaction.  For a slug that one row [u] holds, on a database that
    answers: the click count of [u] is one higher afterwards and no other
    row of [short_urls] with another id has changed, whatever the answer;
    the answer is 302 to the URL of [u], or 500 when the click event could
    not be inserted.  A 302 has logged nothing when the application of [u]
    has no active credential, and otherwise exactly one event
    [short_url_click], under that application and one of its active
    credentials, for the user [anonymous_] followed by the stored address
    (or [null]). *)
Theorem redirect_counts_click_and_logs_event (rt : Runtime) (slug : string) (req : Request)
    (w : World) (u : ShortUrl) :
  db_ok w ->
  In u (short_urls (store w)) ->
  su_slug u = slug ->
  (forall x, In x (short_urls (store w)) -> su_slug x = slug -> x = u) ->
  exists resp w',
    redirectShortUrl rt slug req w = (Ok resp, w')
    /\ short_urls (store w')
       = List.map
           (fun x =>
              if Sql.str_eqb (su_id x) (su_id u) then clicked (clock w (S (clock_reads w))) x
              else x)
           (short_urls (store w))
    /\ In (clicked (clock w (S (clock_reads w))) u) (short_urls (store w'))
    /\ (resp = mkResponse 302 (RedirectBody (su_original_url u))
        /\ ((forall k, In k (api_keys (store w)) -> active_of (su_app_id u) k = false)
            /\ events (store w') = events (store w)
            \/ exists k e,
                 In k (api_keys (store w)) /\ active_of (su_app_id u) k = true
                 /\ events (store w') = (events (store w) ++ [e])%list
                 /\ ev_event_name e = "short_url_click"
                 /\ ev_app_id e = su_app_id u /\ ev_api_key_id e = key_id k
                 /\ ev_user_id e = "anonymous_" ++ default "null" (ev_ip_address e))
        \/ resp = mkResponse 500
                    (ErrorBody "Internal Server Error" "Failed to redirect short URL.")
           /\ events (store w') = events (store w)).
Proof.
  intros Hok Hu Hslug Huniq.
  destruct (redirectShortUrl_run rt slug req w Hok)
    as (resp & w' & Hrun & [(Hn & _) | (u0 & rest & Hr & Hcase)]).
  { exfalso. assert (Hin : In u (Sql.select_short_url slug (store w)))
      by (apply select_short_url_In; split; assumption).
    rewrite Hn in Hin. destruct Hin. }
  assert (Hu0 : u0 = u).
  { assert (Hin : In u0 (Sql.select_short_url slug (store w)))
      by (rewrite Hr; left; reflexivity).
    apply select_short_url_In in Hin as [Hin Hs0]. apply Huniq; assumption. }
  subst u0. cbv zeta in Hcase.
  set (now := clock w (S (clock_reads w))) in *.
  set (s1 := Sql.bump_click_count (su_id u) now (store w)) in *.
  assert (Hbump : short_urls s1
                  = List.map
                      (fun x => if Sql.str_eqb (su_id x) (su_id u) then clicked now x else x)
                      (short_urls (store w))) by reflexivity.
  assert (Hclicked : In (clicked now u) (short_urls s1)).
  { rewrite Hbump. apply in_map_iff. exists u. split; [|exact Hu].
    rewrite (proj2 (str_eqb_eq _ _) eq_refl). reflexivity. }
  assert (Hnokey : Sql.select_active_key_id (su_app_id u) s1 = [] ->
                   forall k, In k (api_keys (store w)) -> active_of (su_app_id u) k = false).
  { unfold Sql.select_active_key_id, Sql.limit. cbn [s1 Sql.bump_click_count api_keys].
    intros Hnil k Hk. destruct (active_of (su_app_id u) k) eqn:E; [|reflexivity].
    assert (Hin : In k (List.filter
                          (fun k => Sql.str_eqb (key_app_id k) (su_app_id u)
                                    && negb (key_is_revoked k)) (api_keys (store w))))
      by (apply filter_In; split; assumption).
    destruct (List.filter _ (api_keys (store w))); [destruct Hin | discriminate Hnil]. }
  exists resp, w'. split; [exact Hrun|].
  destruct Hcase as [(Hkeys & -> & Hs) | (keyId & others & e & Hkeys & _ & Ha & Hk & Hname
                                          & Huser & _ & [(Hins & ->) | (_ & -> & Hs)])].
  - rewrite Hs. split; [exact Hbump|]. split; [exact Hclicked|]. left.
    split; [reflexivity|]. left. split; [apply Hnokey; exact Hkeys | reflexivity].
  - unfold Sql.insert_event in Hins.
    destruct (negb (Sql.event_fits e)); [discriminate Hins|].
    destruct (existsb _ _); [discriminate Hins|].
    destruct (negb _); [discriminate Hins|].
    destruct (negb _); [discriminate Hins|].
    injection Hins as <-. cbn [short_urls events].
    split; [exact Hbump|]. split; [exact Hclicked|]. left. split; [reflexivity|]. right.
    destruct (select_active_key_id_exists _ _ _ _ Hkeys) as (k & Hin & Hkid & Hact).
    exists k, e. repeat split; try assumption. congruence.
  - rewrite Hs. split; [exact Hbump|]. split; [exact Hclicked|]. right.
    split; reflexivity.
Qed.

Lemma redirect_counts_click_and_logs_event_witness :
  exists resp w' e,
    redirectShortUrl sample_rt "promo" redirect_promo_request
      (sample_world store_with_link None) = (Ok resp, w')
    /\ status resp = 302
    /\ In (clicked 1704100000001 sample_link) (short_urls (store w'))
    /\ events (store w') = (events sample_store ++ [e])%list
    /\ ev_user_id e = "anonymous_null".
Proof.
  destruct (redirect_counts_click_and_logs_event sample_rt "promo"
              redirect_promo_request (sample_world store_with_link None) sample_link)
    as (resp & w' & Hrun & _ & Hclick & Hcase);
    [intros n; reflexivity | left; reflexivity | reflexivity | |].
  - intros x [<- | []] _. reflexivity.
  - assert (E : redirectShortUrl sample_rt "promo" redirect_promo_request
                  (sample_world store_with_link None)
                = (Ok (mkResponse 302 (RedirectBody "https://example.com/sale")),
                   world_after
                     (redirectShortUrl sample_rt "promo" redirect_promo_request)
                     (sample_world store_with_link None))) by (vm_compute; reflexivity).
    rewrite E in Hrun. injection Hrun as <- <-.
    assert (Hev : exists e,
               events (store (world_after
                                (redirectShortUrl sample_rt "promo"
                                   redirect_promo_request)
                                (sample_world store_with_link None)))
               = (events sample_store ++ [e])%list
               /\ ev_user_id e = "anonymous_null")
      by (eexists; split; vm_compute; reflexivity).
    destruct Hev as (e & He & Huser).
    eexists _, _, e. split; [exact E|]. split; [reflexivity|].
    split; [exact Hclick|]. split; [exact He | exact Huser].
Defined.

(** X24: a slug that no row holds is answered 404, and the redirect then
    writes nothing: no click is counted and no event is logged. *)
Theorem unknown_slug_is_not_found (rt : Runtime) (slug : string) (req : Request) (w : World) :
  db_fault w (db_calls w) = false ->
  db_fault w (S (db_calls w)) = false ->
  (forall x, In x (short_urls (store w)) -> su_slug x <> slug) ->
  exists w',
    redirectShortUrl rt slug req w
    = (Ok (mkResponse 404 (ErrorBody "Not Found" "Short URL not found.")), w')
    /\ store w' = store w.
Proof.
  intros F0 F1 Hnone. unfold redirectShortUrl. unfold try_catch at 1.
  unfold bind at 1. unfold getPool. rewrite db_call_ok by exact F0.
  unfold bind at 1. rewrite select_ok by exact F1. world_simpl.
  unfold Sql.select_short_url. rewrite filter_none.
  - eexists. split; reflexivity.
  - intros x Hx. apply str_eqb_neq. apply Hnone. exact Hx.
Qed.

Lemma unknown_slug_is_not_found_witness :
  exists w',
    redirectShortUrl sample_rt "promo" redirect_promo_request sample_w
    = (Ok (mkResponse 404 (ErrorBody "Not Found" "Short URL not found.")), w')
    /\ store w' = sample_store.
Proof.
  apply (unknown_slug_is_not_found sample_rt "promo" redirect_promo_request sample_w);
    [reflexivity | reflexivity | intros x []].
Defined.

(** ** Routing *)

Lemma route_other_method (m : Method) (pattern : list string) (handler : IO Response)
    (req : Request) (sub : list string) :
  method req <> m -> route m pattern handler req sub = None.
Proof.
  intros H. unfold route. rewrite bool_decide_eq_false_2; [reflexivity|].
  intros [E _]. contradiction.
Qed.

Lemma mounted_none (prefix : list string) (router : list string -> option (IO Response))
    (p : list string) :
  (forall sub, router sub = None) -> mounted prefix router p = None.
Proof. intros H. unfold mounted. destruct (bool_decide _); [apply H | reflexivity]. Qed.

(** X25: no route takes a [PUT] or a [DELETE].  Outside the documentation
    pages, such a request reaches the handler after the last route, whatever
    its path: it is answered 404 with the method and the path in the
    message, and nothing is read or written. *)
Theorem put_and_delete_are_not_routed (rt : Runtime) (req : Request) (w : World) :
  method req = PUT \/ method req = DELETE ->
  (forall rest, path req <> "docs" :: rest) ->
  app rt req w
  = (Ok (mkResponse 404
           (ErrorBody "Not Found"
              ("Route " ++ method_name (method req) ++ " " ++ path_text (path req)
               ++ " not found"))),
     w).
Proof.
  intros Hm Hdocs.
  assert (Hget : method req <> GET) by (destruct Hm as [-> | ->]; discriminate).
  assert (Hpost : method req <> POST) by (destruct Hm as [-> | ->]; discriminate).
  unfold app. cbv zeta.
  rewrite (route_other_method GET ["health"]) by exact Hget.
  rewrite (mounted_none ["api"; "auth"]).
  2:{ intros sub. unfold auth_routes.
      rewrite !(route_other_method POST) by exact Hpost.
      rewrite (route_other_method GET) by exact Hget. reflexivity. }
  rewrite (mounted_none ["api"; "analytics"]).
  2:{ intros sub. unfold analytics_routes.
      rewrite (route_other_method POST) by exact Hpost.
      rewrite (route_other_method GET) by exact Hget. reflexivity. }
  assert (Hshort : forall sub, shorturl_routes rt req sub = None).
  { intros sub. unfold shorturl_routes.
    rewrite (route_other_method POST) by exact Hpost.
    destruct sub as [|slug [|]]; try reflexivity.
    rewrite (route_other_method GET) by exact Hget. reflexivity. }
  rewrite (mounted_none ["api"]) by exact Hshort.
  rewrite (mounted_none ["s"]) by exact Hshort.
  rewrite (route_other_method GET []) by exact Hget.
  rewrite (route_other_method GET ["docs.json"]) by exact Hget.
  unfold mounted. rewrite bool_decide_eq_false_2.
  - reflexivity.
  - destruct (path req) as [|seg rest] eqn:Hp; cbn; [discriminate|].
    intros [= ->]. exact (Hdocs rest eq_refl).
Qed.

Lemma put_and_delete_are_not_routed_witness :
  app sample_rt delete_request sample_w
  = (Ok (mkResponse 404
           (ErrorBody "Not Found" "Route DELETE /api/auth/revoke not found")),
     sample_w).
Proof.
  apply (put_and_delete_are_not_routed sample_rt
           delete_request sample_w);
    [right; reflexivity | intros rest; discriminate].
Defined.

(** X26: the short-link router is mounted under [/api] and under [/s], with
    both of its routes.  So [GET /api/<slug>] redirects like [GET /s/<slug>]
    for every slug, [auth], [analytics] and [shorten] included, and
    [POST /s/shorten] creates a link like [POST /api/shorten]. *)
Theorem short_link_router_is_mounted_twice (rt : Runtime) (req : Request) (slug : string) :
  (method req = GET ->
   slug <> "" ->
   path req = ["api"; slug] \/ path req = ["s"; slug] ->
   app rt req = redirectShortUrl rt slug req)
  /\ (method req = POST ->
      path req = ["api"; "shorten"] \/ path req = ["s"; "shorten"] ->
      app rt req = protected req (createShortUrl rt)).
Proof.
  split; [|apply app_shorten].
  destruct req as [m p h q b i ra pr]. cbn [method path]. intros -> _ [-> | ->].
  - unfold app. cbv zeta. cbn [path method].
    unfold route at 1. rewrite bool_decide_eq_false_2 by (intros [_ [=]]).
    cbn [first_match].
    unfold mounted at 1. cbn [List.length firstn skipn].
    destruct (bool_decide (["api"; slug] = ["api"; "auth"])).
    + unfold auth_routes, route.
      rewrite !bool_decide_eq_false_2 by (intros [_ [=]]). cbn [first_match].
      unfold mounted at 1. cbn [List.length firstn skipn].
      destruct (bool_decide (["api"; slug] = ["api"; "analytics"])).
      * unfold analytics_routes, route.
        rewrite !bool_decide_eq_false_2 by (intros [_ [=]]). cbn [first_match].
        unfold mounted at 1. cbn [List.length firstn skipn].
        rewrite bool_decide_eq_true_2 by reflexivity.
        unfold shorturl_routes, route.
        rewrite bool_decide_eq_false_2 by (intros [[=] _]).
        rewrite bool_decide_eq_true_2 by (split; reflexivity). reflexivity.
      * cbn [first_match].
        unfold mounted at 1. cbn [List.length firstn skipn].
        rewrite bool_decide_eq_true_2 by reflexivity.
        unfold shorturl_routes, route.
        rewrite bool_decide_eq_false_2 by (intros [[=] _]).
        rewrite bool_decide_eq_true_2 by (split; reflexivity). reflexivity.
    + cbn [first_match].
      unfold mounted at 1. cbn [List.length firstn skipn].
      destruct (bool_decide (["api"; slug] = ["api"; "analytics"])).
      * unfold analytics_routes, route.
        rewrite !bool_decide_eq_false_2 by (intros [_ [=]]). cbn [first_match].
        unfold mounted at 1. cbn [List.length firstn skipn].
        rewrite bool_decide_eq_true_2 by reflexivity.
        unfold shorturl_routes, route.
        rewrite bool_decide_eq_false_2 by (intros [[=] _]).
        rewrite bool_decide_eq_true_2 by (split; reflexivity). reflexivity.
      * cbn [first_match].
        unfold mounted at 1. cbn [List.length firstn skipn].
        rewrite bool_decide_eq_true_2 by reflexivity.
        unfold shorturl_routes, route.
        rewrite bool_decide_eq_false_2 by (intros [[=] _]).
        rewrite bool_decide_eq_true_2 by (split; reflexivity). reflexivity.
  - unfold app. cbv zeta. cbn [path method].
    unfold route at 1. rewrite bool_decide_eq_false_2 by (intros [_ [=]]).
    cbn [first_match].
    unfold mounted at 1. cbn [List.length firstn skipn].
    rewrite bool_decide_eq_false_2 by (intros [=]). cbn [first_match].
    unfold mounted at 1. cbn [List.length firstn skipn].
    rewrite bool_decide_eq_false_2 by (intros [=]). cbn [first_match].
    unfold mounted at 1. cbn [List.length firstn skipn].
    rewrite bool_decide_eq_false_2 by (intros [=]). cbn [first_match].
    unfold mounted at 1. cbn [List.length firstn skipn].
    rewrite bool_decide_eq_true_2 by reflexivity.
    unfold shorturl_routes, route.
    rewrite bool_decide_eq_false_2 by (intros [[=] _]).
    rewrite bool_decide_eq_true_2 by (split; reflexivity). reflexivity.
Qed.

Lemma short_link_router_is_mounted_twice_witness :
  app sample_rt get_api_auth
  = redirectShortUrl sample_rt "auth" get_api_auth
  /\ app sample_rt post_s_shorten
     = protected post_s_shorten (createShortUrl sample_rt).
Proof.
  split.
  - apply (short_link_router_is_mounted_twice sample_rt get_api_auth "auth");
      [reflexivity | discriminate | left; reflexivity].
  - apply (short_link_router_is_mounted_twice sample_rt post_s_shorten "");
      [reflexivity | right; reflexivity].
Defined.

(** ** The schema invariant along a run *)

Lemma served_store_wf_witness :
  store_wf (store (serve sample_rt [register_request; regenerate_request; collect_plain]
                     sample_w)).
Proof.
  apply (served_store_wf sample_rt [register_request; regenerate_request; collect_plain]
           sample_w).
  split; [apply (bool_decide_unpack _); vm_compute; exact I | intros s H; discriminate H].
Defined.

(** ** The two singletons *)

Lemma calls_with_pool (l : list (gmap string string * bool)) (p : Db.Pool) :
  Db.calls l (Some p) = List.map (fun _ => Ok p) l.
Proof.
  induction l as [|[env c] l IH]; cbn [Db.calls Db.getPool List.map]; [reflexivity|].
  rewrite IH. reflexivity.
Qed.

(** X27: [getPool()] fails at most once.  In every sequence of calls that
    starts without a pool, only the first call tests a connection and only
    it can throw; every later call returns the pool that the first call
    created, with the configuration read then, whether its test passed or
    not and whatever the database does since.  A pool whose test failed has
    no ['error'] handler, so a lost connection does not reset it. *)
Theorem getPool_fails_at_most_once (env : gmap string string) (connects : bool)
    (rest : list (gmap string string * bool)) :
  exists p,
    Db.config p = Db.pool_config env
    /\ Db.has_error_handler p = connects
    /\ Db.calls ((env, connects) :: rest) None
       = (if connects then Ok p else Throw DbError) :: List.map (fun _ => Ok p) rest
    /\ (connects = false -> forall lost, Db.on_error lost (Some p) = Some p).
Proof.
  exists (Db.mkPool (Db.pool_config env) connects).
  split; [reflexivity|]. split; [reflexivity|]. split.
  - cbn [Db.calls Db.getPool]. destruct connects; cbn [Db.config];
      rewrite calls_with_pool; reflexivity.
  - intros -> lost. reflexivity.
Qed.

Lemma getPool_fails_at_most_once_witness :
  exists p,
    Db.calls [(∅, false); ({[ "MYSQL_HOST" := "db.internal" ]}, false); (∅, true)] None
    = [Throw DbError; Ok p; Ok p]
    /\ Db.host (Db.config p) = "localhost"
    /\ Db.has_error_handler p = false.
Proof.
  destruct (getPool_fails_at_most_once ∅ false
              [({[ "MYSQL_HOST" := "db.internal" ]}, false); (∅, true)])
    as (p & Hc & Hh & Hcalls & _).
  exists p. split; [exact Hcalls|]. split; [rewrite Hc; reflexivity | exact Hh].
Defined.

(** X28: the reconnection delays never reach their cap.  [reconnectStrategy]
    gives up after the tenth retry, so the delay it returns is one hundred
    milliseconds per retry and at most one second: the bound of 3000 in
    [Math.min(retries * 100, 3000)] is never the smaller argument. *)
Theorem reconnect_delay_never_reaches_cap (retries : Z) :
  RedisConfig.reconnectStrategy retries
  = (if 10 <? retries then RedisConfig.GiveUp else RedisConfig.Delay (100 * retries))
  /\ forall ms, RedisConfig.reconnectStrategy retries = RedisConfig.Delay ms ->
                ms = 100 * retries /\ ms <= 1000 /\ ms < 3000.
Proof.
  unfold RedisConfig.reconnectStrategy.
  destruct (Z.ltb_spec 10 retries) as [Hgt | Hle].
  - split; [reflexivity | discriminate].
  - rewrite Z.min_l by lia. split; [f_equal; lia|].
    intros ms [= <-]. lia.
Qed.

Lemma reconnect_delay_never_reaches_cap_witness :
  RedisConfig.reconnectStrategy 10 = RedisConfig.Delay 1000
  /\ RedisConfig.reconnectStrategy 11 = RedisConfig.GiveUp.
Proof.
  split.
  - destruct (reconnect_delay_never_reaches_cap 10) as [H _]. exact H.
  - reflexivity.
Defined.

(** X29: [getRedis()] degrades to [null] and hands out open clients only.
    It never throws.  A client it returns is open.  A client that is open
    is returned as it is, without looking at the environment.  Without an
    open client and without [UPSTASH_REDIS_URL] it returns [null] and
    creates nothing.  When [connect()] rejects it returns [null], and the
    closed client it leaves in the module variable is not handed out by the
    next call, which makes an attempt of its own. *)
Theorem getRedis_degrades_gracefully (url : option string) (attempt : RedisConfig.Attempt)
    (redisClient : option RedisConfig.Client) :
  exists r st',
    RedisConfig.getRedis url attempt redisClient = (Ok r, st')
    /\ (forall c, r = Some c -> RedisConfig.isOpen c = true /\ st' = Some c)
    /\ (forall c, redisClient = Some c -> RedisConfig.isOpen c = true ->
                  r = Some c /\ st' = redisClient)
    /\ ((forall c, redisClient = Some c -> RedisConfig.isOpen c = false) ->
        truthy_param url = false -> r = None /\ st' = redisClient)
    /\ ((forall c, redisClient = Some c -> RedisConfig.isOpen c = false) ->
        truthy_param url = true -> attempt = RedisConfig.ConnectRejects ->
        r = None
        /\ forall url2,
             truthy_param url2 = true ->
             RedisConfig.getRedis url2 RedisConfig.Connects st'
             = (Ok (Some (RedisConfig.mkClient (default "" url2) true)),
                Some (RedisConfig.mkClient (default "" url2) true))).
Proof.
  unfold RedisConfig.getRedis.
  destruct redisClient as [[u [|]]|]; cbn [RedisConfig.isOpen].
  - do 2 eexists. split; [reflexivity|]. split; [intros c [= <-]; auto|].
    split; [intros c [= <-] _; auto|].
    split; intros H; specialize (H _ eq_refl); discriminate H.
  - destruct (truthy_param url) eqn:Hu; cbn [negb].
    + destruct attempt; do 2 eexists; (split; [reflexivity|]);
        (split; [intros c [= <-]; auto|]);
        (split; [intros c [= <-] [=]|]);
        (split; [intros _ [=]|]); intros _ _ Ha; try discriminate Ha.
      split; [reflexivity|]. intros url2 ->. reflexivity.
    + do 2 eexists. split; [reflexivity|]. split; [intros c [=]|].
      split; [intros c [= <-] [=]|]. split; [auto | intros _ [=]].
  - destruct (truthy_param url) eqn:Hu; cbn [negb].
    + destruct attempt; do 2 eexists; (split; [reflexivity|]);
        (split; [intros c [= <-]; auto|]);
        (split; [intros c [=]|]);
        (split; [intros _ [=]|]); intros _ _ Ha; try discriminate Ha.
      split; [reflexivity|]. intros url2 ->. reflexivity.
    + do 2 eexists. split; [reflexivity|]. split; [intros c [=]|].
      split; [intros c [=]|]. split; [auto | intros _ [=]].
Qed.

Lemma getRedis_degrades_gracefully_witness :
  exists st',
    RedisConfig.getRedis (Some "rediss://cache") RedisConfig.ConnectRejects None
    = (Ok None, st')
    /\ RedisConfig.getRedis (Some "rediss://cache") RedisConfig.Connects st'
       = (Ok (Some (RedisConfig.mkClient "rediss://cache" true)),
          Some (RedisConfig.mkClient "rediss://cache" true)).
Proof.
  destruct (getRedis_degrades_gracefully (Some "rediss://cache") RedisConfig.ConnectRejects
              None) as (r & st' & Hrun & _ & _ & _ & Hrej).
  destruct Hrej as [-> Hnext]; [intros c H; discriminate H | reflexivity | reflexivity |].
  exists st'. split; [exact Hrun|]. apply (Hnext (Some "rediss://cache")). reflexivity.
Defined.
